(** * Event Desk: the RSVP upsert engine and the event store

    A shallow embedding of the Express handlers of [backend/src/server.ts]
    and [backend/src/routes/attendees.ts] over a small model of the SQLite
    connection they share, and the properties of the counters and rows
    they maintain.

    - The handlers are synchronous ([better-sqlite3] has no asynchronous
      calls), so a handler runs from its first statement to its last
      without another request of the same process in between: a handler
      is a function from the connection before the request to the response
      and the connection after it.
    - The connection keeps the database and, while a transaction is open,
      the image that ROLLBACK restores; a statement runs in a state monad
      with exceptions, [try]/[catch] is a combinator of that monad.
    - The tables are lists of rows in rowid order. The schema of [events]
      is the one of init_and_alter_db.ts, with the four counters; INTEGER
      columns are [Z].
    - A request carries JavaScript values: a field can be absent, [null],
      a boolean, a number or a string, and the handlers' tests on them
      ([!v], [typeof], [===], [includes], the regular expression) are
      modelled on these values. *)

From Stdlib Require Import ZArith QArith List String Ascii Bool Lia DecimalString.
Import ListNotations.

Local Open Scope string_scope.
Local Open Scope Z_scope.

(** ** JavaScript values of a request *)

Module Js.

(** A JavaScript number, as far as the handlers look at one: not-a-number,
    an infinity, or a finite value (every finite double is a rational). *)
Inductive Number :=
| NaN
| Infinity (negative : bool)
| Finite (q : Q).

(** A field of a parsed JSON body, or the absence of the field. Fields
    holding arrays or objects are not modelled. *)
Inductive Value :=
| Undefined
| Null
| Boolean (b : bool)
| Num (n : Number)
| Str (s : string).

Definition integer (z : Z) : Number := Finite (z # 1).

Definition isNaN (n : Number) : bool :=
  match n with NaN => true | _ => false end.

(** [n <= 0] *)
Definition le0 (n : Number) : bool :=
  match n with
  | NaN => false
  | Infinity negative => negative
  | Finite q => Qnum q <=? 0
  end.

(** The integer a finite integral number denotes. *)
Definition as_integer (n : Number) : option Z :=
  match n with
  | Finite q => if Qnum q mod Zpos (Qden q) =? 0
                then Some (Qnum q / Zpos (Qden q)) else None
  | _ => None
  end.

(** [Number.isInteger(n)] *)
Definition isInteger (n : Number) : bool :=
  match as_integer n with Some _ => true | None => false end.

(** ToBoolean: what [!v], [v && _] and [v || _] test. *)
Definition truthy (v : Value) : bool :=
  match v with
  | Undefined | Null => false
  | Boolean b => b
  | Num NaN => false
  | Num (Infinity _) => true
  | Num (Finite q) => negb (Qnum q =? 0)
  | Str s => negb (s =? "")%string
  end.

Definition is_string (v : Value) : bool :=
  match v with Str _ => true | _ => false end.

(** [a || b] *)
Definition or (a b : Value) : Value := if truthy a then a else b.

(** [v === s] for a string literal [s] (strict equality: no coercion). *)
Definition strict_eq_string (v : Value) (s : string) : bool :=
  match v with Str t => (t =? s)%string | _ => false end.

(** [arr.includes(v)] on an array of string literals. *)
Definition includes (arr : list string) (v : Value) : bool :=
  existsb (strict_eq_string v) arr.

(** [arr.join(sep)] *)
Fixpoint join (sep : string) (arr : list string) : string :=
  match arr with
  | [] => ""
  | [s] => s
  | s :: rest => s ++ sep ++ join sep rest
  end.

(** [str.includes(sub)] *)
Definition string_includes (sub str : string) : bool :=
  match String.index 0 sub str with Some _ => true | None => false end.

(** *** Regular expressions

    Matched with Brzozowski derivatives. A string is its sequence of code
    units, here the eight-bit ones of [ascii]. *)

Inductive Regex :=
| Void
| Eps
| Class (p : ascii -> bool)
| Cat (r s : Regex)
| Alt (r s : Regex)
| Star (r : Regex).

Definition Plus (r : Regex) : Regex := Cat r (Star r).

Fixpoint nullable (r : Regex) : bool :=
  match r with
  | Void => false
  | Eps => true
  | Class _ => false
  | Cat r s => nullable r && nullable s
  | Alt r s => nullable r || nullable s
  | Star _ => true
  end.

Fixpoint deriv (a : ascii) (r : Regex) : Regex :=
  match r with
  | Void | Eps => Void
  | Class p => if p a then Eps else Void
  | Cat r s =>
      if nullable r then Alt (Cat (deriv a r) s) (deriv a s)
      else Cat (deriv a r) s
  | Alt r s => Alt (deriv a r) (deriv a s)
  | Star r => Cat (deriv a r) (Star r)
  end.

(** [/^r$/.test(s)] on a string. *)
Fixpoint matches (r : Regex) (s : string) : bool :=
  match s with
  | EmptyString => nullable r
  | String a s' => matches (deriv a r) s'
  end.

(** [\s] within the eight-bit code units: tab, line feed, vertical tab,
    form feed, carriage return, space and no-break space. *)
Definition white_space (a : ascii) : bool :=
  let n := nat_of_ascii a in
  ((9 <=? n) && (n <=? 13) || (n =? 32) || (n =? 160))%nat.

Definition chr (c a : ascii) : bool := (a =? c)%char.

(** [RegExp.prototype.test] converts its argument to a string first. The
    string of a number or of a boolean holds no ["@"], which every string
    the expressions below accept has, so only string values are run
    through the matcher; [undefined] and [null] likewise. *)
Definition test_with_at (r : Regex) (v : Value) : bool :=
  match v with Str s => matches r s | _ => false end.

End Js.

(** ** The SQLite store *)

Module Sqlite.

(** [events.status], the CHECK constraint of the table. *)
Inductive EventStatus := Created | Published | Archived | Cancelled.

(** [eventAttendees.responseStatus]: [ResponseStatusType] of attendees.ts,
    the CHECK constraint of the table. *)
Inductive ResponseStatus := Pending | Attending | NotAttending | Maybe.

Definition ResponseStatus_eqb (a b : ResponseStatus) : bool :=
  match a, b with
  | Pending, Pending | Attending, Attending
  | NotAttending, NotAttending | Maybe, Maybe => true
  | _, _ => false
  end.

Definition status_text (s : ResponseStatus) : string :=
  match s with
  | Pending => "Pending"
  | Attending => "Attending"
  | NotAttending => "Not Attending"
  | Maybe => "Maybe"
  end.

(** A bound parameter: what [better-sqlite3] hands to SQLite. *)
Inductive Bound :=
| BNull
| BNumber (n : Js.Number)
| BText (s : string).

(** A REAL that goes into a column of TEXT affinity is stored as the
    text SQLite's [printf] gives it with the format [%!.15g]: fifteen
    significant digits, rounded half up, the trailing zeros dropped but
    for one digit after the point, and an exponent of two digits at
    least when the decimal exponent is below -4 or above 14: ['5.0'] for
    5. The digits here are those of the exact value; SQLite computes
    them in floating point, and for numbers far from 1 its last digit
    can differ with the version of the library. *)
Definition decimal (z : Z) : string :=
  NilZero.string_of_uint (N.to_uint (Z.to_N z)).

(** The decimal exponent of a positive [a / b]: the [e] with
    [10 ^ e <= a / b < 10 ^ (e + 1)]. *)
Fixpoint exponent_from (fuel : nat) (a b e : Z) : Z :=
  match fuel with
  | O => e
  | S fuel' =>
      if a <? b then exponent_from fuel' (10 * a) b (e - 1)
      else if 10 * b <=? a then exponent_from fuel' a (10 * b) (e + 1)
      else e
  end.

Definition exponent10 (a b : Z) : Z :=
  exponent_from (Z.to_nat (Z.log2 a + Z.log2 b) + 1) a b 0.

Fixpoint strip_zeros (s : string) : string :=
  match s with
  | EmptyString => EmptyString
  | String c rest =>
      match strip_zeros rest with
      | EmptyString => if (c =? "0")%char then EmptyString else String c EmptyString
      | kept => String c kept
      end
  end.

(** The digits after the point: without trailing zeros, one at least. *)
Definition fraction (s : string) : string :=
  match strip_zeros s with
  | EmptyString => "0"
  | kept => kept
  end.

Fixpoint zeros (n : nat) : string :=
  match n with
  | O => EmptyString
  | S n' => String "0" (zeros n')
  end.

Definition exponent_text (e : Z) : string :=
  (if e <? 0 then "-" else "+")
  ++ (if Z.abs e <? 10 then "0" else "") ++ decimal (Z.abs e).

(** [%!.15g] of the positive [a / b]. *)
Definition real_text_positive (a b : Z) : string :=
  let e := exponent10 a b in
  let scaled := if 14 <=? e then (a, b * 10 ^ (e - 14)) else (a * 10 ^ (14 - e), b) in
  let m := (2 * fst scaled + snd scaled) / (2 * snd scaled) in
  let rounded := if 10 ^ 15 <=? m then (10 ^ 14, e + 1) else (m, e) in
  let digits := decimal (fst rounded) in
  let e' := snd rounded in
  if (e' <? -4) || (14 <? e') then
    substring 0 1 digits ++ "." ++ fraction (substring 1 14 digits) ++ "e"
    ++ exponent_text e'
  else if 0 <=? e' then
    substring 0 (Z.to_nat (e' + 1)) digits ++ "."
    ++ fraction (substring (Z.to_nat (e' + 1)) (14 - Z.to_nat e') digits)
  else
    "0." ++ zeros (Z.to_nat (- e' - 1)) ++ fraction digits.

(** The text of a REAL; a NaN is bound as NULL and has none. *)
Definition real_text (n : Js.Number) : option string :=
  match n with
  | Js.NaN => None
  | Js.Infinity negative => Some (if negative then "-Inf" else "Inf")
  | Js.Finite q =>
      match Qnum q with
      | Z0 => Some "0.0"
      | Zpos a => Some (real_text_positive (Zpos a) (Zpos (Qden q)))
      | Zneg a => Some ("-" ++ real_text_positive (Zpos a) (Zpos (Qden q)))
      end
  end.

(** The value a column of TEXT affinity keeps of a bound value. *)
Definition text_affinity (b : Bound) : Bound :=
  match b with
  | BNumber n =>
      match real_text n with
      | Some t => BText t
      | None => BNull
      end
  | _ => b
  end.

(** A row of [events]. The schema is the one of init_and_alter_db.ts; the
    CREATE TABLE IF NOT EXISTS of server.ts names the same columns without
    the four counters, and does nothing once the table exists. The TEXT
    columns the schema leaves nullable are options; the counters and
    [created_at] are never written NULL: an INSERT leaves them to their
    defaults and an UPDATE adds or subtracts one. *)
Record Event := {
  id : Z;
  creatorEmail : string;
  eventName : string;
  description : option string;
  targetedAttendees : Z;
  eventDate : option string;
  eventStartTime : option string;
  eventEndTime : option string;
  eventDuration : option string;
  status : EventStatus;
  created_at : string;
  attendingCount : Z;
  notAttendingCount : Z;
  maybeCount : Z;
  pendingCount : Z
}.

(** A row of [eventAttendees] (schema of db_create_attendees.ts). *)
Record Attendee := {
  att_id : Z;
  eventId : Z;
  attendeeEmail : string;
  responseStatus : ResponseStatus;
  rsvpDate : string;
  notes : Bound;
  att_created_at : string
}.

(** The column names of the two CREATE TABLE statements. *)
Definition events_columns : list string :=
  ["id"; "creatorEmail"; "eventName"; "description"; "targetedAttendees";
   "eventDate"; "eventStartTime"; "eventEndTime"; "eventDuration"; "status";
   "created_at"; "attendingCount"; "notAttendingCount"; "maybeCount";
   "pendingCount"].

Definition eventAttendees_columns : list string :=
  ["id"; "eventId"; "attendeeEmail"; "responseStatus"; "rsvpDate"; "notes";
   "created_at"].

(** The value of a column of [events] in a row, for the statements that
    name their columns in a string. *)
Definition opt_text (o : option string) : Bound :=
  match o with Some s => BText s | None => BNull end.

Definition event_status_text (s : EventStatus) : string :=
  match s with
  | Created => "Created"
  | Published => "Published"
  | Archived => "Archived"
  | Cancelled => "Cancelled"
  end.

Definition events_column (col : string) (e : Event) : option Bound :=
  if String.eqb col "id" then Some (BNumber (Js.integer (id e)))
  else if String.eqb col "creatorEmail" then Some (BText (creatorEmail e))
  else if String.eqb col "eventName" then Some (BText (eventName e))
  else if String.eqb col "description" then Some (opt_text (description e))
  else if String.eqb col "targetedAttendees" then Some (BNumber (Js.integer (targetedAttendees e)))
  else if String.eqb col "eventDate" then Some (opt_text (eventDate e))
  else if String.eqb col "eventStartTime" then Some (opt_text (eventStartTime e))
  else if String.eqb col "eventEndTime" then Some (opt_text (eventEndTime e))
  else if String.eqb col "eventDuration" then Some (opt_text (eventDuration e))
  else if String.eqb col "status" then Some (BText (event_status_text (status e)))
  else if String.eqb col "created_at" then Some (BText (created_at e))
  else if String.eqb col "attendingCount" then Some (BNumber (Js.integer (attendingCount e)))
  else if String.eqb col "notAttendingCount" then Some (BNumber (Js.integer (notAttendingCount e)))
  else if String.eqb col "maybeCount" then Some (BNumber (Js.integer (maybeCount e)))
  else if String.eqb col "pendingCount" then Some (BNumber (Js.integer (pendingCount e)))
  else None.

(** The database file: the two tables in rowid order, and the largest
    rowid each AUTOINCREMENT key has handed out ([sqlite_sequence]). *)
Record Database := {
  events : list Event;
  eventAttendees : list Attendee;
  seq_events : Z;
  seq_eventAttendees : Z
}.

Definition with_eventAttendees (f : list Attendee -> list Attendee)
    (d : Database) : Database :=
  {| events := events d; eventAttendees := f (eventAttendees d);
     seq_events := seq_events d; seq_eventAttendees := seq_eventAttendees d |}.

Definition with_events (f : list Event -> list Event) (d : Database) : Database :=
  {| events := f (events d); eventAttendees := eventAttendees d;
     seq_events := seq_events d; seq_eventAttendees := seq_eventAttendees d |}.

(** The connection: the database as the connection sees it, and, while a
    transaction is open, the image ROLLBACK restores. *)
Record Connection := {
  store : Database;
  journal : option Database
}.

(** A connection between two requests. *)
Definition idle (d : Database) : Connection :=
  {| store := d; journal := None |}.

Inductive Error :=
| NoSuchColumn (c : string)
| UniqueFailed (cols : string)
| ForeignKeyFailed
| CheckFailed (table : string)
| BindTypeError
| DatatypeMismatch
| NestedTransaction
| NoTransaction (verb : string).

(** [error.message] *)
Definition message (e : Error) : string :=
  match e with
  | NoSuchColumn c => "no such column: " ++ c
  | UniqueFailed cols => "UNIQUE constraint failed: " ++ cols
  | ForeignKeyFailed => "FOREIGN KEY constraint failed"
  | CheckFailed table => "CHECK constraint failed: " ++ table
  | BindTypeError =>
      "SQLite3 can only bind numbers, strings, bigints, buffers, and null"
  | DatatypeMismatch => "datatype mismatch"
  | NestedTransaction => "cannot start a transaction within a transaction"
  | NoTransaction verb => "cannot " ++ verb ++ " - no transaction is active"
  end.

(** *** Statements: a state monad with exceptions

    A statement that throws leaves the connection as it found it; the
    statements before it keep their effect until a ROLLBACK. *)

Definition Sql (A : Type) : Type := Connection -> (Error + A) * Connection.

Definition ret {A} (a : A) : Sql A := fun c => (inr a, c).

Definition throw {A} (e : Error) : Sql A := fun c => (inl e, c).

Definition bind {A B} (m : Sql A) (k : A -> Sql B) : Sql B :=
  fun c =>
    match m c with
    | (inl e, c') => (inl e, c')
    | (inr a, c') => k a c'
    end.

Definition lift {A} (r : Error + A) : Sql A := fun c => (r, c).

Definition read {A} (f : Database -> A) : Sql A := fun c => (inr (f (store c)), c).

Definition write (f : Database -> Database) : Sql unit :=
  fun c => (inr tt, {| store := f (store c); journal := journal c |}).

Declare Scope sql_scope.
Delimit Scope sql_scope with sql.
Notation "x <- m ;; k" := (bind m (fun x => k))
  (at level 61, m at next level, right associativity) : sql_scope.
Notation "m ;; k" := (bind m (fun _ => k))
  (at level 61, right associativity) : sql_scope.

Local Open Scope sql_scope.

(** [db.exec('BEGIN TRANSACTION;')] *)
Definition exec_begin : Sql unit :=
  fun c =>
    match journal c with
    | Some _ => (inl NestedTransaction, c)
    | None => (inr tt, {| store := store c; journal := Some (store c) |})
    end.

(** [db.exec('COMMIT;')] *)
Definition exec_commit : Sql unit :=
  fun c =>
    match journal c with
    | Some _ => (inr tt, {| store := store c; journal := None |})
    | None => (inl (NoTransaction "commit"), c)
    end.

(** [db.exec('ROLLBACK;')] *)
Definition exec_rollback : Sql unit :=
  fun c =>
    match journal c with
    | Some d => (inr tt, {| store := d; journal := None |})
    | None => (inl (NoTransaction "rollback"), c)
    end.

(** [db.prepare(sql)] compiles the statement, and throws when it names a
    column its table does not have. *)
Definition prepare (table_columns referenced : list string) : Sql unit :=
  match find (fun c => negb (existsb (String.eqb c) table_columns)) referenced with
  | Some c => throw (NoSuchColumn c)
  | None => ret tt
  end.

(** Binding a JavaScript argument: [null] and [undefined] are bound as
    NULL, numbers as REAL, strings as TEXT; a boolean is refused. *)
Definition bind_value (v : Js.Value) : Error + Bound :=
  match v with
  | Js.Undefined | Js.Null => inr BNull
  | Js.Num n => inr (BNumber n)
  | Js.Str s => inr (BText s)
  | Js.Boolean _ => inl BindTypeError
  end.

(** A bound value compared with, or stored in, an INTEGER column: the
    integer it is, if it is one. A number that is no integer, a text and
    NULL equal no key. *)
Definition bound_integer (b : Bound) : option Z :=
  match b with BNumber n => Js.as_integer n | _ => None end.

(** A bound value compared with the TEXT column [attendeeEmail], or
    stored in a TEXT column: the text it is. (SQLite would turn a number
    into its text; the handlers bind only strings and NULL there.) *)
Definition bound_text (b : Bound) : option string :=
  match b with BText s => Some s | _ => None end.

Definition key_matches (k : option Z) (z : Z) : bool :=
  match k with Some k => z =? k | None => false end.

Definition text_matches (t : option string) (s : string) : bool :=
  match t with Some t => (s =? t)%string | None => false end.

(** The CHECK constraint of [eventAttendees.responseStatus]. *)
Definition check_responseStatus (b : Bound) : option ResponseStatus :=
  match b with
  | BText s =>
      if (s =? "Pending")%string then Some Pending
      else if (s =? "Attending")%string then Some Attending
      else if (s =? "Not Attending")%string then Some NotAttending
      else if (s =? "Maybe")%string then Some Maybe
      else None
  | _ => None
  end.

Definition attendee_matches (k : option Z) (t : option string) (a : Attendee) : bool :=
  key_matches k (eventId a) && text_matches t (attendeeEmail a).

Definition event_matches (k : option Z) (e : Event) : bool :=
  key_matches k (id e).

Fixpoint max_rowid {A} (rowid : A -> Z) (rows : list A) : Z :=
  match rows with
  | [] => 0
  | r :: rest => Z.max (rowid r) (max_rowid rowid rest)
  end.

(** The key AUTOINCREMENT gives the next row: one more than the largest
    the table has ever held. *)
Definition next_rowid {A} (rowid : A -> Z) (rows : list A) (seq : Z) : Z :=
  Z.max seq (max_rowid rowid rows) + 1.

End Sqlite.

(** ** The responses *)

Module Http.

(** The JSON (or text) a handler sends. *)
Inductive Body :=
| ErrorBody (error : string) (details : option string)
| EventNotFound (eventId : Js.Number)
    (* { error: `Event with ID ${eventId} not found.` } *)
| MessageBody (message : string)
| CreatedBody (message : string) (eventId changes : Z)
| SuccessBody (message : string)      (* { success: true, message } *)
| TextBody (text : string)            (* res.send(text) *)
| EventBody (event : Sqlite.Event)
| RowsBody (rows : list (list (string * Sqlite.Bound)))
| Uncaught (e : Sqlite.Error).        (* Express's own error handler *)

Record Response := {
  code : Z;
  body : Body
}.

Definition respond (code : Z) (body : Body) : Sqlite.Sql Response :=
  Sqlite.ret {| code := code; body := body |}.

(** [try { body } catch (error) { handler }] *)
Definition try_catch {A} (body : Sqlite.Sql A) (handler : Sqlite.Error -> Sqlite.Sql A)
  : Sqlite.Sql A :=
  fun c =>
    match body c with
    | (inl e, c') => handler e c'
    | (inr a, c') => (inr a, c')
    end.

(** A route handler run on a connection; an exception that leaves the
    handler is answered by Express with status 500. *)
Definition serve (handler : Sqlite.Sql Response) (c : Sqlite.Connection)
  : Response * Sqlite.Connection :=
  match handler c with
  | (inr r, c') => (r, c')
  | (inl e, c') => ({| code := 500; body := Uncaught e |}, c')
  end.

End Http.

(** ** routes/attendees.ts *)

Module Attendees.

Import Sqlite Http.
Local Open Scope sql_scope.

(** [req.body] of POST /api/events/:eventId/attendees. *)
Record CreateAttendeeRequestBody := {
  attendeeEmail : Js.Value;
  responseStatus : Js.Value;
  notes : Js.Value
}.

Definition allowedStatuses : list string :=
  ["Pending"; "Attending"; "Not Attending"; "Maybe"].

(** [/^[^\s@]+@[^\s@]+\.[^\s@]+$/] *)
Definition email_format : Js.Regex :=
  let not_space_at := Js.Class (fun a => negb (Js.white_space a || Js.chr "@" a)) in
  Js.Cat (Js.Plus not_space_at)
    (Js.Cat (Js.Class (Js.chr "@"))
       (Js.Cat (Js.Plus not_space_at)
          (Js.Cat (Js.Class (Js.chr ".")) (Js.Plus not_space_at)))).

(** [SELECT responseStatus FROM eventAttendees
     WHERE eventId = ? AND attendeeEmail = ?], [.get]: the first row. *)
Definition select_responseStatus (eventId attendeeEmail : Js.Value)
  : Sql (option ResponseStatus) :=
  prepare eventAttendees_columns ["responseStatus"; "eventId"; "attendeeEmail"] ;;
  k <- lift (bind_value eventId) ;;
  t <- lift (bind_value attendeeEmail) ;;
  read (fun d =>
          option_map Sqlite.responseStatus
            (find (attendee_matches (bound_integer k) (bound_text t))
               (eventAttendees d))).

(** The SET clause of the UPDATE below on one row; [notes] is a column
    of TEXT affinity. *)
Definition set_response (s : ResponseStatus) (n : Bound) (now : string)
    (a : Attendee) : Attendee :=
  {| att_id := att_id a; eventId := eventId a;
     Sqlite.attendeeEmail := Sqlite.attendeeEmail a;
     Sqlite.responseStatus := s; rsvpDate := now;
     Sqlite.notes := text_affinity n;
     att_created_at := att_created_at a |}.

(** [UPDATE eventAttendees
     SET responseStatus = ?, notes = ?, rsvpDate = CURRENT_TIMESTAMP
     WHERE eventId = ? AND attendeeEmail = ?]. The CHECK constraint is
    evaluated on the rows the statement changes. *)
Definition update_eventAttendees (status notes' eventId attendeeEmail : Js.Value)
    (now : string) : Sql unit :=
  prepare eventAttendees_columns
    ["responseStatus"; "notes"; "rsvpDate"; "eventId"; "attendeeEmail"] ;;
  s <- lift (bind_value status) ;;
  n <- lift (bind_value notes') ;;
  k <- lift (bind_value eventId) ;;
  t <- lift (bind_value attendeeEmail) ;;
  let hit := attendee_matches (bound_integer k) (bound_text t) in
  rows <- read eventAttendees ;;
  if existsb hit rows then
    match check_responseStatus s with
    | None => throw (CheckFailed "eventAttendees")
    | Some s' =>
        write (with_eventAttendees
                 (map (fun a => if hit a then set_response s' n now a else a)))
    end
  else ret tt.

Definition add_attendingCount (delta : Z) (e : Event) : Event :=
  {| id := id e; creatorEmail := creatorEmail e; eventName := eventName e;
     description := description e; targetedAttendees := targetedAttendees e;
     eventDate := eventDate e; eventStartTime := eventStartTime e;
     eventEndTime := eventEndTime e; eventDuration := eventDuration e;
     status := status e; created_at := created_at e;
     attendingCount := attendingCount e + delta;
     notAttendingCount := notAttendingCount e;
     maybeCount := maybeCount e; pendingCount := pendingCount e |}.

Definition add_notAttendingCount (delta : Z) (e : Event) : Event :=
  {| id := id e; creatorEmail := creatorEmail e; eventName := eventName e;
     description := description e; targetedAttendees := targetedAttendees e;
     eventDate := eventDate e; eventStartTime := eventStartTime e;
     eventEndTime := eventEndTime e; eventDuration := eventDuration e;
     status := status e; created_at := created_at e;
     attendingCount := attendingCount e;
     notAttendingCount := notAttendingCount e + delta;
     maybeCount := maybeCount e; pendingCount := pendingCount e |}.

Definition add_maybeCount (delta : Z) (e : Event) : Event :=
  {| id := id e; creatorEmail := creatorEmail e; eventName := eventName e;
     description := description e; targetedAttendees := targetedAttendees e;
     eventDate := eventDate e; eventStartTime := eventStartTime e;
     eventEndTime := eventEndTime e; eventDuration := eventDuration e;
     status := status e; created_at := created_at e;
     attendingCount := attendingCount e;
     notAttendingCount := notAttendingCount e;
     maybeCount := maybeCount e + delta; pendingCount := pendingCount e |}.

Definition add_pendingCount (delta : Z) (e : Event) : Event :=
  {| id := id e; creatorEmail := creatorEmail e; eventName := eventName e;
     description := description e; targetedAttendees := targetedAttendees e;
     eventDate := eventDate e; eventStartTime := eventStartTime e;
     eventEndTime := eventEndTime e; eventDuration := eventDuration e;
     status := status e; created_at := created_at e;
     attendingCount := attendingCount e;
     notAttendingCount := notAttendingCount e;
     maybeCount := maybeCount e; pendingCount := pendingCount e + delta |}.

(** [UPDATE events SET col = col + delta WHERE id = ?], [col] one of the
    four counters and [add] its effect on a row. *)
Definition update_events_counter (col : string) (add : Event -> Event)
    (eventId : Js.Value) : Sql unit :=
  prepare events_columns [col; "id"] ;;
  k <- lift (bind_value eventId) ;;
  write (with_events
           (map (fun e => if event_matches (bound_integer k) e then add e else e))).

(** The chain
    [if (s === 'Attending') ... else if (s === 'Not Attending') ...
     else if (s === 'Maybe') ... else if (s === 'Pending') ...]
    that the handler writes three times: once with [- 1] on the old
    status, twice with [+ 1] on the new one. It has no final [else]. *)
Definition adjust_counter (s : Js.Value) (delta : Z) (eventId : Js.Value) : Sql unit :=
  if Js.strict_eq_string s "Attending" then
    update_events_counter "attendingCount" (add_attendingCount delta) eventId
  else if Js.strict_eq_string s "Not Attending" then
    update_events_counter "notAttendingCount" (add_notAttendingCount delta) eventId
  else if Js.strict_eq_string s "Maybe" then
    update_events_counter "maybeCount" (add_maybeCount delta) eventId
  else if Js.strict_eq_string s "Pending" then
    update_events_counter "pendingCount" (add_pendingCount delta) eventId
  else ret tt.

(** [SELECT id FROM events WHERE id = ?], [.get]. *)
Definition select_event_id (eventId : Js.Value) : Sql (option Z) :=
  prepare events_columns ["id"] ;;
  k <- lift (bind_value eventId) ;;
  read (fun d => option_map id (find (event_matches (bound_integer k)) (events d))).

(** [INSERT INTO eventAttendees (eventId, attendeeEmail, responseStatus, notes)
     VALUES (?, ?, ?, ?)]: [id], [rsvpDate] and [created_at] take their
    defaults. The constraints of the table are checked in the order
    CHECK, UNIQUE, FOREIGN KEY. The handler binds a string to
    [attendeeEmail]; the model refuses anything else as a mismatch. *)
Definition insert_eventAttendees (eventId attendeeEmail status notes' : Js.Value)
    (now : string) : Sql unit :=
  prepare eventAttendees_columns
    ["eventId"; "attendeeEmail"; "responseStatus"; "notes"] ;;
  k <- lift (bind_value eventId) ;;
  t <- lift (bind_value attendeeEmail) ;;
  s <- lift (bind_value status) ;;
  n <- lift (bind_value notes') ;;
  d <- read (fun d => d) ;;
  match bound_text t, check_responseStatus s with
  | None, _ => throw DatatypeMismatch
  | _, None => throw (CheckFailed "eventAttendees")
  | Some email, Some s' =>
      if existsb (attendee_matches (bound_integer k) (Some email)) (eventAttendees d)
      then throw (UniqueFailed "eventAttendees.eventId, eventAttendees.attendeeEmail")
      else
        match bound_integer k with
        | None => throw ForeignKeyFailed
        | Some e =>
            if existsb (event_matches (Some e)) (events d) then
              let rowid := next_rowid att_id (eventAttendees d) (seq_eventAttendees d) in
              write (fun d =>
                       {| events := events d;
                          eventAttendees :=
                            eventAttendees d ++
                              [{| att_id := rowid; eventId := e;
                                  Sqlite.attendeeEmail := email;
                                  Sqlite.responseStatus := s';
                                  rsvpDate := now;
                                  Sqlite.notes := text_affinity n;
                                  att_created_at := now |}];
                          seq_events := seq_events d;
                          seq_eventAttendees := rowid |})
            else throw ForeignKeyFailed
        end
  end.

(** The transaction of POST /api/events/:eventId/attendees: the body of
    the handler's [try]. *)
Definition upsert (eventId : Js.Number)
    (attendeeEmail finalResponseStatus notes' : Js.Value) (now : string)
  : Sql Response :=
  let eventId' := Js.Num eventId in
  exec_begin ;;
  existingAttendee <- select_responseStatus eventId' attendeeEmail ;;
  match existingAttendee with
  | Some oldResponseStatus =>
      update_eventAttendees finalResponseStatus (Js.or notes' Js.Null)
        eventId' attendeeEmail now ;;
      adjust_counter (Js.Str (status_text oldResponseStatus)) (-1) eventId' ;;
      adjust_counter finalResponseStatus 1 eventId' ;;
      exec_commit ;;
      respond 200 (MessageBody "Attendee response updated successfully!")
  | None =>
      eventExists <- select_event_id eventId' ;;
      match eventExists with
      | None =>
          exec_rollback ;;
          respond 404 (EventNotFound eventId)
      | Some _ =>
          insert_eventAttendees eventId' attendeeEmail finalResponseStatus
            (Js.or notes' Js.Null) now ;;
          adjust_counter finalResponseStatus 1 eventId' ;;
          exec_commit ;;
          respond 201 (MessageBody "Attendee response recorded successfully!")
      end
  end.

(** The handler's [catch]. *)
Definition upsert_failed (error : Error) : Sql Response :=
  exec_rollback ;;
  if Js.string_includes
       "UNIQUE constraint failed: eventAttendees.eventId, eventAttendees.attendeeEmail"
       (message error)
  then respond 409 (ErrorBody "This attendee has already responded for this event." None)
  else respond 500
         (ErrorBody "Failed to record/update attendee response." (Some (message error))).

(** POST /api/events/:eventId/attendees, the spec's [submitResponse].
    [eventId] is the number [parseInt(req.params.eventId)] returned, [now]
    the value of CURRENT_TIMESTAMP. *)
Definition submitResponse (eventId : Js.Number) (req_body : CreateAttendeeRequestBody)
    (now : string) : Sql Response :=
  let attendeeEmail := attendeeEmail req_body in
  let responseStatus := responseStatus req_body in
  let notes := notes req_body in
  if Js.isNaN eventId || Js.le0 eventId then
    respond 400 (ErrorBody "Invalid Event ID provided." None)
  else if negb (Js.truthy attendeeEmail) then
    respond 400 (ErrorBody "Attendee email is required." None)
  else if negb (Js.test_with_at email_format attendeeEmail) then
    respond 400 (ErrorBody "Invalid email format." None)
  else if Js.truthy responseStatus && negb (Js.includes allowedStatuses responseStatus) then
    respond 400
      (ErrorBody ("Invalid response status. Must be one of: "
                  ++ Js.join ", " allowedStatuses) None)
  else
    let finalResponseStatus := Js.or responseStatus (Js.Str "Pending") in
    try_catch
      (upsert eventId attendeeEmail finalResponseStatus notes now)
      upsert_failed.

(** [ORDER BY created_at DESC]: a stable insertion sort on the text of
    the time stamps. *)
Fixpoint insert_newest_first (e : Event) (sorted : list Event) : list Event :=
  match sorted with
  | [] => [e]
  | x :: rest =>
      if String.ltb (created_at x) (created_at e) then e :: sorted
      else x :: insert_newest_first e rest
  end.

Definition order_by_created_at_desc (rows : list Event) : list Event :=
  fold_right insert_newest_first [] rows.

(** The columns the SELECT of GET /api/events-with-rsvp-counts names. *)
Definition counts_columns : list string :=
  ["id"; "creatorEmail"; "eventName"; "description"; "targetedAttendees";
   "eventDate"; "eventTime"; "created_at"; "attendingCount";
   "notAttendingCount"; "maybeCount"; "pendingCount"].

(** One result row: the named columns, then
    [(attendingCount + notAttendingCount + maybeCount + pendingCount)
     AS totalRsvps]. *)
Definition counts_row (e : Event) : list (string * Bound) :=
  flat_map (fun col => match events_column col e with
                       | Some v => [(col, v)]
                       | None => []
                       end) counts_columns
  ++ [("totalRsvps",
       BNumber (Js.integer (attendingCount e + notAttendingCount e
                            + maybeCount e + pendingCount e)))].

Definition select_events_with_counts : Sql (list (list (string * Bound))) :=
  prepare events_columns counts_columns ;;
  read (fun d => map counts_row (order_by_created_at_desc (events d))).

(** GET /api/events-with-rsvp-counts, the spec's [listEventsWithCounts]. *)
Definition listEventsWithCounts : Sql Response :=
  try_catch
    (eventsWithCounts <- select_events_with_counts ;;
     respond 200 (RowsBody eventsWithCounts))
    (fun error =>
       respond 500
         (ErrorBody "Failed to retrieve event RSVP statistics."
            (Some (message error)))).

End Attendees.

(** ** server.ts *)

Module Server.

Import Sqlite Http.
Local Open Scope sql_scope.

(** [req.body] of POST /api/create-event. *)
Record CreateEventRequestBody := {
  creatorEmail : Js.Value;
  eventName : Js.Value;
  description : Js.Value;
  targetedAttendees : Js.Value;
  eventDate : Js.Value;
  eventStartTime : Js.Value;
  eventEndTime : Js.Value
}.

Definition is_undefined (v : Js.Value) : bool :=
  match v with Js.Undefined => true | _ => false end.

(** [typeof v !== "number" || v <= 0 || !Number.isInteger(v)]: the two
    tests on the right run on numbers only. *)
Definition not_positive_integer (v : Js.Value) : bool :=
  match v with
  | Js.Num n => Js.le0 n || negb (Js.isInteger n)
  | _ => true
  end.

(** [INSERT INTO events (creatorEmail, eventName, description,
     targetedAttendees, eventDate, eventStartTime, eventEndTime)
     VALUES (?, ?, ?, ?, ?, ?, ?)]; the other columns take their
    defaults. It returns [info.lastInsertRowid] and [info.changes]. The
    handler binds strings to the text columns and an integral number to
    [targetedAttendees]; the model refuses anything else in the two
    NOT NULL text columns and in [targetedAttendees] as a mismatch. *)
Definition insert_events (body : CreateEventRequestBody) (now : string)
  : Sql (Z * Z) :=
  prepare events_columns
    ["creatorEmail"; "eventName"; "description"; "targetedAttendees";
     "eventDate"; "eventStartTime"; "eventEndTime"] ;;
  b1 <- lift (bind_value (creatorEmail body)) ;;
  b2 <- lift (bind_value (eventName body)) ;;
  b3 <- lift (bind_value (description body)) ;;
  b4 <- lift (bind_value (targetedAttendees body)) ;;
  b5 <- lift (bind_value (eventDate body)) ;;
  b6 <- lift (bind_value (eventStartTime body)) ;;
  b7 <- lift (bind_value (eventEndTime body)) ;;
  d <- read (fun d => d) ;;
  match bound_text b1, bound_text b2, bound_integer b4 with
  | Some creator, Some name, Some targeted =>
      let rowid := next_rowid id (events d) (seq_events d) in
      write (fun d =>
               {| events :=
                    events d ++
                      [{| id := rowid;
                          Sqlite.creatorEmail := creator;
                          Sqlite.eventName := name;
                          Sqlite.description := bound_text b3;
                          Sqlite.targetedAttendees := targeted;
                          Sqlite.eventDate := bound_text b5;
                          Sqlite.eventStartTime := bound_text b6;
                          Sqlite.eventEndTime := bound_text b7;
                          eventDuration := None;
                          status := Created;
                          created_at := now;
                          attendingCount := 0;
                          notAttendingCount := 0;
                          maybeCount := 0;
                          pendingCount := 0 |}];
                  eventAttendees := eventAttendees d;
                  seq_events := rowid;
                  seq_eventAttendees := seq_eventAttendees d |}) ;;
      ret (rowid, 1)
  | _, _, _ => throw DatatypeMismatch
  end.

(** POST /api/create-event, the spec's [createEvent]. *)
Definition createEvent (body : CreateEventRequestBody) (now : string)
  : Sql Response :=
  if negb (Js.truthy (creatorEmail body))
     || negb (Js.truthy (eventName body))
     || negb (Js.truthy (description body))
     || is_undefined (targetedAttendees body)
     || negb (Js.truthy (eventDate body))
     || negb (Js.truthy (eventStartTime body))
     || negb (Js.truthy (eventEndTime body))
  then
    respond 400
      (ErrorBody "Missing required event fields. All fields are mandatory." None)
  else if negb (Js.is_string (creatorEmail body))
          || negb (Js.is_string (eventName body))
          || negb (Js.is_string (description body))
          || negb (Js.is_string (eventDate body))
          || negb (Js.is_string (eventStartTime body))
          || negb (Js.is_string (eventEndTime body))
  then
    respond 400
      (ErrorBody "Invalid data types for one or more string fields." None)
  else if not_positive_integer (targetedAttendees body) then
    respond 400
      (ErrorBody "Targeted Attendees must be a positive integer." None)
  else
    try_catch
      (info <- insert_events body now ;;
       respond 201 (CreatedBody "Event created successfully!" (fst info) (snd info)))
      (fun error =>
         respond 500
           (ErrorBody "Failed to save event to database." (Some (message error)))).

Definition set_status (s : EventStatus) (e : Event) : Event :=
  {| id := id e; Sqlite.creatorEmail := Sqlite.creatorEmail e;
     Sqlite.eventName := Sqlite.eventName e;
     Sqlite.description := Sqlite.description e;
     Sqlite.targetedAttendees := Sqlite.targetedAttendees e;
     Sqlite.eventDate := Sqlite.eventDate e;
     Sqlite.eventStartTime := Sqlite.eventStartTime e;
     Sqlite.eventEndTime := Sqlite.eventEndTime e;
     eventDuration := eventDuration e;
     status := s; created_at := created_at e;
     attendingCount := attendingCount e;
     notAttendingCount := notAttendingCount e;
     maybeCount := maybeCount e; pendingCount := pendingCount e |}.

(** The [:id] segment of a path reaches SQLite as TEXT; compared with the
    INTEGER PRIMARY KEY it is read as a number (NUMERIC affinity). A
    [PathId] is the integer it is read as, [None] when it is none: a
    segment that is no integer matches no row. *)
Definition PathId : Type := option Z.

(** [UPDATE events SET status = ? WHERE id = ?]; it returns
    [info.changes], the number of rows it matched. *)
Definition update_events_status (s : EventStatus) (eventId : PathId) : Sql Z :=
  prepare events_columns ["status"; "id"] ;;
  rows <- read events ;;
  write (with_events
           (map (fun e => if event_matches eventId e then set_status s e else e))) ;;
  ret (Z.of_nat (List.length (filter (event_matches eventId) rows))).

(** PUT /api/events/:id/publish *)
Definition publish (eventId : PathId) : Sql Response :=
  try_catch
    (changes <- update_events_status Published eventId ;;
     if changes =? 0 then respond 404 (TextBody "Event not found")
     else respond 200 (SuccessBody "Event published"))
    (fun err => respond 500 (TextBody "Server error")).

(** PUT /api/events/:id/cancel *)
Definition cancel (eventId : PathId) : Sql Response :=
  try_catch
    (changes <- update_events_status Cancelled eventId ;;
     if changes =? 0 then respond 404 (TextBody "Event not found")
     else respond 200 (SuccessBody "Event cancelled"))
    (fun err => respond 500 (TextBody "Server error")).

(** [SELECT * FROM events WHERE id = ?], [.get]. *)
Definition select_event (eventId : PathId) : Sql (option Event) :=
  prepare events_columns [] ;;
  read (fun d => find (event_matches eventId) (events d)).

(** GET /api/events/:id, the spec's [getEvent]. *)
Definition getEvent (eventId : PathId) : Sql Response :=
  try_catch
    (event <- select_event eventId ;;
     match event with
     | None => respond 404 (ErrorBody "Event not found" None)
     | Some event => respond 200 (EventBody event)
     end)
    (fun err => respond 500 (ErrorBody "Failed to fetch event" (Some (message err)))).

End Server.

(** ** What the claims speak of *)

Module Rsvp.

Import Sqlite Http.

(** [attendingCount + notAttendingCount + maybeCount + pendingCount] *)
Definition counter_sum (e : Event) : Z :=
  attendingCount e + notAttendingCount e + maybeCount e + pendingCount e.

(** The rows of [eventAttendees] of one event, and of one pair. *)
Definition rsvps_of_event (d : Database) (k : Z) : list Attendee :=
  filter (fun a => eventId a =? k) (eventAttendees d).

Definition rsvps_of_pair (d : Database) (k : Z) (email : string) : list Attendee :=
  filter (attendee_matches (Some k) (Some email)) (eventAttendees d).

Definition rsvp_count (d : Database) (k : Z) : Z :=
  Z.of_nat (List.length (rsvps_of_event d k)).

(** The count-consistency invariant. *)
Definition count_consistent (d : Database) : Prop :=
  forall e, In e (events d) -> counter_sum e = rsvp_count d (id e).

(** The uniqueness invariant: UNIQUE (eventId, attendeeEmail). *)
Definition rsvp_key (a : Attendee) : Z * string := (eventId a, attendeeEmail a).

Definition unique_rsvp (d : Database) : Prop :=
  NoDup (map rsvp_key (eventAttendees d)).

(** The counter of a status. *)
Definition counter (s : ResponseStatus) (e : Event) : Z :=
  match s with
  | Attending => attendingCount e
  | NotAttending => notAttendingCount e
  | Maybe => maybeCount e
  | Pending => pendingCount e
  end.

Definition add_counter (s : ResponseStatus) (delta : Z) (e : Event) : Event :=
  match s with
  | Attending => Attendees.add_attendingCount delta e
  | NotAttending => Attendees.add_notAttendingCount delta e
  | Maybe => Attendees.add_maybeCount delta e
  | Pending => Attendees.add_pendingCount delta e
  end.

(** The four counters of a row. *)
Definition counters (e : Event) : Z * Z * Z * Z :=
  (attendingCount e, notAttendingCount e, maybeCount e, pendingCount e).

(** The event with a key, the row of a pair. *)
Definition event_of (d : Database) (k : Z) : option Event :=
  find (event_matches (Some k)) (events d).

Definition rsvp_of (d : Database) (k : Z) (email : string) : option Attendee :=
  find (attendee_matches (Some k) (Some email)) (eventAttendees d).

(** A handler run between two requests: its response, and the database it
    leaves. *)
Definition response (h : Sql Response) (d : Database) : Response :=
  fst (serve h (idle d)).

Definition after (h : Sql Response) (d : Database) : Database :=
  store (snd (serve h (idle d))).

(** A sequence of RSVP submissions served one after the other. *)
Record Submission := {
  to_event : Js.Number;
  form : Attendees.CreateAttendeeRequestBody;
  at_time : string
}.

Definition submit (s : Submission) : Sql Response :=
  Attendees.submitResponse (to_event s) (form s) (at_time s).

Fixpoint submit_all (l : list Submission) (d : Database) : Database :=
  match l with
  | [] => d
  | s :: rest => submit_all rest (after (submit s) d)
  end.

(** The database an UPDATE of the handler's first branch leaves, and the
    one an INSERT of its second branch leaves. *)
Definition bump (s : ResponseStatus) (delta : Z) (k : option Z)
    (rows : list Event) : list Event :=
  map (fun e => if event_matches k e then add_counter s delta e else e) rows.

Definition updated (k : option Z) (email : string) (old new : ResponseStatus)
    (n : Bound) (now : string) (d : Database) : Database :=
  {| events := bump new 1 k (bump old (-1) k (events d));
     eventAttendees :=
       map (fun a => if attendee_matches k (Some email) a
                     then Attendees.set_response new n now a else a)
         (eventAttendees d);
     seq_events := seq_events d;
     seq_eventAttendees := seq_eventAttendees d |}.

Definition inserted (k : Z) (email : string) (new : ResponseStatus)
    (n : Bound) (now : string) (d : Database) : Database :=
  let rowid := next_rowid att_id (eventAttendees d) (seq_eventAttendees d) in
  {| events := bump new 1 (Some k) (events d);
     eventAttendees :=
       eventAttendees d ++
         [{| att_id := rowid; eventId := k; attendeeEmail := email;
             responseStatus := new; rsvpDate := now; notes := text_affinity n;
             att_created_at := now |}];
     seq_events := seq_events d;
     seq_eventAttendees := rowid |}.

(** The three answers of the transaction that write nothing or end it, and
    the two that commit. *)
Definition bind_failure : Response :=
  {| code := 500;
     body := ErrorBody "Failed to record/update attendee response."
               (Some (message BindTypeError)) |}.

Definition event_not_found (eventId : Js.Number) : Response :=
  {| code := 404; body := EventNotFound eventId |}.

Definition response_updated : Response :=
  {| code := 200; body := MessageBody "Attendee response updated successfully!" |}.

Definition response_recorded : Response :=
  {| code := 201; body := MessageBody "Attendee response recorded successfully!" |}.

(** The requests the validation of POST /api/events/:eventId/attendees
    lets through. *)
Definition passes_validation (eventId : Js.Number)
    (body : Attendees.CreateAttendeeRequestBody) : bool :=
  negb (Js.isNaN eventId || Js.le0 eventId)
  && Js.truthy (Attendees.attendeeEmail body)
  && Js.test_with_at Attendees.email_format (Attendees.attendeeEmail body)
  && negb (Js.truthy (Attendees.responseStatus body)
           && negb (Js.includes Attendees.allowedStatuses (Attendees.responseStatus body))).

(** The status the handler writes: [responseStatus || 'Pending'], read as
    the column's CHECK constraint reads it. *)
Definition finalResponseStatus (body : Attendees.CreateAttendeeRequestBody) : Js.Value :=
  Js.or (Attendees.responseStatus body) (Js.Str "Pending").

Definition resolved_status (body : Attendees.CreateAttendeeRequestBody)
  : option ResponseStatus :=
  match bind_value (finalResponseStatus body) with
  | inr b => check_responseStatus b
  | inl _ => None
  end.

(** The note the handler binds: [notes || null]. *)
Definition bound_notes (body : Attendees.CreateAttendeeRequestBody) : Error + Bound :=
  bind_value (Js.or (Attendees.notes body) Js.Null).

(** What the column [notes] holds of the note of a request: NULL when the
    request has none or a falsy one, the string itself when it is a
    string, and a text, never the number, when it is a number. *)
Definition stores_note (body : Attendees.CreateAttendeeRequestBody) (stored : Bound)
  : Prop :=
  (Js.truthy (Attendees.notes body) = false -> stored = BNull)
  /\ (forall t, Attendees.notes body = Js.Str t -> t <> "" -> stored = BText t)
  /\ (forall n, Attendees.notes body = Js.Num n -> Js.truthy (Js.Num n) = true ->
                exists t, stored = BText t).

(** No row of [eventAttendees] for the pair of a request, no row of
    [events] for its event. *)
Definition no_rsvp_for (d : Database) (eventId : Js.Number) (email : Js.Value) : Prop :=
  forall a, In a (eventAttendees d) ->
            ~ (Js.as_integer eventId = Some (Sqlite.eventId a)
               /\ email = Js.Str (attendeeEmail a)).

Definition no_event_for (d : Database) (eventId : Js.Number) : Prop :=
  forall e, In e (events d) -> Js.as_integer eventId <> Some (id e).

(** The request with its [responseStatus] left out. *)
Definition unspecified (body : Attendees.CreateAttendeeRequestBody)
  : Attendees.CreateAttendeeRequestBody :=
  {| Attendees.attendeeEmail := Attendees.attendeeEmail body;
     Attendees.responseStatus := Js.Undefined;
     Attendees.notes := Attendees.notes body |}.

(** The request with another note. *)
Definition with_notes (body : Attendees.CreateAttendeeRequestBody) (n : Js.Value)
  : Attendees.CreateAttendeeRequestBody :=
  {| Attendees.attendeeEmail := Attendees.attendeeEmail body;
     Attendees.responseStatus := Attendees.responseStatus body;
     Attendees.notes := n |}.

(** The answer to a status that is none of the four. *)
Definition invalid_status : Response :=
  {| code := 400;
     body := ErrorBody ("Invalid response status. Must be one of: "
                        ++ Js.join ", " Attendees.allowedStatuses) None |}.

(** A request that passes the validation and whose note can be bound. *)
Definition well_formed (eventId : Js.Number)
    (body : Attendees.CreateAttendeeRequestBody) : bool :=
  passes_validation eventId body
  && match bound_notes body with inr _ => true | inl _ => false end.

(** What one call of the handler can do to an idle connection: the
    response it sends and the database it leaves. *)
Inductive Outcome (n : Js.Number) (body : Attendees.CreateAttendeeRequestBody)
    (now : string) (d : Database) : Response -> Database -> Prop :=
| Invalid (error : string) :
    passes_validation n body = false ->
    Outcome n body now d {| code := 400; body := ErrorBody error None |} d
| Absent (email : string) :
    passes_validation n body = true ->
    Attendees.attendeeEmail body = Js.Str email ->
    find (attendee_matches (Js.as_integer n) (Some email)) (eventAttendees d) = None ->
    find (event_matches (Js.as_integer n)) (events d) = None ->
    Outcome n body now d (event_not_found n) d
| Unbound (e : Error) :
    passes_validation n body = true ->
    bound_notes body = inl e ->
    Outcome n body now d bind_failure d
| Recorded (k : Z) (email : string) (s : ResponseStatus) (b : Bound) (ev : Event) :
    passes_validation n body = true ->
    Js.as_integer n = Some k ->
    Attendees.attendeeEmail body = Js.Str email ->
    resolved_status body = Some s ->
    bound_notes body = inr b ->
    rsvp_of d k email = None ->
    event_of d k = Some ev ->
    Outcome n body now d response_recorded (inserted k email s b now d)
| Updated (k : Z) (email : string) (s : ResponseStatus) (b : Bound) (row : Attendee) :
    passes_validation n body = true ->
    Js.as_integer n = Some k ->
    Attendees.attendeeEmail body = Js.Str email ->
    resolved_status body = Some s ->
    bound_notes body = inr b ->
    rsvp_of d k email = Some row ->
    Outcome n body now d response_updated
      (updated (Some k) email (responseStatus row) s b now d).

(** *** Events *)

(** A field of a request is missing. *)
Definition missing (v : Js.Value) : Prop := v = Js.Undefined.

(** A value is a positive integer: a number, and the number is [z] for
    some integer [0 < z]. *)
Definition positive_integer (v : Js.Value) : Prop :=
  exists q z, v = Js.Num (Js.Finite q) /\ 0 < z /\ Qnum q = z * Zpos (Qden q).

(** A valid request of POST /api/create-event: six non-empty strings and
    a positive integer. *)
Definition nonempty_string (v : Js.Value) : bool :=
  match v with Js.Str s => negb (s =? "")%string | _ => false end.

Definition positive_integerb (v : Js.Value) : bool :=
  match v with
  | Js.Num n => match Js.as_integer n with Some z => 0 <? z | None => false end
  | _ => false
  end.

Definition valid_event_request (body : Server.CreateEventRequestBody) : bool :=
  nonempty_string (Server.creatorEmail body)
  && nonempty_string (Server.eventName body)
  && nonempty_string (Server.description body)
  && positive_integerb (Server.targetedAttendees body)
  && nonempty_string (Server.eventDate body)
  && nonempty_string (Server.eventStartTime body)
  && nonempty_string (Server.eventEndTime body).

(** The row INSERT INTO events writes for a valid request. *)
Definition created_event (d : Database) (creator name descr : string)
    (targeted : Z) (date starts ends : string) (now : string) : Event :=
  {| id := next_rowid id (events d) (seq_events d);
     creatorEmail := creator; eventName := name; description := Some descr;
     targetedAttendees := targeted; eventDate := Some date;
     eventStartTime := Some starts; eventEndTime := Some ends;
     eventDuration := None; status := Created; created_at := now;
     attendingCount := 0; notAttendingCount := 0; maybeCount := 0;
     pendingCount := 0 |}.

Definition with_new_event (e : Event) (d : Database) : Database :=
  {| events := events d ++ [e]; eventAttendees := eventAttendees d;
     seq_events := id e; seq_eventAttendees := seq_eventAttendees d |}.

(** A number of a request and an integer of a row are the same number. *)
Definition same_number (v : Js.Value) (z : Z) : Prop :=
  exists n, v = Js.Num n /\ Js.as_integer n = Some z.

(** Some row of [events] has the key of the path. *)
Definition row_exists (d : Database) (key : Server.PathId) : Prop :=
  exists e, In e (events d) /\ event_matches key e = true.

(** [UPDATE events SET status = s WHERE id = key] on the table. *)
Definition with_status (s : EventStatus) (key : Server.PathId)
    (rows : list Event) : list Event :=
  map (fun e => if event_matches key e then Server.set_status s e else e) rows.

End Rsvp.

(** ** Concrete stores and requests *)

Module Examples.

Import Sqlite Http.

Definition empty : Database :=
  {| events := []; eventAttendees := []; seq_events := 0; seq_eventAttendees := 0 |}.

Definition rsvp (rowid : Z) (email : string) (s : ResponseStatus) : Attendee :=
  {| att_id := rowid; eventId := 1; attendeeEmail := email;
     responseStatus := s; rsvpDate := "2025-08-01 09:00:00"; notes := BNull;
     att_created_at := "2025-08-01 09:00:00" |}.

(** One event with counters [{Attending:1, Pending:2}] and its three
    responses. *)
Definition meetup : Event :=
  {| id := 1; creatorEmail := "test.user@example.com";
     eventName := "Sample Tech Meetup";
     description := Some "A casual meetup for local tech enthusiasts.";
     targetedAttendees := 50; eventDate := Some "2025-08-15";
     eventStartTime := Some "18:00"; eventEndTime := Some "20:00";
     eventDuration := None; status := Published;
     created_at := "2025-08-01 08:00:00";
     attendingCount := 1; notAttendingCount := 0; maybeCount := 0;
     pendingCount := 2 |}.

Definition one_event : Database :=
  {| events := [meetup];
     eventAttendees :=
       [rsvp 1 "a@x.com" Attending; rsvp 2 "b@x.com" Pending;
        rsvp 3 "c@x.com" Pending];
     seq_events := 1; seq_eventAttendees := 3 |}.

Definition answer (email : string) (s : Js.Value) : Attendees.CreateAttendeeRequestBody :=
  {| Attendees.attendeeEmail := Js.Str email;
     Attendees.responseStatus := s;
     Attendees.notes := Js.Undefined |}.

Definition new_meetup : Server.CreateEventRequestBody :=
  {| Server.creatorEmail := Js.Str "test.user@example.com";
     Server.eventName := Js.Str "Sample Tech Meetup";
     Server.description := Js.Str "A casual meetup for local tech enthusiasts.";
     Server.targetedAttendees := Js.Num (Js.integer 5);
     Server.eventDate := Js.Str "2025-08-15";
     Server.eventStartTime := Js.Str "18:00";
     Server.eventEndTime := Js.Str "20:00" |}.

End Examples.

(** ** The read endpoints *)

Module Queries.

Import Sqlite Http.
Local Open Scope sql_scope.

(** A row of [eventAttendees] as [SELECT *] returns it: the columns in
    the order of the CREATE TABLE. *)
Definition attendee_json (a : Attendee) : list (string * Bound) :=
  [("id", BNumber (Js.integer (att_id a)));
   ("eventId", BNumber (Js.integer (eventId a)));
   ("attendeeEmail", BText (attendeeEmail a));
   ("responseStatus", BText (status_text (responseStatus a)));
   ("rsvpDate", BText (rsvpDate a));
   ("notes", notes a);
   ("created_at", BText (att_created_at a))].

(** A row of [events] as [SELECT *] returns it. *)
Definition event_json (e : Event) : list (string * Bound) :=
  flat_map (fun col => match events_column col e with
                       | Some v => [(col, v)]
                       | None => []
                       end) events_columns.

(** The order of the index of UNIQUE (eventId, attendeeEmail) within one
    event: the addresses in increasing order of their code units. *)
Fixpoint insert_by_address (a : Attendee) (sorted : list Attendee) : list Attendee :=
  match sorted with
  | [] => [a]
  | x :: rest =>
      if String.ltb (attendeeEmail a) (attendeeEmail x) then a :: sorted
      else x :: insert_by_address a rest
  end.

Definition in_index_order (rows : list Attendee) : list Attendee :=
  fold_right insert_by_address [] rows.

(** [SELECT * FROM eventAttendees WHERE eventId = ?], [.all]. SQLite
    answers the statement through the index of the UNIQUE constraint, so
    the rows come in the order of the index. *)
Definition select_attendees (eventId : Js.Value) : Sql (list (list (string * Bound))) :=
  prepare eventAttendees_columns ["eventId"] ;;
  k <- lift (bind_value eventId) ;;
  read (fun d =>
          map attendee_json
            (in_index_order
               (filter (fun a => key_matches (bound_integer k) (Sqlite.eventId a))
                  (eventAttendees d)))).

(** GET /api/events/:eventId/attendees, the spec's
    [listAttendeesForEvent]. [eventId] is the number
    [parseInt(req.params.eventId)] returned. *)
Definition listAttendeesForEvent (eventId : Js.Number) : Sql Response :=
  if Js.isNaN eventId || Js.le0 eventId then
    respond 400 (ErrorBody "Invalid Event ID provided." None)
  else
    try_catch
      (eventExists <- Attendees.select_event_id (Js.Num eventId) ;;
       match eventExists with
       | None => respond 404 (EventNotFound eventId)
       | Some _ =>
           attendees <- select_attendees (Js.Num eventId) ;;
           respond 200 (RowsBody attendees)
       end)
      (fun error =>
         respond 500
           (ErrorBody "Failed to retrieve attendees for event." (Some (message error)))).

(** One row of the join of GET /api/attendee/:email/events. *)
Definition attendee_event_json (a : Attendee) (e : Event) : list (string * Bound) :=
  [("id", BNumber (Js.integer (id e)));
   ("eventName", BText (eventName e));
   ("eventDate", opt_text (eventDate e));
   ("eventStartTime", opt_text (eventStartTime e));
   ("eventEndTime", opt_text (eventEndTime e));
   ("responseStatus", BText (status_text (responseStatus a)))].

(** [SELECT events.id, events.eventName, events.eventDate,
     events.eventStartTime, events.eventEndTime,
     eventAttendees.responseStatus
     FROM eventAttendees JOIN events ON eventAttendees.eventId = events.id
     WHERE eventAttendees.attendeeEmail = ?], [.all]: for every row of
    [eventAttendees] with the address, every row of [events] with its
    key. SQL fixes no order of the rows of a join; the model takes the
    one of a scan of [eventAttendees]. *)
Definition select_attendee_events (email : Js.Value) : Sql (list (list (string * Bound))) :=
  prepare events_columns
    ["id"; "eventName"; "eventDate"; "eventStartTime"; "eventEndTime"] ;;
  prepare eventAttendees_columns ["responseStatus"; "eventId"; "attendeeEmail"] ;;
  t <- lift (bind_value email) ;;
  read (fun d =>
          flat_map
            (fun a =>
               if text_matches (bound_text t) (attendeeEmail a)
               then map (attendee_event_json a)
                      (filter (fun e => id e =? Sqlite.eventId a) (events d))
               else [])
            (eventAttendees d)).

(** GET /api/attendee/:email/events, the spec's [listEventsForAttendee].
    [res.json] answers with status 200. *)
Definition listEventsForAttendee (attendeeEmail : string) : Sql Response :=
  if negb (Js.truthy (Js.Str attendeeEmail)) then
    respond 400 (ErrorBody "Attendee email is required." None)
  else
    try_catch
      (events <- select_attendee_events (Js.Str attendeeEmail) ;;
       respond 200 (RowsBody events))
      (fun err =>
         respond 500 (ErrorBody "Failed to fetch attendee events" (Some (message err)))).

(** [SELECT * FROM events], [.all]. *)
Definition select_events : Sql (list (list (string * Bound))) :=
  prepare events_columns [] ;;
  read (fun d => map event_json (events d)).

(** GET /api/events, the spec's [listEvents]. *)
Definition listEvents : Sql Response :=
  try_catch
    (events <- select_events ;;
     respond 200 (RowsBody events))
    (fun error =>
       respond 500 (ErrorBody "Failed to retrieve events." (Some (message error)))).

End Queries.

(** ** The server as a whole *)

Module App.

Import Sqlite Http.

(** A request to one of the routes that reach the database. *)
Inductive Request :=
| CreateEvent (body : Server.CreateEventRequestBody) (now : string)
| ListEvents
| Publish (eventId : Server.PathId)
| Cancel (eventId : Server.PathId)
| GetEvent (eventId : Server.PathId)
| SubmitResponse (eventId : Js.Number) (body : Attendees.CreateAttendeeRequestBody)
    (now : string)
| ListAttendees (eventId : Js.Number)
| ListEventsForAttendee (email : string)
| EventsWithCounts.

Definition handle (r : Request) : Sql Response :=
  match r with
  | CreateEvent body now => Server.createEvent body now
  | ListEvents => Queries.listEvents
  | Publish eventId => Server.publish eventId
  | Cancel eventId => Server.cancel eventId
  | GetEvent eventId => Server.getEvent eventId
  | SubmitResponse eventId body now => Attendees.submitResponse eventId body now
  | ListAttendees eventId => Queries.listAttendeesForEvent eventId
  | ListEventsForAttendee email => Queries.listEventsForAttendee email
  | EventsWithCounts => Attendees.listEventsWithCounts
  end.

(** The requests of a list served one after the other, each on the
    connection the one before left. *)
Fixpoint serve_all (rs : list Request) (c : Connection) : Connection :=
  match rs with
  | [] => c
  | r :: rest => serve_all rest (snd (serve (handle r) c))
  end.

(** The databases the server can reach from the empty one. *)
Definition reachable (d : Database) : Prop :=
  exists rs, serve_all rs (idle Examples.empty) = idle d.

(** The rows of an event in a status. *)
Definition rsvps_in_status (d : Database) (k : Z) (s : ResponseStatus) : list Attendee :=
  filter (fun a => (eventId a =? k) && ResponseStatus_eqb (responseStatus a) s)
    (eventAttendees d).

(** What the schema and the handlers keep of a database: every counter is
    the number of rows of its event in its status, UNIQUE (eventId,
    attendeeEmail), PRIMARY KEY (id), and the FOREIGN KEY of
    [eventAttendees.eventId]. *)
Record consistent (d : Database) : Prop := {
  counters_exact :
    forall e s, In e (events d) ->
                Rsvp.counter s e = Z.of_nat (List.length (rsvps_in_status d (id e) s));
  pairs_unique : Rsvp.unique_rsvp d;
  keys_unique : NoDup (map id (events d));
  references : forall a, In a (eventAttendees d) ->
                         exists e, In e (events d) /\ id e = eventId a
}.

End App.

(** ** More of what the properties speak of *)

Module Frame.

Import Sqlite Http.

(** The columns of an event that no RSVP request writes: all but the four
    counters. *)
Definition details (e : Event)
  : Z * string * string * option string * Z * option string * option string
    * option string * option string * EventStatus * string :=
  (id e, creatorEmail e, eventName e, description e, targetedAttendees e,
   eventDate e, eventStartTime e, eventEndTime e, eventDuration e, status e,
   created_at e).

(** The columns of an event that no lifecycle request writes: all but the
    status. *)
Definition but_status (e : Event)
  : Z * string * string * option string * Z * option string * option string
    * option string * option string * string * (Z * Z * Z * Z) :=
  (id e, creatorEmail e, eventName e, description e, targetedAttendees e,
   eventDate e, eventStartTime e, eventEndTime e, eventDuration e,
   created_at e, Rsvp.counters e).

End Frame.

(** ** The strings a regular expression accepts *)

Module Language.

(** The language of a regular expression. *)
Inductive Denotes : Js.Regex -> string -> Prop :=
| DEps : Denotes Js.Eps ""
| DClass (p : ascii -> bool) (a : ascii) :
    p a = true -> Denotes (Js.Class p) (String a "")
| DCat (r s : Js.Regex) (x y : string) :
    Denotes r x -> Denotes s y -> Denotes (Js.Cat r s) (x ++ y)
| DAltL (r s : Js.Regex) (x : string) : Denotes r x -> Denotes (Js.Alt r s) x
| DAltR (r s : Js.Regex) (x : string) : Denotes s x -> Denotes (Js.Alt r s) x
| DStarNil (r : Js.Regex) : Denotes (Js.Star r) ""
| DStarCons (r : Js.Regex) (x y : string) :
    Denotes r x -> Denotes (Js.Star r) y -> Denotes (Js.Star r) (x ++ y).

Fixpoint all_chars (p : ascii -> bool) (s : string) : bool :=
  match s with
  | EmptyString => true
  | String a s' => p a && all_chars p s'
  end.

(** A character that is neither white space nor ["@"]. *)
Definition plain (a : ascii) : bool := negb (Js.white_space a || Js.chr "@" a).

(** A non-empty string of such characters. *)
Definition word (s : string) : Prop := s <> "" /\ all_chars plain s = true.

(** [local@domain.tld]: three words, the second and the third after an
    ["@"] and a ["."]. A word may hold dots. *)
Definition address (s : string) : Prop :=
  exists l d t, s = l ++ "@" ++ d ++ "." ++ t /\ word l /\ word d /\ word t.

End Language.

(** ** The steps of the server *)

Module Steps.

Import Sqlite Http.

(** What one request can do to the database: nothing, one event more,
    a status overwritten, one RSVP row more, one RSVP row rewritten. *)
Inductive Step (d : Database) : Database -> Prop :=
| Unchanged : Step d d
| EventCreated (creator name descr : string) (targeted : Z)
    (date starts ends now : string) :
    0 < targeted ->
    Step d (Rsvp.with_new_event
              (Rsvp.created_event d creator name descr targeted date starts ends now) d)
| StatusSet (s : EventStatus) (key : Server.PathId) :
    Step d (with_events (Rsvp.with_status s key) d)
| RsvpRecorded (k : Z) (email : string) (s : ResponseStatus) (n : Bound)
    (now : string) (ev : Event) :
    Rsvp.rsvp_of d k email = None ->
    Rsvp.event_of d k = Some ev ->
    Step d (Rsvp.inserted k email s n now d)
| RsvpUpdated (k : Z) (email : string) (s : ResponseStatus) (n : Bound)
    (now : string) (row : Attendee) :
    Rsvp.rsvp_of d k email = Some row ->
    Step d (Rsvp.updated (Some k) email (responseStatus row) s n now d).

(** Keys in strictly increasing order. *)
Fixpoint ascending (keys : list Z) : Prop :=
  match keys with
  | [] => True
  | k :: rest => (forall k', In k' rest -> k < k') /\ ascending rest
  end.

End Steps.

(** ** The dashboard of the client (App.tsx) *)

Module Dashboard.

Import Sqlite.

(** A row of a JSON answer as the client holds it: an object, its
    properties by name. A row of the server names a property once. *)
Definition Row := list (string * Bound).

(** [a.name]: [None] is [undefined]. *)
Definition field (name : string) (a : Row) : option Bound :=
  option_map snd (find (fun kv => String.eqb (fst kv) name) a).

(** The property key [counts[v]] reads and writes. The key of a number is
    its decimal text, which is not modelled: [None]. *)
Definition property_key (v : option Bound) : option string :=
  match v with
  | None => Some "undefined"
  | Some BNull => Some "null"
  | Some (BText t) => Some t
  | Some (BNumber _) => None
  end.

(** The object [counts]: its own properties. A counter is at most the
    length of an array, so the doubles are exact integers. *)
Definition Counts := list (string * Z).

(** [counts[key]] among the own properties. *)
Definition get (counts : Counts) (key : string) : option Z :=
  option_map snd (find (fun kv => String.eqb (fst kv) key) counts).

(** [counts[key] = v] *)
Fixpoint set (counts : Counts) (key : string) (v : Z) : Counts :=
  match counts with
  | [] => [(key, v)]
  | (k, x) :: rest =>
      if String.eqb k key then (k, v) :: rest else (k, x) :: set rest key v
  end.

(** The names [counts] inherits from [Object.prototype]: under them
    [counts[key] !== undefined] holds without an own property, and the
    increment gives NaN. The model stops there. *)
Definition inherited : list string :=
  ["constructor"; "hasOwnProperty"; "isPrototypeOf"; "propertyIsEnumerable";
   "toLocaleString"; "toString"; "valueOf"; "__proto__";
   "__defineGetter__"; "__defineSetter__"; "__lookupGetter__"; "__lookupSetter__"].

Definition initial : Counts :=
  [("Attending", 0); ("Not Attending", 0); ("Pending", 0); ("Maybe", 0)].

(** The body of the [forEach]:
    [if (counts[a.responseStatus] !== undefined) counts[a.responseStatus]++;
     else counts[a.responseStatus] = 1;] *)
Definition count (counts : Counts) (a : Row) : option Counts :=
  match property_key (field "responseStatus" a) with
  | None => None
  | Some key =>
      match get counts key with
      | Some n => Some (set counts key (n + 1))
      | None =>
          if existsb (String.eqb key) inherited then None
          else Some (set counts key 1)
      end
  end.

Fixpoint forEach (counts : Counts) (attendees : list Row) : option Counts :=
  match attendees with
  | [] => Some counts
  | a :: rest =>
      match count counts a with
      | None => None
      | Some counts' => forEach counts' rest
      end
  end.

(** What [setResponseCounts] receives for the rows of
    GET /api/events/:id/attendees. *)
Definition responseCounts (attendees : list Row) : option Counts :=
  forEach initial attendees.

Record Participant := {
  attendeeEmail : option Bound;
  responseStatus : option Bound
}.

(** [attendees.map((a) => ({ attendeeEmail: a.attendeeEmail,
                             responseStatus: a.responseStatus }))] *)
Definition participants (attendees : list Row) : list Participant :=
  map (fun a => {| attendeeEmail := field "attendeeEmail" a;
                   responseStatus := field "responseStatus" a |}) attendees.

(** [p.responseStatus === participantStatusFilter], the filter a string. *)
Definition status_is (participantStatusFilter : string) (p : Participant) : bool :=
  match responseStatus p with
  | Some (BText t) => String.eqb t participantStatusFilter
  | _ => false
  end.

Definition filteredParticipants (participantStatusFilter : string)
    (participants : list Participant) : list Participant :=
  if String.eqb participantStatusFilter "all" then participants
  else filter (status_is participantStatusFilter) participants.

(** The number of the rows of a list in a status. *)
Definition in_status (s : ResponseStatus) (rows : list Attendee) : Z :=
  Z.of_nat
    (List.length (filter (fun a => ResponseStatus_eqb (Sqlite.responseStatus a) s) rows)).

End Dashboard.

(** ** The schema script (init_and_alter_db.ts) *)

Module Migration.

Import Sqlite.

(** SQLite compares column names without regard to the case of the ASCII
    letters. *)
Definition lower (a : ascii) : ascii :=
  let n := nat_of_ascii a in
  if ((65 <=? n) && (n <=? 90))%nat then ascii_of_nat (n + 32) else a.

Fixpoint fold_case (s : string) : string :=
  match s with
  | EmptyString => EmptyString
  | String a rest => String (lower a) (fold_case rest)
  end.

Definition same_column (a b : string) : bool :=
  String.eqb (fold_case a) (fold_case b).

Definition has_column (name : string) (cols : list string) : bool :=
  existsb (same_column name) cols.

(** [db.prepare("PRAGMA table_info(events)").all()
       .some(col => col.name === name)]: the comparison of JavaScript,
    exact. *)
Definition column_info_some (name : string) (cols : list string) : bool :=
  existsb (fun col => String.eqb col name) cols.

Inductive AlterError :=
| DuplicateColumnName (c : string)
| NoSuchColumnName (c : string).

(** [ALTER TABLE events ADD COLUMN name ...] on a table with the columns
    [cols]. *)
Definition add_column (name : string) (cols : list string)
  : AlterError + list string :=
  if has_column name cols then inl (DuplicateColumnName name)
  else inr (cols ++ [name])%list.

(** [ALTER TABLE events RENAME COLUMN old TO new] *)
Definition rename_column (old new : string) (cols : list string)
  : AlterError + list string :=
  if negb (has_column old cols) then inl (NoSuchColumnName old)
  else if has_column new cols then inl (DuplicateColumnName new)
  else inr (map (fun c => if same_column c old then new else c) cols).

(** [CREATE TABLE IF NOT EXISTS events (...)]: [None] is a database
    without the table. *)
Definition create_table_if_not_exists (table : option (list string)) : list string :=
  match table with
  | Some cols => cols
  | None => events_columns
  end.

(** The helper [addColumn]; an error of the ALTER is caught and logged. *)
Definition addColumn (columnName : string) (cols : list string) : list string :=
  let columnExists := column_info_some columnName cols in
  if negb columnExists then
    match add_column columnName cols with
    | inr cols' => cols'
    | inl _ => cols
    end
  else cols.

(** Step 1 of the script, the rename of [eventTime]. *)
Definition rename_eventTime (cols : list string) : list string :=
  let columnExists := column_info_some "eventTime" cols in
  let newColumnExists := column_info_some "eventStartTime" cols in
  if columnExists && negb newColumnExists then
    match rename_column "eventTime" "eventStartTime" cols with
    | inr cols' => cols'
    | inl _ => cols
    end
  else cols.

(** The columns of the calls of [addColumn], steps 2 to 5, in their order. *)
Definition added_columns : list string :=
  ["eventEndTime"; "eventDuration"; "status"; "attendingCount";
   "notAttendingCount"; "maybeCount"; "pendingCount"].

(** The script: the columns of [events] it leaves. *)
Definition init_and_alter (table : option (list string)) : list string :=
  fold_left (fun cols columnName => addColumn columnName cols) added_columns
    (rename_eventTime (create_table_if_not_exists table)).

End Migration.

(** ** The RSVP forms of the client (InviteAttendee.tsx, EventList.tsx) *)

Module Invite.

(** The parameter [status] of [handleSendInvite]:
    ['Attending' | 'Not Attending' | 'Maybe']. *)
Inductive Status := Attending | NotAttending | Maybe.

Definition status_text (s : Status) : string :=
  match s with
  | Attending => "Attending"
  | NotAttending => "Not Attending"
  | Maybe => "Maybe"
  end.

Definition stored (s : Status) : Sqlite.ResponseStatus :=
  match s with
  | Attending => Sqlite.Attending
  | NotAttending => Sqlite.NotAttending
  | Maybe => Sqlite.Maybe
  end.

(** [String.prototype.trimStart], [trimEnd] and [trim]; within the
    eight-bit code units the characters they strip are those of [\s]. *)
Fixpoint trimStart (s : string) : string :=
  match s with
  | EmptyString => EmptyString
  | String a rest => if Js.white_space a then trimStart rest else s
  end.

Fixpoint trimEnd (s : string) : string :=
  match s with
  | EmptyString => EmptyString
  | String a rest =>
      match trimEnd rest with
      | EmptyString => if Js.white_space a then EmptyString else String a EmptyString
      | kept => String a kept
      end
  end.

Definition trim (s : string) : string := trimEnd (trimStart s).

(** [handleSendInvite], the same in both components: the body of the
    POST it sends to /api/events/:eventId/attendees, [None] when it
    returns before the [fetch]. The body has no [notes]. *)
Definition handleSendInvite (attendeeEmail : string) (status : Status)
  : option Attendees.CreateAttendeeRequestBody :=
  if negb (Js.truthy (Js.Str (trim attendeeEmail))) then None
  else if negb (Js.matches Attendees.email_format attendeeEmail) then None
  else Some {| Attendees.attendeeEmail := Js.Str attendeeEmail;
               Attendees.responseStatus := Js.Str (status_text status);
               Attendees.notes := Js.Undefined |}.

End Invite.

(** ** The statements, one by one *)

Section Statements.

Import Sqlite Http Attendees Rsvp.
Local Open Scope sql_scope.

Lemma find_none_existsb {A} (p : A -> bool) (l : list A) :
  find p l = None -> existsb p l = false.
Proof.
  induction l as [|x l IH]; simpl; [reflexivity|].
  destruct (p x); [discriminate | exact IH].
Qed.

Lemma find_some_existsb {A} (p : A -> bool) (l : list A) (x : A) :
  find p l = Some x -> existsb p l = true.
Proof.
  intro H. apply existsb_exists. exists x.
  apply find_some in H. exact H.
Qed.

Lemma check_status_text (s : ResponseStatus) :
  check_responseStatus (BText (status_text s)) = Some s.
Proof. destruct s; reflexivity. Qed.

Lemma select_responseStatus_run (n : Js.Number) (email : string) (c : Connection) :
  select_responseStatus (Js.Num n) (Js.Str email) c
  = (inr (option_map Sqlite.responseStatus
            (find (attendee_matches (Js.as_integer n) (Some email))
               (eventAttendees (store c)))), c).
Proof. reflexivity. Qed.

Lemma select_event_id_run (n : Js.Number) (c : Connection) :
  select_event_id (Js.Num n) c
  = (inr (option_map id (find (event_matches (Js.as_integer n)) (events (store c)))), c).
Proof. reflexivity. Qed.

Lemma adjust_counter_run (s : ResponseStatus) (delta : Z) (n : Js.Number)
    (c : Connection) :
  adjust_counter (Js.Str (status_text s)) delta (Js.Num n) c
  = (inr tt, {| store := with_events (bump s delta (Js.as_integer n)) (store c);
                journal := journal c |}).
Proof. destruct s; reflexivity. Qed.

Lemma update_eventAttendees_run (s : ResponseStatus) (b : Bound) (v : Js.Value)
    (n : Js.Number) (email : string) (now : string) (c : Connection) :
  bind_value v = inr b ->
  existsb (attendee_matches (Js.as_integer n) (Some email))
    (eventAttendees (store c)) = true ->
  update_eventAttendees (Js.Str (status_text s)) v (Js.Num n) (Js.Str email) now c
  = (inr tt,
     {| store :=
          with_eventAttendees
            (map (fun a => if attendee_matches (Js.as_integer n) (Some email) a
                           then set_response s b now a else a)) (store c);
        journal := journal c |}).
Proof.
  intros Hb Hhit. unfold update_eventAttendees.
  change (prepare _ _) with (@ret unit tt).
  unfold bind, lift, read, ret. rewrite Hb. cbn [bind_value bound_integer bound_text].
  rewrite Hhit, check_status_text. reflexivity.
Qed.

Lemma update_eventAttendees_throws (s : ResponseStatus) (e : Error) (v : Js.Value)
    (n : Js.Number) (email : string) (now : string) (c : Connection) :
  bind_value v = inl e ->
  update_eventAttendees (Js.Str (status_text s)) v (Js.Num n) (Js.Str email) now c
  = (inl e, c).
Proof.
  intros Hb. unfold update_eventAttendees.
  change (prepare _ _) with (@ret unit tt).
  unfold bind, lift, read, ret. rewrite Hb. reflexivity.
Qed.

Lemma insert_eventAttendees_run (s : ResponseStatus) (b : Bound) (v : Js.Value)
    (n : Js.Number) (k : Z) (email : string) (now : string) (c : Connection) :
  bind_value v = inr b ->
  Js.as_integer n = Some k ->
  existsb (attendee_matches (Some k) (Some email)) (eventAttendees (store c)) = false ->
  existsb (event_matches (Some k)) (events (store c)) = true ->
  insert_eventAttendees (Js.Num n) (Js.Str email) (Js.Str (status_text s)) v now c
  = (inr tt,
     {| store :=
          {| events := events (store c);
             eventAttendees :=
               eventAttendees (store c) ++
                 [{| att_id := next_rowid att_id (eventAttendees (store c))
                                 (seq_eventAttendees (store c));
                     eventId := k; Sqlite.attendeeEmail := email;
                     Sqlite.responseStatus := s; rsvpDate := now;
                     Sqlite.notes := text_affinity b; att_created_at := now |}];
             seq_events := seq_events (store c);
             seq_eventAttendees :=
               next_rowid att_id (eventAttendees (store c))
                 (seq_eventAttendees (store c)) |};
        journal := journal c |}).
Proof.
  intros Hb Hk Hfresh Hevent. unfold insert_eventAttendees.
  change (prepare _ _) with (@ret unit tt).
  unfold bind, lift, read, ret. rewrite Hb.
  cbn [bind_value bound_integer bound_text]. rewrite check_status_text, Hk.
  rewrite Hfresh, Hevent. reflexivity.
Qed.

Lemma insert_eventAttendees_throws (s : ResponseStatus) (e : Error) (v : Js.Value)
    (n : Js.Number) (email : string) (now : string) (c : Connection) :
  bind_value v = inl e ->
  insert_eventAttendees (Js.Num n) (Js.Str email) (Js.Str (status_text s)) v now c
  = (inl e, c).
Proof.
  intros Hb. unfold insert_eventAttendees.
  change (prepare _ _) with (@ret unit tt).
  unfold bind, lift, read, ret. rewrite Hb. reflexivity.
Qed.

Lemma bind_value_error (v : Js.Value) (e : Error) :
  bind_value v = inl e -> e = BindTypeError.
Proof. destruct v; simpl; congruence. Qed.

Lemma upsert_failed_bind (d0 d : Database) :
  upsert_failed BindTypeError {| store := d; journal := Some d0 |}
  = (inr bind_failure, idle d0).
Proof. reflexivity. Qed.

Lemma find_event_none (rows : list Event) : find (event_matches None) rows = None.
Proof. induction rows as [|e rows IH]; simpl; auto. Qed.

(** The transaction of the handler, together with its [catch], as a
    function of what it finds in the two tables. *)
Lemma upsert_run (n : Js.Number) (email : string) (s : ResponseStatus)
    (v : Js.Value) (now : string) (d : Database) :
  try_catch (upsert n (Js.Str email) (Js.Str (status_text s)) v now)
    upsert_failed (idle d)
  = match find (attendee_matches (Js.as_integer n) (Some email)) (eventAttendees d) with
    | Some row =>
        match bind_value (Js.or v Js.Null) with
        | inl _ => (inr bind_failure, idle d)
        | inr b =>
            (inr response_updated,
             idle (updated (Js.as_integer n) email (Sqlite.responseStatus row) s b now d))
        end
    | None =>
        match Js.as_integer n, find (event_matches (Js.as_integer n)) (events d) with
        | Some k, Some _ =>
            match bind_value (Js.or v Js.Null) with
            | inl _ => (inr bind_failure, idle d)
            | inr b => (inr response_recorded, idle (inserted k email s b now d))
            end
        | _, _ => (inr (event_not_found n), idle d)
        end
    end.
Proof.
  unfold try_catch, upsert.
  unfold bind at 1. cbn [exec_begin idle journal store].
  unfold bind at 1. rewrite select_responseStatus_run. cbn [store option_map].
  destruct (find (attendee_matches (Js.as_integer n) (Some email)) (eventAttendees d))
    as [row|] eqn:Hrow; cbn [option_map].
  - apply find_some_existsb in Hrow.
    destruct (bind_value (Js.or v Js.Null)) as [e|b] eqn:Hb.
    + unfold bind at 1.
      rewrite (update_eventAttendees_throws s e) by exact Hb.
      apply bind_value_error in Hb. subst e. apply upsert_failed_bind.
    + unfold bind at 1.
      rewrite (update_eventAttendees_run s b) by assumption.
      unfold bind at 1. rewrite adjust_counter_run.
      unfold bind at 1. rewrite adjust_counter_run.
      reflexivity.
  - unfold bind at 1. rewrite select_event_id_run. cbn [store].
    destruct (Js.as_integer n) as [k|] eqn:Hk.
    + apply find_none_existsb in Hrow.
      destruct (find (event_matches (Some k)) (events d)) as [ev|] eqn:Hev;
        cbn [option_map]; [|reflexivity].
      apply find_some_existsb in Hev.
      destruct (bind_value (Js.or v Js.Null)) as [e|b] eqn:Hb.
      * unfold bind at 1.
        rewrite (insert_eventAttendees_throws s e) by exact Hb.
        apply bind_value_error in Hb. subst e. apply upsert_failed_bind.
      * unfold bind at 1.
        rewrite (insert_eventAttendees_run s b _ n k) by assumption.
        unfold bind at 1. rewrite adjust_counter_run, Hk.
        reflexivity.
    + rewrite find_event_none. reflexivity.
Qed.

Lemma find_attendee_none (email : option string) (rows : list Attendee) :
  find (attendee_matches None email) rows = None.
Proof. induction rows as [|a rows IH]; simpl; auto. Qed.

Lemma validated_email (n : Js.Number) (body : CreateAttendeeRequestBody) :
  passes_validation n body = true ->
  exists email, attendeeEmail body = Js.Str email.
Proof.
  unfold passes_validation. intro H.
  apply andb_prop in H; destruct H as [H _].
  apply andb_prop in H; destruct H as [_ H].
  destruct (attendeeEmail body); try discriminate. eauto.
Qed.

Lemma strict_eq_status (v : Js.Value) :
  Js.includes allowedStatuses v = true ->
  exists s, v = Js.Str (status_text s).
Proof.
  unfold Js.includes, allowedStatuses; simpl.
  destruct v as [| |b|x|t]; simpl; try discriminate.
  intro H.
  repeat (apply orb_prop in H; destruct H as [H|H]); try discriminate;
    apply String.eqb_eq in H; subst t;
    [exists Pending | exists Attending | exists NotAttending | exists Maybe];
    reflexivity.
Qed.

Lemma validated_status (n : Js.Number) (body : CreateAttendeeRequestBody) :
  passes_validation n body = true ->
  exists s, finalResponseStatus body = Js.Str (status_text s)
            /\ resolved_status body = Some s.
Proof.
  unfold passes_validation. intro H.
  apply andb_prop in H; destruct H as [_ H].
  apply negb_true_iff, andb_false_iff in H.
  unfold resolved_status, finalResponseStatus, Js.or.
  destruct H as [H|H].
  - rewrite H. exists Pending. split; reflexivity.
  - apply negb_false_iff in H.
    destruct (strict_eq_status _ H) as [s Hs]. rewrite Hs.
    exists s. replace (Js.truthy (Js.Str (status_text s))) with true
      by (destruct s; reflexivity).
    split; [reflexivity|]. simpl. apply check_status_text.
Qed.

Lemma submitResponse_invalid (n : Js.Number) (body : CreateAttendeeRequestBody)
    (now : string) (c : Connection) :
  passes_validation n body = false ->
  exists error,
    submitResponse n body now c
    = (inr {| code := 400; body := ErrorBody error None |}, c).
Proof.
  unfold passes_validation, submitResponse. intro H.
  destruct (Js.isNaN n || Js.le0 n); [eexists; reflexivity|].
  destruct (Js.truthy (attendeeEmail body)); [|eexists; reflexivity].
  destruct (Js.test_with_at email_format (attendeeEmail body)); [|eexists; reflexivity].
  cbn [negb andb] in H. apply negb_false_iff in H. rewrite H.
  eexists; reflexivity.
Qed.

Lemma submitResponse_refuses (n : Js.Number) (body : CreateAttendeeRequestBody)
    (now : string) :
  passes_validation n body = false ->
  exists error, forall c,
    submitResponse n body now c
    = (inr {| code := 400; body := ErrorBody error None |}, c).
Proof.
  unfold passes_validation, submitResponse. intro H.
  destruct (Js.isNaN n || Js.le0 n); [eexists; intro; reflexivity|].
  destruct (Js.truthy (attendeeEmail body)); [|eexists; intro; reflexivity].
  destruct (Js.test_with_at email_format (attendeeEmail body));
    [|eexists; intro; reflexivity].
  cbn [negb andb] in H. apply negb_false_iff in H. rewrite H.
  eexists; intro; reflexivity.
Qed.

Lemma submitResponse_valid (n : Js.Number) (body : CreateAttendeeRequestBody)
    (now : string) (email : string) (s : ResponseStatus) :
  passes_validation n body = true ->
  attendeeEmail body = Js.Str email ->
  finalResponseStatus body = Js.Str (status_text s) ->
  submitResponse n body now
  = try_catch (upsert n (Js.Str email) (Js.Str (status_text s)) (notes body) now)
      upsert_failed.
Proof.
  unfold passes_validation, submitResponse, finalResponseStatus.
  intros H He Hs. rewrite He, Hs in *.
  destruct (Js.isNaN n || Js.le0 n); [discriminate|].
  destruct (Js.truthy (Js.Str email)); [|discriminate].
  destruct (Js.test_with_at email_format (Js.Str email)); [|discriminate].
  cbn [negb andb] in H. apply negb_true_iff in H. rewrite H. reflexivity.
Qed.

(** Every call on an idle connection ends in one of the five outcomes,
    and leaves the connection idle. *)
Lemma submitResponse_outcome (n : Js.Number) (body : CreateAttendeeRequestBody)
    (now : string) (d : Database) :
  exists r d',
    serve (submitResponse n body now) (idle d) = (r, idle d')
    /\ Outcome n body now d r d'.
Proof.
  destruct (passes_validation n body) eqn:Hv.
  - destruct (validated_email _ _ Hv) as [email He].
    destruct (validated_status _ _ Hv) as [s [Hs Hr]].
    unfold serve. rewrite (submitResponse_valid n body now email s Hv He Hs).
    rewrite upsert_run.
    destruct (find (attendee_matches (Js.as_integer n) (Some email)) (eventAttendees d))
      as [row|] eqn:Hrow.
    + destruct (Js.as_integer n) as [k|] eqn:Hk;
        [|rewrite find_attendee_none in Hrow; discriminate].
      destruct (bind_value (Js.or (notes body) Js.Null)) as [e|b] eqn:Hb.
      * do 2 eexists; split; [reflexivity|]. eapply Unbound; eassumption.
      * do 2 eexists; split; [reflexivity|]. eapply Updated; eassumption.
    + destruct (Js.as_integer n) as [k|] eqn:Hk.
      * destruct (find (event_matches (Some k)) (events d)) as [ev|] eqn:Hev.
        -- destruct (bind_value (Js.or (notes body) Js.Null)) as [e|b] eqn:Hb.
           ++ do 2 eexists; split; [reflexivity|]. eapply Unbound; eassumption.
           ++ do 2 eexists; split; [reflexivity|]. eapply Recorded; eassumption.
        -- do 2 eexists; split; [reflexivity|].
           eapply Absent; try eassumption; rewrite Hk; assumption.
      * do 2 eexists; split; [reflexivity|].
        eapply Absent; try eassumption; rewrite Hk;
          [apply find_attendee_none | apply find_event_none].
  - destruct (submitResponse_invalid n body now (idle d) Hv) as [error H].
    unfold serve. rewrite H. do 2 eexists; split; [reflexivity|].
    apply Invalid, Hv.
Qed.

End Statements.

(** ** The count-consistency invariant *)

Section CountConsistency.

Import Sqlite Http Rsvp.

Lemma counter_sum_add (s : ResponseStatus) (delta : Z) (e : Event) :
  counter_sum (add_counter s delta e) = counter_sum e + delta.
Proof. destruct s; unfold counter_sum; simpl; lia. Qed.

Lemma id_add_counter (s : ResponseStatus) (delta : Z) (e : Event) :
  id (add_counter s delta e) = id e.
Proof. destruct s; reflexivity. Qed.

Lemma in_bump (s : ResponseStatus) (delta : Z) (k : option Z)
    (rows : list Event) (e' : Event) :
  In e' (bump s delta k rows) ->
  exists e, In e rows /\ id e' = id e
            /\ counter_sum e' = counter_sum e + (if event_matches k e then delta else 0).
Proof.
  unfold bump. intro H. apply in_map_iff in H. destruct H as [e [He Hin]].
  exists e. split; [exact Hin|]. subst e'.
  destruct (event_matches k e).
  - split; [apply id_add_counter | apply counter_sum_add].
  - split; [reflexivity | lia].
Qed.

Lemma event_matches_id (k : option Z) (e e' : Event) :
  id e' = id e -> event_matches k e' = event_matches k e.
Proof. unfold event_matches. intros ->. reflexivity. Qed.

Lemma filter_map_length {A} (p : A -> bool) (f : A -> A) (l : list A) :
  (forall a, p (f a) = p a) ->
  List.length (filter p (map f l)) = List.length (filter p l).
Proof.
  intro H. induction l as [|a l IH]; simpl; [reflexivity|].
  rewrite H. destruct (p a); simpl; congruence.
Qed.

Lemma rsvp_count_updated (k : option Z) (email : string) (old new : ResponseStatus)
    (n : Bound) (now : string) (d : Database) (k' : Z) :
  rsvp_count (updated k email old new n now d) k' = rsvp_count d k'.
Proof.
  unfold rsvp_count, rsvps_of_event, updated; simpl.
  rewrite filter_map_length; [reflexivity|].
  intro a. destruct (attendee_matches k (Some email) a); reflexivity.
Qed.

Lemma rsvp_count_inserted (k : Z) (email : string) (new : ResponseStatus)
    (n : Bound) (now : string) (d : Database) (k' : Z) :
  rsvp_count (inserted k email new n now d) k'
  = rsvp_count d k' + (if k' =? k then 1 else 0).
Proof.
  unfold rsvp_count, rsvps_of_event, inserted; simpl.
  rewrite filter_app, length_app; simpl.
  rewrite (Z.eqb_sym k k'). destruct (k' =? k); simpl; lia.
Qed.

Lemma count_consistent_updated (k : option Z) (email : string)
    (old new : ResponseStatus) (n : Bound) (now : string) (d : Database) :
  count_consistent d -> count_consistent (updated k email old new n now d).
Proof.
  intros Hd e' Hin. rewrite rsvp_count_updated.
  unfold updated in Hin; simpl in Hin.
  apply in_bump in Hin. destruct Hin as [e1 [Hin [Hid1 Hsum1]]].
  apply in_bump in Hin. destruct Hin as [e [Hin [Hid Hsum]]].
  rewrite (event_matches_id k e e1 Hid) in Hsum1.
  rewrite Hid1, Hid, <- (Hd e Hin).
  destruct (event_matches k e); lia.
Qed.

Lemma count_consistent_inserted (k : Z) (email : string) (new : ResponseStatus)
    (n : Bound) (now : string) (d : Database) :
  count_consistent d -> count_consistent (inserted k email new n now d).
Proof.
  intros Hd e' Hin. rewrite rsvp_count_inserted.
  unfold inserted in Hin; simpl in Hin.
  apply in_bump in Hin. destruct Hin as [e [Hin [Hid Hsum]]].
  rewrite Hid, <- (Hd e Hin), Hsum. reflexivity.
Qed.

Lemma outcome_count_consistent (n : Js.Number)
    (body : Attendees.CreateAttendeeRequestBody) (now : string)
    (d : Database) (r : Response) (d' : Database) :
  Outcome n body now d r d' -> count_consistent d -> count_consistent d'.
Proof.
  intros H Hd. inversion H; subst; auto using count_consistent_updated,
    count_consistent_inserted.
Qed.

Lemma after_submitResponse (n : Js.Number)
    (body : Attendees.CreateAttendeeRequestBody) (now : string) (d : Database) :
  Outcome n body now d (response (Attendees.submitResponse n body now) d)
    (after (Attendees.submitResponse n body now) d).
Proof.
  destruct (submitResponse_outcome n body now d) as [r [d' [Hrun Hout]]].
  unfold response, after. rewrite Hrun. exact Hout.
Qed.

End CountConsistency.

(** ** The rows of a pair: upsert and uniqueness *)

Section Uniqueness.

Import Sqlite Http Rsvp.

Lemma attendee_matches_key (k : Z) (email : string) (a : Attendee) :
  attendee_matches (Some k) (Some email) a = true <-> rsvp_key a = (k, email).
Proof.
  unfold attendee_matches, rsvp_key, key_matches, text_matches.
  rewrite andb_true_iff, Z.eqb_eq, String.eqb_eq.
  split; [intros [-> ->]; reflexivity | intro H; inversion H; auto].
Qed.

Lemma find_map_update {A} (p : A -> bool) (f : A -> A) (l : list A) :
  (forall a, p (f a) = p a) ->
  find p (map (fun a => if p a then f a else a) l) = option_map f (find p l).
Proof.
  intro H. induction l as [|a l IH]; simpl; [reflexivity|].
  destruct (p a) eqn:Hp.
  - rewrite H, Hp. reflexivity.
  - rewrite Hp. exact IH.
Qed.

Lemma find_app_none {A} (p : A -> bool) (l : list A) (x : A) :
  find p l = None -> find p (l ++ [x]) = if p x then Some x else None.
Proof.
  induction l as [|a l IH]; simpl; [reflexivity|].
  destruct (p a); [discriminate | exact IH].
Qed.

Lemma rsvp_of_updated (k : Z) (email : string) (old new : ResponseStatus)
    (n : Bound) (now : string) (d : Database) (row : Attendee) :
  rsvp_of d k email = Some row ->
  rsvp_of (updated (Some k) email old new n now d) k email
  = Some (Attendees.set_response new n now row).
Proof.
  unfold rsvp_of, updated; simpl. intro H.
  rewrite (find_map_update (attendee_matches (Some k) (Some email))
             (Attendees.set_response new n now)), H by reflexivity.
  reflexivity.
Qed.

Lemma rsvp_of_inserted (k : Z) (email : string) (new : ResponseStatus)
    (n : Bound) (now : string) (d : Database) :
  rsvp_of d k email = None ->
  exists row, rsvp_of (inserted k email new n now d) k email = Some row
              /\ responseStatus row = new.
Proof.
  unfold rsvp_of, inserted; simpl. intro H.
  rewrite find_app_none by exact H.
  unfold attendee_matches, key_matches, text_matches; simpl.
  rewrite Z.eqb_refl, String.eqb_refl. simpl. eexists; split; reflexivity.
Qed.

Lemma unique_rsvp_updated (k : option Z) (email : string) (old new : ResponseStatus)
    (n : Bound) (now : string) (d : Database) :
  unique_rsvp d -> unique_rsvp (updated k email old new n now d).
Proof.
  unfold unique_rsvp, updated; simpl. rewrite map_map.
  erewrite map_ext; [intro H; exact H|].
  intro a. cbv beta. destruct (attendee_matches k (Some email) a); reflexivity.
Qed.

Lemma unique_rsvp_inserted (k : Z) (email : string) (new : ResponseStatus)
    (n : Bound) (now : string) (d : Database) :
  rsvp_of d k email = None ->
  unique_rsvp d -> unique_rsvp (inserted k email new n now d).
Proof.
  unfold unique_rsvp, rsvp_of, inserted; simpl. intros Hnone Hd.
  rewrite map_app; simpl.
  apply NoDup_app; [exact Hd | repeat constructor; intros [] |].
  intros key Hin [<-|[]]. apply in_map_iff in Hin.
  destruct Hin as [a [Hkey Hin]].
  change (rsvp_key a = (k, email)) in Hkey.
  apply attendee_matches_key in Hkey.
  apply (find_none _ _ Hnone) in Hin. congruence.
Qed.


(** Under the uniqueness invariant a pair has at most one row. *)
Lemma unique_rsvp_at_most_one (d : Database) (k : Z) (email : string) :
  unique_rsvp d -> (List.length (rsvps_of_pair d k email) <= 1)%nat.
Proof.
  unfold unique_rsvp, rsvps_of_pair.
  induction (eventAttendees d) as [|a l IH]; simpl; [lia|].
  intro H. inversion H as [|x xs Hnotin Hnodup]; subst.
  destruct (attendee_matches (Some k) (Some email) a) eqn:Ha; [|auto].
  simpl. apply attendee_matches_key in Ha.
  destruct (filter (attendee_matches (Some k) (Some email)) l) as [|b rest] eqn:Hf;
    [simpl; lia|].
  exfalso. apply Hnotin.
  assert (Hb : In b (filter (attendee_matches (Some k) (Some email)) l))
    by (rewrite Hf; left; reflexivity).
  apply filter_In in Hb. destruct Hb as [Hin Hb].
  apply attendee_matches_key in Hb.
  rewrite Ha, <- Hb. apply in_map. exact Hin.
Qed.


(** A call that answered 200 or 201 leaves the row of its pair, with the
    status it resolved. *)
Lemma outcome_success_row (n : Js.Number)
    (body : Attendees.CreateAttendeeRequestBody) (now : string)
    (d : Database) (r : Response) (d' : Database) :
  Outcome n body now d r d' ->
  code r = 200 \/ code r = 201 ->
  exists k email s row,
    Js.as_integer n = Some k
    /\ Attendees.attendeeEmail body = Js.Str email
    /\ resolved_status body = Some s
    /\ rsvp_of d' k email = Some row
    /\ responseStatus row = s.
Proof.
  intros H Hcode. inversion H; subst; simpl in Hcode;
    try (destruct Hcode; discriminate).
  - destruct (rsvp_of_inserted k email s b now d) as [row [Hrow Hs]]; [assumption|].
    exists k, email, s, row. auto.
  - exists k, email, s, (Attendees.set_response s b now row).
    repeat split; try assumption.
    apply rsvp_of_updated. assumption.
Qed.

Lemma add_counter_cancel (s : ResponseStatus) (e : Event) :
  add_counter s 1 (add_counter s (-1) e) = e.
Proof.
  destruct e, s; cbv -[Z.add]; f_equal; lia.
Qed.

Lemma bump_cancel (s : ResponseStatus) (k : option Z) (rows : list Event) :
  bump s 1 k (bump s (-1) k rows) = rows.
Proof.
  unfold bump. rewrite map_map. rewrite <- (map_id rows) at 2.
  apply map_ext. intro e.
  destruct (event_matches k e) eqn:He.
  - rewrite (event_matches_id k e (add_counter s (-1) e)), He
      by apply id_add_counter.
    apply add_counter_cancel.
  - rewrite He. reflexivity.
Qed.

End Uniqueness.

(** ** The claims on the RSVP upsert engine *)

Section UpsertEngine.

Import Sqlite Http Rsvp.

Lemma submit_all_count_consistent (subs : list Submission) (d : Database) :
  count_consistent d -> count_consistent (submit_all subs d).
Proof.
  revert d. induction subs as [|s subs IH]; intros d Hd; simpl; [exact Hd|].
  apply IH. eapply outcome_count_consistent; [apply after_submitResponse | exact Hd].
Qed.

(** C1. Count consistency: in a store where the four counters of every
    event add up to the number of its RSVP rows, they still do after any
    call of the handler (whatever it answers, so after every successful
    one), and after any sequence of calls. *)
Theorem count_consistency_preserved (d : Database) :
  count_consistent d ->
  (forall eventId body now e,
      In e (events (after (Attendees.submitResponse eventId body now) d)) ->
      attendingCount e + notAttendingCount e + maybeCount e + pendingCount e
      = Z.of_nat (List.length
                    (rsvps_of_event
                       (after (Attendees.submitResponse eventId body now) d) (id e))))
  /\ (forall subs, count_consistent (submit_all subs d)).
Proof.
  intro Hd. split.
  - intros eventId body now.
    apply (outcome_count_consistent _ _ _ _ _ _ (after_submitResponse eventId body now d) Hd).
  - intro subs. apply submit_all_count_consistent, Hd.
Qed.

Lemma count_consistency_preserved_witness :
  count_consistent
    (submit_all
       [{| to_event := Js.integer 1;
           form := Examples.answer "b@x.com" (Js.Str "Attending");
           at_time := "2025-08-02 10:00:00" |};
        {| to_event := Js.integer 1;
           form := Examples.answer "d@x.com" (Js.Str "Maybe");
           at_time := "2025-08-02 11:00:00" |}]
       Examples.one_event).
Proof.
  apply (count_consistency_preserved Examples.one_event).
  intros e [<-|[]]. reflexivity.
Defined.

(** What a call that passed validation and bound its note leaves for its
    pair: nothing (and then no event either), or a row with the status it
    resolved. *)
Lemma outcome_pair (n : Js.Number) (body : Attendees.CreateAttendeeRequestBody)
    (now : string) (d : Database) (r : Response) (d' : Database)
    (k : Z) (email : string) (b : Bound) :
  Outcome n body now d r d' ->
  passes_validation n body = true ->
  Js.as_integer n = Some k ->
  Attendees.attendeeEmail body = Js.Str email ->
  bound_notes body = inr b ->
  (rsvp_of d' k email = None /\ event_of d' k = None)
  \/ (exists row, rsvp_of d' k email = Some row
                  /\ resolved_status body = Some (responseStatus row)).
Proof.
  intros H Hv Hk He Hb. inversion H; subst; try congruence.
  - left. unfold rsvp_of, event_of. rewrite Hk in *.
    assert (email0 = email) by congruence. subst email0. auto.
  - right. assert (k0 = k) by congruence. assert (email0 = email) by congruence.
    subst k0 email0.
    destruct (rsvp_of_inserted k email s b0 now d) as [row [Hrow Hs]]; [assumption|].
    exists row. split; [exact Hrow | congruence].
  - right. assert (k0 = k) by congruence. assert (email0 = email) by congruence.
    subst k0 email0. eexists. split; [apply rsvp_of_updated; eassumption|].
    assumption.
Qed.

Lemma resubmit_events (n : Js.Number) (body : Attendees.CreateAttendeeRequestBody)
    (now1 now2 : string) (d d1 d2 : Database) (r1 r2 : Response) :
  Outcome n body now1 d r1 d1 ->
  Outcome n body now2 d1 r2 d2 ->
  events d2 = events d1.
Proof.
  intros H1 H2. inversion H2; subst; try reflexivity.
  - destruct (outcome_pair _ _ _ _ _ _ k email b H1) as [[Hnone Hev]|[row [Hrow _]]];
      try assumption; congruence.
  - destruct (outcome_pair _ _ _ _ _ _ k email b H1) as [[Hnone Hev]|[row' [Hrow Hs]]];
      try assumption; [congruence|].
    assert (row' = row) by congruence. subst row'.
    assert (responseStatus row = s) by congruence. subst s.
    unfold updated; simpl. apply bump_cancel.
Qed.

Lemma resubmit_events_after_success (n : Js.Number)
    (body : Attendees.CreateAttendeeRequestBody) (notes2 : Js.Value)
    (now1 now2 : string) (d d1 d2 : Database) (r1 r2 : Response) :
  Outcome n body now1 d r1 d1 ->
  code r1 = 200 \/ code r1 = 201 ->
  Outcome n (with_notes body notes2) now2 d1 r2 d2 ->
  events d2 = events d1.
Proof.
  intros H1 Hcode H2.
  destruct (outcome_success_row _ _ _ _ _ _ H1 Hcode)
    as [k [email [s [row [Hk [He [Hs [Hrow Hstatus]]]]]]]].
  inversion H2 as [error Hv' | email0 _ He0 Hnone _ | e _ Hb'
                   | k0 email0 s0 b0 ev _ Hk0 He0 _ _ Hnone _
                   | k0 email0 s0 b0 row0 _ Hk0 He0 Hs0 _ Hrow0 ]; subst;
    try reflexivity.
  - exfalso. assert (k0 = k) by congruence.
    assert (email0 = email) by (simpl in He0; congruence).
    subst k0 email0. congruence.
  - assert (k0 = k) by congruence.
    assert (email0 = email) by (simpl in He0; congruence).
    subst k0 email0.
    assert (row0 = row) by congruence. subst row0.
    assert (s0 = responseStatus row).
    { change (resolved_status (with_notes body notes2)) with (resolved_status body) in Hs0.
      congruence. }
    subst s0. unfold updated; simpl. apply bump_cancel.
Qed.

(** C2. Idempotence: the same submission made twice in a row (the same
    event, address, status and note, at two times) leaves the [events]
    table after the second call as it was after the first: every event
    keeps its four counters. When the first call answered 200 or 201, the
    second may carry any other note. *)
Theorem resubmission_keeps_counters (d : Database) (eventId : Js.Number)
    (body : Attendees.CreateAttendeeRequestBody) (now1 now2 : string) :
  let first := Attendees.submitResponse eventId body now1 in
  let d1 := after first d in
  let d2 := after (Attendees.submitResponse eventId body now2) d1 in
  events d2 = events d1
  /\ (forall k, option_map counters (event_of d2 k) = option_map counters (event_of d1 k))
  /\ (code (response first d) = 200 \/ code (response first d) = 201 ->
      forall notes2,
        events (after (Attendees.submitResponse eventId (with_notes body notes2) now2) d1)
        = events d1).
Proof.
  cbv zeta.
  assert (H : events (after (Attendees.submitResponse eventId body now2)
                        (after (Attendees.submitResponse eventId body now1) d))
              = events (after (Attendees.submitResponse eventId body now1) d)).
  { apply (resubmit_events eventId body now1 now2 d _ _ _ _
             (after_submitResponse eventId body now1 d)
             (after_submitResponse eventId body now2 _)). }
  split; [exact H|]. split.
  - intro k. unfold event_of. rewrite H. reflexivity.
  - intros Hcode notes2.
    apply (resubmit_events_after_success eventId body notes2 now1 now2 d _ _ _ _
             (after_submitResponse eventId body now1 d) Hcode
             (after_submitResponse eventId (with_notes body notes2) now2 _)).
Qed.

Lemma well_formed_inv (n : Js.Number) (body : Attendees.CreateAttendeeRequestBody) :
  well_formed n body = true ->
  passes_validation n body = true /\ exists b, bound_notes body = inr b.
Proof.
  unfold well_formed. intro H. apply andb_prop in H. destruct H as [Hv Hb].
  split; [exact Hv|]. destruct (bound_notes body); [discriminate | eauto].
Qed.

Lemma bound_notes_stored (body : Attendees.CreateAttendeeRequestBody) (b : Bound) :
  bound_notes body = inr b -> stores_note body (text_affinity b).
Proof.
  unfold bound_notes, Js.or, stores_note. intro Hb.
  destruct (Attendees.notes body) as [| |flag|n|t] eqn:Hnotes.
  - cbn in Hb. inversion Hb; subst b.
    split; [reflexivity|]. split; discriminate.
  - cbn in Hb. inversion Hb; subst b.
    split; [reflexivity|]. split; discriminate.
  - destruct flag; cbn in Hb; [discriminate|]. inversion Hb; subst b.
    split; [reflexivity|]. split; discriminate.
  - destruct (Js.truthy (Js.Num n)) eqn:Htruthy; cbn in Hb; inversion Hb; subst b.
    + split; [discriminate|]. split; [discriminate|].
      intros n0 Hn0 _. inversion Hn0; subst n0.
      destruct n as [|negative|q]; cbn in Htruthy; [discriminate| |].
      * cbn. eexists; reflexivity.
      * cbn. destruct (Qnum q); eexists; reflexivity.
    + split; [reflexivity|]. split; [discriminate|].
      intros n0 Hn0 Hyes. inversion Hn0; subst n0. congruence.
  - destruct (Js.truthy (Js.Str t)) eqn:Htruthy; cbn in Hb; inversion Hb; subst b.
    + split; [discriminate|]. split; [|discriminate].
      intros t0 Ht0 _. inversion Ht0. reflexivity.
    + split; [reflexivity|]. split; [|discriminate].
      intros t0 Ht0 Hne. inversion Ht0; subst t0. cbn in Htruthy.
      apply negb_false_iff, String.eqb_eq in Htruthy. contradiction.
Qed.

Lemma outcome_rewrites_row (n : Js.Number) (body : Attendees.CreateAttendeeRequestBody)
    (now : string) (d : Database) (r : Response) (d' : Database)
    (k : Z) (email : string) (row : Attendee) :
  Outcome n body now d r d' ->
  well_formed n body = true ->
  Js.as_integer n = Some k ->
  Attendees.attendeeEmail body = Js.Str email ->
  rsvp_of d k email = Some row ->
  r = response_updated
  /\ exists row' s,
      rsvp_of d' k email = Some row'
      /\ resolved_status body = Some s
      /\ att_id row' = att_id row
      /\ eventId row' = eventId row
      /\ attendeeEmail row' = attendeeEmail row
      /\ att_created_at row' = att_created_at row
      /\ responseStatus row' = s
      /\ rsvpDate row' = now
      /\ stores_note body (notes row').
Proof.
  intros H Hwf Hk He Hrow.
  destruct (well_formed_inv _ _ Hwf) as [Hv [b Hb]].
  inversion H as [error Hv' | email0 _ He0 Hnone _ | e _ Hb'
                  | k0 email0 s0 b0 ev0 _ Hk0 He0 _ _ Hnone _
                  | k0 email0 s0 b0 row0 _ Hk0 He0 Hs0 Hb0 Hrow0 ]; subst.
  - congruence.
  - exfalso. rewrite Hk in Hnone. assert (email0 = email) by congruence.
    subst email0. unfold rsvp_of in Hrow. congruence.
  - congruence.
  - exfalso. assert (k0 = k) by congruence. assert (email0 = email) by congruence.
    subst k0 email0. congruence.
  - assert (k0 = k) by congruence. assert (email0 = email) by congruence.
    subst k0 email0. assert (row0 = row) by congruence. subst row0.
    split; [reflexivity|].
    exists (Attendees.set_response s0 b0 now row), s0.
    split; [apply rsvp_of_updated; assumption|].
    split; [assumption|].
    cbn [Attendees.set_response att_id eventId attendeeEmail att_created_at
         responseStatus rsvpDate notes].
    repeat (split; [reflexivity|]).
    apply bound_notes_stored. assumption.
Qed.





Lemma counter_add_counter (s s' : ResponseStatus) (delta : Z) (e : Event) :
  counter s (add_counter s' delta e)
  = counter s e + (if ResponseStatus_eqb s s' then delta else 0).
Proof. destruct s, s'; simpl; lia. Qed.

Lemma event_of_updated (k : Z) (email : string) (old new : ResponseStatus)
    (n : Bound) (now : string) (d : Database) (ev : Event) :
  event_of d k = Some ev ->
  event_of (updated (Some k) email old new n now d) k
  = Some (add_counter new 1 (add_counter old (-1) ev)).
Proof.
  unfold event_of, updated, bump; simpl. intro H.
  rewrite (find_map_update (event_matches (Some k)) (add_counter new 1))
    by (intro e; apply event_matches_id, id_add_counter).
  rewrite (find_map_update (event_matches (Some k)) (add_counter old (-1))), H
    by (intro e; apply event_matches_id, id_add_counter).
  reflexivity.
Qed.

(** C4. Transition correctness: a well-formed call for a pair that has a
    row, on an event that exists, answers 200 and moves one unit from the
    counter of the row's old status to the counter of the new one; the
    other counters keep their values. *)
Theorem status_change_moves_one_unit (d : Database) (eventId : Js.Number)
    (body : Attendees.CreateAttendeeRequestBody) (now : string)
    (k : Z) (email : string) (row : Attendee) (ev : Event) (new : ResponseStatus) :
  well_formed eventId body = true ->
  Js.as_integer eventId = Some k ->
  Attendees.attendeeEmail body = Js.Str email ->
  resolved_status body = Some new ->
  rsvp_of d k email = Some row ->
  event_of d k = Some ev ->
  response (Attendees.submitResponse eventId body now) d = response_updated
  /\ exists ev',
      event_of (after (Attendees.submitResponse eventId body now) d) k = Some ev'
      /\ forall s,
          counter s ev'
          = counter s ev
            - (if ResponseStatus_eqb s (responseStatus row) then 1 else 0)
            + (if ResponseStatus_eqb s new then 1 else 0).
Proof.
  intros Hwf Hk He Hnew Hrow Hev.
  destruct (well_formed_inv _ _ Hwf) as [Hv [b Hb]].
  pose proof (after_submitResponse eventId body now d) as H.
  inversion H as [error Hv' | email0 _ He0 Hnone _ | e _ Hb'
                  | k0 email0 s0 b0 ev0 _ Hk0 He0 _ _ Hnone _
                  | k0 email0 s0 b0 row0 _ Hk0 He0 Hs0 _ Hrow0 Hr Hd ].
  - congruence.
  - exfalso. rewrite Hk in Hnone. assert (email0 = email) by congruence.
    subst email0. unfold rsvp_of in Hrow. congruence.
  - congruence.
  - exfalso. assert (k0 = k) by congruence. assert (email0 = email) by congruence.
    subst k0 email0. congruence.
  - assert (k0 = k) by congruence. assert (email0 = email) by congruence.
    assert (s0 = new) by congruence. subst k0 email0 s0.
    assert (row0 = row) by congruence. subst row0.
    split; [reflexivity|].
    eexists. split; [apply event_of_updated; exact Hev|].
    intro s. rewrite !counter_add_counter.
    destruct (ResponseStatus_eqb s (responseStatus row)),
      (ResponseStatus_eqb s new); lia.
Qed.

(** The example of the claim: counters [{Attending:1, Pending:2}], one
    attendee from Pending to Attending, counters [{Attending:2, Pending:1}]. *)
Lemma status_change_moves_one_unit_witness :
  option_map counters
    (event_of
       (after (Attendees.submitResponse (Js.integer 1)
                 (Examples.answer "b@x.com" (Js.Str "Attending"))
                 "2025-08-02 10:00:00") Examples.one_event) 1)
  = Some (2, 0, 0, 1).
Proof.
  destruct (status_change_moves_one_unit Examples.one_event (Js.integer 1)
              (Examples.answer "b@x.com" (Js.Str "Attending"))
              "2025-08-02 10:00:00" 1 "b@x.com"
              (Examples.rsvp 2 "b@x.com" Pending) Examples.meetup Attending
              eq_refl eq_refl eq_refl eq_refl eq_refl eq_refl)
    as [_ [ev' [Hev Hcount]]].
  pose proof (Hcount Attending) as HA. pose proof (Hcount NotAttending) as HN.
  pose proof (Hcount Maybe) as HM. pose proof (Hcount Pending) as HP.
  cbn in HA, HN, HM, HP.
  rewrite Hev. unfold option_map, counters. rewrite HA, HN, HM, HP.
  reflexivity.
Defined.

Lemma no_rsvp_find (d : Database) (n : Js.Number) (email : string) :
  no_rsvp_for d n (Js.Str email) ->
  find (attendee_matches (Js.as_integer n) (Some email)) (eventAttendees d) = None.
Proof.
  unfold no_rsvp_for. intro H.
  destruct (find _ _) as [a|] eqn:Hfind; [|reflexivity].
  exfalso. apply find_some in Hfind. destruct Hfind as [Hin Hm].
  apply (H a Hin).
  destruct (Js.as_integer n) as [k|]; [|discriminate].
  apply attendee_matches_key in Hm. inversion Hm. auto.
Qed.

Lemma no_event_find (d : Database) (n : Js.Number) :
  no_event_for d n ->
  find (event_matches (Js.as_integer n)) (events d) = None.
Proof.
  unfold no_event_for. intro H.
  destruct (find _ _) as [e|] eqn:Hfind; [|reflexivity].
  exfalso. apply find_some in Hfind. destruct Hfind as [Hin Hm].
  apply (H e Hin).
  unfold event_matches, key_matches in Hm.
  destruct (Js.as_integer n) as [k|]; [|discriminate].
  apply Z.eqb_eq in Hm. congruence.
Qed.

(** C5, as the code has it. A call that passes the validation, for a pair
    without a row and an event that does not exist, answers 404 and
    leaves the database as it was; and whatever the call, an answer other
    than 200 and 201 leaves the database, every counter and every row, as
    it was, with no transaction left open. A call that fails the
    validation is answered 400 before any lookup: the answer is the same
    on every database, and the database is left as it was. *)
Theorem not_found_rolls_back (d : Database) (eventId : Js.Number)
    (body : Attendees.CreateAttendeeRequestBody) (now : string) :
  let call := Attendees.submitResponse eventId body now in
  (passes_validation eventId body = true ->
   no_rsvp_for d eventId (Attendees.attendeeEmail body) ->
   no_event_for d eventId ->
   response call d = event_not_found eventId /\ after call d = d)
  /\ (code (response call d) <> 200 -> code (response call d) <> 201 ->
      after call d = d)
  /\ snd (serve call (idle d)) = idle (after call d)
  /\ (passes_validation eventId body = false ->
      code (response call d) = 400
      /\ after call d = d
      /\ forall d0, response call d0 = response call d).
Proof.
  cbv zeta.
  assert (Hrefuse : passes_validation eventId body = false ->
            code (response (Attendees.submitResponse eventId body now) d) = 400
            /\ after (Attendees.submitResponse eventId body now) d = d
            /\ forall d0, response (Attendees.submitResponse eventId body now) d0
                          = response (Attendees.submitResponse eventId body now) d).
  { intro Hv. destruct (submitResponse_refuses eventId body now Hv) as [error Hrun].
    unfold response, after, serve. rewrite Hrun.
    split; [reflexivity|]. split; [reflexivity|].
    intro d0. rewrite Hrun. reflexivity. }
  destruct (submitResponse_outcome eventId body now d) as [r [d' [Hrun Hout]]].
  split; [|split; [|split; [|exact Hrefuse]]];
    clear Hrefuse; unfold response, after; rewrite Hrun; simpl; [| |reflexivity].
  - intros Hv Hrow Hev.
    destruct (validated_email _ _ Hv) as [email He]. rewrite He in Hrow.
    apply no_rsvp_find in Hrow. apply no_event_find in Hev.
    inversion Hout as [error Hv' | email0 _ He0 Hnone _ | e _ Hb'
                       | k0 email0 s0 b0 ev0 _ Hk0 He0 _ _ Hnone Hev0
                       | k0 email0 s0 b0 row0 _ Hk0 He0 Hs0 _ Hrow0 ]; subst.
    + congruence.
    + auto.
    + exfalso. revert Hrun. unfold serve.
      destruct (validated_status _ _ Hv) as [s [Hs _]].
      rewrite (submitResponse_valid eventId body now email s Hv He Hs), upsert_run,
        Hrow, Hev.
      destruct (Js.as_integer eventId); discriminate.
    + exfalso. unfold event_of in Hev0. rewrite Hk0 in Hev. congruence.
    + exfalso. assert (email0 = email) by congruence. subst email0.
      unfold rsvp_of in Hrow0. rewrite Hk0 in Hrow. congruence.
  - intros H200 H201. inversion Hout; subst; simpl in *; congruence.
Qed.

Lemma not_found_rolls_back_witness :
  response (Attendees.submitResponse (Js.integer 7)
              (Examples.answer "a@x.com" (Js.Str "Attending"))
              "2025-08-02 10:00:00") Examples.one_event
  = event_not_found (Js.integer 7)
  /\ after (Attendees.submitResponse (Js.integer 7)
              (Examples.answer "a@x.com" (Js.Str "Attending"))
              "2025-08-02 10:00:00") Examples.one_event
     = Examples.one_event.
Proof.
  apply (not_found_rolls_back Examples.one_event (Js.integer 7)
           (Examples.answer "a@x.com" (Js.Str "Attending")) "2025-08-02 10:00:00").
  - reflexivity.
  - intros a Hin [Hk _]. simpl in Hin.
    destruct Hin as [<-|[<-|[<-|[]]]]; discriminate Hk.
  - intros e [<-|[]]. discriminate.
Defined.

(** C5, as the claim words it, fails: no row and no event do not make the
    answer 404 when the request does not pass the validation. Event 0 does
    not exist and the answer is 400; event 7 does not exist, the address
    is malformed and the answer is 400. *)
Lemma not_found_after_validation_only :
  (no_rsvp_for Examples.one_event (Js.integer 0) (Js.Str "a@x.com")
   /\ no_event_for Examples.one_event (Js.integer 0)
   /\ response (Attendees.submitResponse (Js.integer 0)
                  (Examples.answer "a@x.com" (Js.Str "Attending"))
                  "2025-08-02 10:00:00") Examples.one_event
      = {| code := 400; body := ErrorBody "Invalid Event ID provided." None |}
   /\ code (response (Attendees.submitResponse (Js.integer 0)
                        (Examples.answer "a@x.com" (Js.Str "Attending"))
                        "2025-08-02 10:00:00") Examples.one_event) <> 404)
  /\ (no_rsvp_for Examples.one_event (Js.integer 7) (Js.Str "nobody")
      /\ no_event_for Examples.one_event (Js.integer 7)
      /\ response (Attendees.submitResponse (Js.integer 7)
                     (Examples.answer "nobody" (Js.Str "Attending"))
                     "2025-08-02 10:00:00") Examples.one_event
         = {| code := 400; body := ErrorBody "Invalid email format." None |}
      /\ code (response (Attendees.submitResponse (Js.integer 7)
                           (Examples.answer "nobody" (Js.Str "Attending"))
                           "2025-08-02 10:00:00") Examples.one_event) <> 404).
Proof.
  split; (split; [|split; [|split; [reflexivity | discriminate]]]).
  - intros a Hin [Hk _]. simpl in Hin.
    destruct Hin as [<-|[<-|[<-|[]]]]; discriminate Hk.
  - intros e [<-|[]]. discriminate.
  - intros a Hin [Hk _]. simpl in Hin.
    destruct Hin as [<-|[<-|[<-|[]]]]; discriminate Hk.
  - intros e [<-|[]]. discriminate.
Qed.

Lemma falsy_status_passes (v : Js.Value) :
  Js.truthy v = false ->
  Js.truthy v && negb (Js.includes Attendees.allowedStatuses v) = false
  /\ Js.or v (Js.Str "Pending") = Js.Str "Pending".
Proof. intro H. unfold Js.or. rewrite H. split; reflexivity. Qed.

(** C10. A falsy [responseStatus], the empty string among them, is not
    answered with the 400 of an invalid status: the handler does exactly
    what it does when the field is left out, the status it resolves is
    [Pending], and a call that answers 200 or 201 leaves the row of its
    pair with status [Pending]. *)
Theorem falsy_status_defaults_to_pending (d : Database) (eventId : Js.Number)
    (body : Attendees.CreateAttendeeRequestBody) (now : string) :
  Js.truthy (Attendees.responseStatus body) = false ->
  let call := Attendees.submitResponse eventId body now in
  call = Attendees.submitResponse eventId (unspecified body) now
  /\ response call d <> invalid_status
  /\ resolved_status body = Some Pending
  /\ (code (response call d) = 200 \/ code (response call d) = 201 ->
      exists k email row,
        Js.as_integer eventId = Some k
        /\ Attendees.attendeeEmail body = Js.Str email
        /\ rsvp_of (after call d) k email = Some row
        /\ responseStatus row = Pending).
Proof.
  intros Hfalsy. cbv zeta.
  destruct (falsy_status_passes _ Hfalsy) as [Hcheck Hfinal].
  assert (Hres : resolved_status body = Some Pending).
  { unfold resolved_status, finalResponseStatus. rewrite Hfinal. reflexivity. }
  split; [|split; [|split; [exact Hres|]]].
  - unfold Attendees.submitResponse, unspecified.
    cbn [Attendees.responseStatus Attendees.attendeeEmail Attendees.notes].
    rewrite Hcheck, Hfinal. reflexivity.
  - intro Heq.
    pose proof (after_submitResponse eventId body now d) as Hout.
    destruct (passes_validation eventId body) eqn:Hv.
    + rewrite Heq in Hout.
      inversion Hout; subst; try congruence; discriminate.
    + revert Heq. unfold passes_validation in Hv. rewrite Hcheck in Hv.
      unfold response, serve, Attendees.submitResponse. rewrite Hcheck.
      destruct (Js.isNaN eventId || Js.le0 eventId);
        [intro Heq; apply (f_equal Http.body) in Heq; vm_compute in Heq; discriminate|].
      destruct (Js.truthy (Attendees.attendeeEmail body));
        [|intro Heq; apply (f_equal Http.body) in Heq; vm_compute in Heq; discriminate].
      destruct (Js.test_with_at Attendees.email_format (Attendees.attendeeEmail body));
        [|intro Heq; apply (f_equal Http.body) in Heq; vm_compute in Heq; discriminate].
      discriminate Hv.
  - intro Hcode.
    destruct (outcome_success_row _ _ _ _ _ _ (after_submitResponse eventId body now d) Hcode)
      as [k [email [s [row [Hk [He [Hs [Hrow Hstatus]]]]]]]].
    exists k, email, row. repeat split; try assumption. congruence.
Qed.

(** The empty string as status, for an attendee without a row: answered
    201, and the row is [Pending]. *)
Lemma falsy_status_defaults_to_pending_witness :
  let call := Attendees.submitResponse (Js.integer 1)
                (Examples.answer "d@x.com" (Js.Str "")) "2025-08-02 10:00:00" in
  response call Examples.one_event = response_recorded
  /\ exists row, rsvp_of (after call Examples.one_event) 1 "d@x.com" = Some row
                 /\ responseStatus row = Pending.
Proof.
  cbv zeta. split; [reflexivity|].
  destruct (falsy_status_defaults_to_pending Examples.one_event (Js.integer 1)
              (Examples.answer "d@x.com" (Js.Str "")) "2025-08-02 10:00:00" eq_refl)
    as [_ [_ [_ Hrow]]].
  destruct Hrow as [k [email [row [Hk [He [Hrow Hs]]]]]]; [right; reflexivity|].
  exists row. inversion Hk. inversion He. subst k email. split; assumption.
Defined.

End UpsertEngine.

(** ** The claims on the event store and on the lifecycle *)

Section EventStore.

Import Sqlite Http Rsvp.

Lemma not_positive_integer_spec (v : Js.Value) :
  ~ positive_integer v -> Server.not_positive_integer v = true.
Proof.
  intro H. destruct v as [| |b|n|s]; try reflexivity.
  destruct n as [|neg|q]; [reflexivity | destruct neg; reflexivity |].
  unfold Server.not_positive_integer, Js.le0, Js.isInteger, Js.as_integer.
  destruct (Z.leb_spec (Qnum q) 0) as [Hle|Hlt]; [reflexivity|].
  destruct (Z.eqb_spec (Qnum q mod Z.pos (Qden q)) 0) as [Hmod|Hmod]; [|reflexivity].
  exfalso. apply H. exists q, (Qnum q / Z.pos (Qden q)).
  split; [reflexivity|].
  pose proof (Z.div_mod (Qnum q) (Z.pos (Qden q))) as Hdm.
  assert (Hq : Qnum q = Z.pos (Qden q) * (Qnum q / Z.pos (Qden q))) by lia.
  split; [|lia].
  destruct (Z.ltb_spec 0 (Qnum q / Z.pos (Qden q))); [assumption|nia].
Qed.

Lemma createEvent_rejects (body : Server.CreateEventRequestBody) (now : string)
    (d : Database) :
  missing (Server.creatorEmail body) \/ missing (Server.eventName body)
  \/ missing (Server.description body) \/ missing (Server.targetedAttendees body)
  \/ missing (Server.eventDate body) \/ missing (Server.eventStartTime body)
  \/ missing (Server.eventEndTime body)
  \/ ~ positive_integer (Server.targetedAttendees body) ->
  exists error,
    serve (Server.createEvent body now) (idle d)
    = ({| code := 400; body := ErrorBody error None |}, idle d).
Proof.
  unfold missing, Server.createEvent. intro H.
  destruct (negb (Js.truthy (Server.creatorEmail body))
            || negb (Js.truthy (Server.eventName body))
            || negb (Js.truthy (Server.description body))
            || Server.is_undefined (Server.targetedAttendees body)
            || negb (Js.truthy (Server.eventDate body))
            || negb (Js.truthy (Server.eventStartTime body))
            || negb (Js.truthy (Server.eventEndTime body))) eqn:Hmissing;
    [eexists; reflexivity|].
  destruct (negb (Js.is_string (Server.creatorEmail body))
            || negb (Js.is_string (Server.eventName body))
            || negb (Js.is_string (Server.description body))
            || negb (Js.is_string (Server.eventDate body))
            || negb (Js.is_string (Server.eventStartTime body))
            || negb (Js.is_string (Server.eventEndTime body)));
    [eexists; reflexivity|].
  destruct (Server.not_positive_integer (Server.targetedAttendees body)) eqn:Hpos;
    [eexists; reflexivity|].
  exfalso.
  repeat (apply orb_false_elim in Hmissing; destruct Hmissing as [Hmissing ?]).
  repeat (destruct H as [H|H]; [rewrite H in *; discriminate|]).
  apply not_positive_integer_spec in H. congruence.
Qed.

Lemma positive_integerb_inv (v : Js.Value) :
  positive_integerb v = true ->
  exists n z, v = Js.Num n /\ Js.as_integer n = Some z /\ 0 < z
              /\ Server.not_positive_integer v = false.
Proof.
  destruct v as [| |b|n|s]; try discriminate. simpl.
  destruct (Js.as_integer n) as [z|] eqn:Hz; [|discriminate].
  intro Hpos. apply Z.ltb_lt in Hpos. exists n, z.
  repeat split; try assumption.
  unfold Js.isInteger. rewrite Hz. simpl. rewrite orb_false_r.
  destruct n as [|neg|q]; try discriminate. simpl in *.
  destruct (Z.eqb_spec (Qnum q mod Z.pos (Qden q)) 0) as [Hmod|]; [|discriminate].
  inversion Hz; subst z.
  apply Z.leb_gt.
  destruct (Z.ltb_spec 0 (Qnum q)); [assumption|].
  assert (Qnum q / Z.pos (Qden q) <= 0); [|lia].
  apply Z.div_le_upper_bound; lia.
Qed.

Lemma nonempty_string_inv (v : Js.Value) :
  nonempty_string v = true ->
  exists s, v = Js.Str s /\ Js.truthy v = true /\ Js.is_string v = true.
Proof.
  destruct v as [| |b|n|s]; try discriminate. simpl. intro H.
  exists s. auto.
Qed.

Lemma valid_event_request_inv (body : Server.CreateEventRequestBody) :
  valid_event_request body = true ->
  exists creator name descr n targeted date starts ends,
    body = {| Server.creatorEmail := Js.Str creator;
              Server.eventName := Js.Str name;
              Server.description := Js.Str descr;
              Server.targetedAttendees := Js.Num n;
              Server.eventDate := Js.Str date;
              Server.eventStartTime := Js.Str starts;
              Server.eventEndTime := Js.Str ends |}
    /\ Js.as_integer n = Some targeted /\ 0 < targeted.
Proof.
  unfold valid_event_request. destruct body as [ce en de ta ed es ee]; simpl.
  intro H. repeat (apply andb_prop in H; destruct H as [H ?]).
  repeat match goal with
         | Hs : nonempty_string _ = true |- _ =>
             apply nonempty_string_inv in Hs; destruct Hs as [? [-> _]]
         | Hp : positive_integerb _ = true |- _ =>
             apply positive_integerb_inv in Hp;
             destruct Hp as [? [? [-> [? [? _]]]]]
         end.
  do 8 eexists. split; [reflexivity|]. split; eassumption.
Qed.

(** What the handler does with a valid request. *)
Lemma createEvent_accepts (body : Server.CreateEventRequestBody) (now : string)
    (d : Database) :
  valid_event_request body = true ->
  exists creator name descr n targeted date starts ends,
    body = {| Server.creatorEmail := Js.Str creator;
              Server.eventName := Js.Str name;
              Server.description := Js.Str descr;
              Server.targetedAttendees := Js.Num n;
              Server.eventDate := Js.Str date;
              Server.eventStartTime := Js.Str starts;
              Server.eventEndTime := Js.Str ends |}
    /\ Js.as_integer n = Some targeted /\ 0 < targeted
    /\ let e := created_event d creator name descr targeted date starts ends now in
       serve (Server.createEvent body now) (idle d)
       = ({| code := 201;
             body := CreatedBody "Event created successfully!" (id e) 1 |},
          idle (with_new_event e d)).
Proof.
  intro Hvalid.
  destruct (valid_event_request_inv body Hvalid)
    as [creator [name [descr [n [targeted [date [starts [ends [Hbody [Hn Hpos]]]]]]]]]].
  exists creator, name, descr, n, targeted, date, starts, ends.
  split; [exact Hbody|]. split; [exact Hn|]. split; [exact Hpos|].
  subst body. unfold valid_event_request in Hvalid.
  cbn [Server.creatorEmail Server.eventName Server.description
       Server.targetedAttendees Server.eventDate Server.eventStartTime
       Server.eventEndTime] in Hvalid.
  repeat (apply andb_prop in Hvalid; destruct Hvalid as [Hvalid ?]).
  repeat match goal with
         | Hs : nonempty_string _ = true |- _ =>
             apply nonempty_string_inv in Hs; destruct Hs as [? [_ [? _]]]
         | Hp : positive_integerb _ = true |- _ =>
             apply positive_integerb_inv in Hp;
             destruct Hp as [? [? [_ [_ [_ ?]]]]]
         end.
  cbv zeta. unfold Server.createEvent.
  cbn [Server.creatorEmail Server.eventName Server.description
       Server.targetedAttendees Server.eventDate Server.eventStartTime
       Server.eventEndTime].
  repeat match goal with Ht : Js.truthy _ = true |- _ => rewrite Ht; clear Ht end.
  match goal with Hp : Server.not_positive_integer _ = false |- _ => rewrite Hp end.
  cbn [negb orb Js.is_string Server.is_undefined].
  unfold serve, try_catch, Server.insert_events.
  change (prepare _ _) with (@ret unit tt).
  unfold bind, lift, read, ret, write.
  cbn [Server.creatorEmail Server.eventName Server.description
       Server.targetedAttendees Server.eventDate Server.eventStartTime
       Server.eventEndTime bind_value bound_text bound_integer].
  rewrite Hn. reflexivity.
Qed.

Lemma createEvent_rejected_or_valid (body : Server.CreateEventRequestBody)
    (now : string) (d : Database) :
  valid_event_request body = true
  \/ exists error,
      serve (Server.createEvent body now) (idle d)
      = ({| code := 400; body := ErrorBody error None |}, idle d).
Proof.
  unfold Server.createEvent.
  destruct (negb (Js.truthy (Server.creatorEmail body))
            || negb (Js.truthy (Server.eventName body))
            || negb (Js.truthy (Server.description body))
            || Server.is_undefined (Server.targetedAttendees body)
            || negb (Js.truthy (Server.eventDate body))
            || negb (Js.truthy (Server.eventStartTime body))
            || negb (Js.truthy (Server.eventEndTime body))) eqn:Hmissing;
    [right; eexists; reflexivity|].
  destruct (negb (Js.is_string (Server.creatorEmail body))
            || negb (Js.is_string (Server.eventName body))
            || negb (Js.is_string (Server.description body))
            || negb (Js.is_string (Server.eventDate body))
            || negb (Js.is_string (Server.eventStartTime body))
            || negb (Js.is_string (Server.eventEndTime body))) eqn:Htypes;
    [right; eexists; reflexivity|].
  destruct (Server.not_positive_integer (Server.targetedAttendees body)) eqn:Hpos;
    [right; eexists; reflexivity|].
  left.
  repeat (apply orb_false_elim in Hmissing; destruct Hmissing as [Hmissing ?]).
  repeat (apply orb_false_elim in Htypes; destruct Htypes as [Htypes ?]).
  assert (Hstr : forall v, negb (Js.truthy v) = false -> negb (Js.is_string v) = false ->
                           nonempty_string v = true).
  { intros v Ht Hs. destruct v; try discriminate. simpl in *.
    apply negb_false_iff in Ht. exact Ht. }
  unfold valid_event_request. rewrite !Hstr by assumption.
  replace (positive_integerb (Server.targetedAttendees body)) with true;
    [reflexivity|].
  destruct (Server.targetedAttendees body) as [| |b|n|s]; try discriminate.
  simpl in *. apply orb_false_elim in Hpos. destruct Hpos as [Hle Hint].
  unfold Js.isInteger in Hint.
  destruct n as [|neg|q]; try discriminate. simpl in *.
  destruct (Z.eqb_spec (Qnum q mod Z.pos (Qden q)) 0) as [Hmod|]; [|discriminate].
  symmetry. apply Z.ltb_lt. apply Z.leb_gt in Hle.
  pose proof (Z.div_mod (Qnum q) (Z.pos (Qden q))).
  assert (Hq : Qnum q = Z.pos (Qden q) * (Qnum q / Z.pos (Qden q))) by lia.
  nia.
Qed.

(** C7. POST /api/create-event answers 400 and leaves the database as it
    was when one of the seven fields is missing or [targetedAttendees] is
    not a positive integer; a valid request is answered 201; and an answer
    201 means one row more in [events], with its four counters at zero
    and its status [Created]. *)
Theorem createEvent_validates (d : Database) (body : Server.CreateEventRequestBody)
    (now : string) :
  let call := Server.createEvent body now in
  (missing (Server.creatorEmail body) \/ missing (Server.eventName body)
   \/ missing (Server.description body) \/ missing (Server.targetedAttendees body)
   \/ missing (Server.eventDate body) \/ missing (Server.eventStartTime body)
   \/ missing (Server.eventEndTime body)
   \/ ~ positive_integer (Server.targetedAttendees body) ->
   code (response call d) = 400 /\ after call d = d)
  /\ (valid_event_request body = true -> code (response call d) = 201)
  /\ (code (response call d) = 201 ->
      exists row,
        events (after call d) = (events d ++ [row])%list
        /\ eventAttendees (after call d) = eventAttendees d
        /\ counters row = (0, 0, 0, 0)
        /\ status row = Created).
Proof.
  cbv zeta. unfold response, after. split; [|split].
  - intro H. destruct (createEvent_rejects body now d H) as [error Hrun].
    rewrite Hrun. split; reflexivity.
  - intro Hvalid.
    destruct (createEvent_accepts body now d Hvalid)
      as [creator [name [descr [n [targeted [date [starts [ends [_ [_ [_ Hrun]]]]]]]]]]].
    cbv zeta in Hrun. rewrite Hrun. reflexivity.
  - intro Hcode.
    destruct (createEvent_rejected_or_valid body now d) as [Hvalid|[error Hrun]];
      [|rewrite Hrun in Hcode; discriminate].
    destruct (createEvent_accepts body now d Hvalid)
      as [creator [name [descr [n [targeted [date [starts [ends [_ [_ [_ Hrun]]]]]]]]]]].
    cbv zeta in Hrun. rewrite Hrun.
    eexists. repeat split.
Qed.

Lemma createEvent_validates_witness :
  code (response (Server.createEvent Examples.new_meetup "2025-08-01 08:00:00")
          Examples.empty) = 201
  /\ code (response
             (Server.createEvent
                {| Server.creatorEmail := Js.Str "test.user@example.com";
                   Server.eventName := Js.Str "Sample Tech Meetup";
                   Server.description := Js.Str "A casual meetup.";
                   Server.targetedAttendees := Js.Num (Js.integer 5);
                   Server.eventDate := Js.Undefined;
                   Server.eventStartTime := Js.Str "18:00";
                   Server.eventEndTime := Js.Str "20:00" |}
                "2025-08-01 08:00:00") Examples.empty) = 400.
Proof.
  split.
  - apply (createEvent_validates Examples.empty Examples.new_meetup "2025-08-01 08:00:00").
    reflexivity.
  - apply (createEvent_validates Examples.empty
             {| Server.creatorEmail := Js.Str "test.user@example.com";
                Server.eventName := Js.Str "Sample Tech Meetup";
                Server.description := Js.Str "A casual meetup.";
                Server.targetedAttendees := Js.Num (Js.integer 5);
                Server.eventDate := Js.Undefined;
                Server.eventStartTime := Js.Str "18:00";
                Server.eventEndTime := Js.Str "20:00" |}
             "2025-08-01 08:00:00").
    do 4 right. left. reflexivity.
Defined.

Lemma max_rowid_bound {A} (rowid : A -> Z) (rows : list A) (r : A) :
  In r rows -> rowid r <= max_rowid rowid rows.
Proof.
  induction rows as [|x rows IH]; simpl; [intros []|].
  intros [<-|Hin]; [lia | specialize (IH Hin); lia].
Qed.

Lemma find_fresh_event (d : Database) :
  find (event_matches (Some (next_rowid id (events d) (seq_events d)))) (events d) = None.
Proof.
  destruct (find _ _) as [e|] eqn:Hfind; [|reflexivity].
  exfalso. apply find_some in Hfind. destruct Hfind as [Hin Hm].
  unfold event_matches, key_matches in Hm. apply Z.eqb_eq in Hm.
  pose proof (max_rowid_bound id (events d) e Hin).
  unfold next_rowid in Hm. lia.
Qed.

Lemma getEvent_run (key : Server.PathId) (d : Database) :
  serve (Server.getEvent key) (idle d)
  = (match find (event_matches key) (events d) with
     | Some e => {| code := 200; body := EventBody e |}
     | None => {| code := 404; body := ErrorBody "Event not found" None |}
     end, idle d).
Proof.
  unfold serve, Server.getEvent, try_catch, bind, Server.select_event.
  change (prepare _ _) with (@ret unit tt). unfold ret, read. simpl.
  destruct (find (event_matches key) (events d)); reflexivity.
Qed.

(** C9. Round trip: a valid request of POST /api/create-event is answered
    201 with the key of the new row, and GET /api/events/:id with that key
    then answers 200 with a row that holds the seven submitted values, the
    key, the status [Created] and the time of the insert. *)
Theorem created_event_round_trip (d : Database) (body : Server.CreateEventRequestBody)
    (now : string) :
  valid_event_request body = true ->
  exists eventId event,
    response (Server.createEvent body now) d
    = {| code := 201; body := CreatedBody "Event created successfully!" eventId 1 |}
    /\ response (Server.getEvent (Some eventId)) (after (Server.createEvent body now) d)
       = {| code := 200; body := EventBody event |}
    /\ id event = eventId
    /\ status event = Created
    /\ created_at event = now
    /\ Js.Str (creatorEmail event) = Server.creatorEmail body
    /\ Js.Str (eventName event) = Server.eventName body
    /\ option_map Js.Str (description event) = Some (Server.description body)
    /\ same_number (Server.targetedAttendees body) (targetedAttendees event)
    /\ option_map Js.Str (eventDate event) = Some (Server.eventDate body)
    /\ option_map Js.Str (eventStartTime event) = Some (Server.eventStartTime body)
    /\ option_map Js.Str (eventEndTime event) = Some (Server.eventEndTime body)
    /\ eventDuration event = None
    /\ counters event = (0, 0, 0, 0).
Proof.
  intro Hvalid.
  destruct (createEvent_accepts body now d Hvalid)
    as [creator [name [descr [n [targeted [date [starts [ends [Hbody [Hn [_ Hrun]]]]]]]]]]].
  cbv zeta in Hrun.
  exists (next_rowid id (events d) (seq_events d)),
    (created_event d creator name descr targeted date starts ends now).
  unfold response, after. rewrite Hrun. cbn [fst snd store idle].
  rewrite getEvent_run. cbn [fst with_new_event events].
  rewrite find_app_none by apply find_fresh_event.
  unfold event_matches at 1, key_matches. cbn [id created_event].
  rewrite Z.eqb_refl. subst body.
  repeat split. exists n. split; [reflexivity | exact Hn].
Qed.

Lemma created_event_round_trip_witness :
  exists eventId event,
    response (Server.createEvent Examples.new_meetup "2025-08-01 08:00:00") Examples.one_event
    = {| code := 201; body := CreatedBody "Event created successfully!" eventId 1 |}
    /\ response (Server.getEvent (Some eventId))
         (after (Server.createEvent Examples.new_meetup "2025-08-01 08:00:00")
            Examples.one_event)
       = {| code := 200; body := EventBody event |}
    /\ id event = eventId
    /\ status event = Created
    /\ created_at event = "2025-08-01 08:00:00"
    /\ Js.Str (creatorEmail event) = Server.creatorEmail Examples.new_meetup
    /\ Js.Str (eventName event) = Server.eventName Examples.new_meetup
    /\ option_map Js.Str (description event) = Some (Server.description Examples.new_meetup)
    /\ same_number (Server.targetedAttendees Examples.new_meetup) (targetedAttendees event)
    /\ option_map Js.Str (eventDate event) = Some (Server.eventDate Examples.new_meetup)
    /\ option_map Js.Str (eventStartTime event)
       = Some (Server.eventStartTime Examples.new_meetup)
    /\ option_map Js.Str (eventEndTime event)
       = Some (Server.eventEndTime Examples.new_meetup)
    /\ eventDuration event = None
    /\ counters event = (0, 0, 0, 0).
Proof.
  apply (created_event_round_trip Examples.one_event Examples.new_meetup
           "2025-08-01 08:00:00").
  reflexivity.
Defined.

Lemma changes_zero {A} (p : A -> bool) (l : list A) :
  (Z.of_nat (List.length (filter p l)) =? 0) = negb (existsb p l).
Proof.
  induction l as [|x l IH]; simpl; [reflexivity|].
  destruct (p x); simpl; [reflexivity | exact IH].
Qed.

Lemma map_no_match {A} (p : A -> bool) (f : A -> A) (l : list A) :
  existsb p l = false -> map (fun a => if p a then f a else a) l = l.
Proof.
  induction l as [|x l IH]; simpl; [reflexivity|].
  intro H. apply orb_false_elim in H. destruct H as [Hx Hl].
  rewrite Hx, IH by exact Hl. reflexivity.
Qed.

Lemma row_exists_existsb (d : Database) (key : Server.PathId) :
  row_exists d key <-> existsb (event_matches key) (events d) = true.
Proof. unfold row_exists. symmetry. apply existsb_exists. Qed.

Lemma update_events_status_run (s : EventStatus) (key : Server.PathId) (d : Database) :
  Server.update_events_status s key (idle d)
  = (inr (Z.of_nat (List.length (filter (event_matches key) (events d)))),
     idle (with_events (with_status s key) d)).
Proof. reflexivity. Qed.

Lemma with_status_no_match (s : EventStatus) (key : Server.PathId) (d : Database) :
  existsb (event_matches key) (events d) = false ->
  with_events (with_status s key) d = d.
Proof.
  intro H. unfold with_events, with_status. rewrite map_no_match by exact H.
  destruct d; reflexivity.
Qed.

Lemma publish_run (key : Server.PathId) (d : Database) :
  serve (Server.publish key) (idle d)
  = if existsb (event_matches key) (events d)
    then ({| code := 200; body := SuccessBody "Event published" |},
          idle (with_events (with_status Published key) d))
    else ({| code := 404; body := TextBody "Event not found" |}, idle d).
Proof.
  unfold serve, Server.publish, try_catch, bind.
  rewrite update_events_status_run, changes_zero.
  destruct (existsb (event_matches key) (events d)) eqn:H; simpl; [reflexivity|].
  rewrite with_status_no_match by exact H. reflexivity.
Qed.

Lemma cancel_run (key : Server.PathId) (d : Database) :
  serve (Server.cancel key) (idle d)
  = if existsb (event_matches key) (events d)
    then ({| code := 200; body := SuccessBody "Event cancelled" |},
          idle (with_events (with_status Cancelled key) d))
    else ({| code := 404; body := TextBody "Event not found" |}, idle d).
Proof.
  unfold serve, Server.cancel, try_catch, bind.
  rewrite update_events_status_run, changes_zero.
  destruct (existsb (event_matches key) (events d)) eqn:H; simpl; [reflexivity|].
  rewrite with_status_no_match by exact H. reflexivity.
Qed.

Lemma with_status_sets (s : EventStatus) (key : Server.PathId)
    (rows : list Event) (e : Event) :
  In e (with_status s key rows) -> event_matches key e = true -> status e = s.
Proof.
  unfold with_status. intros Hin Hm. apply in_map_iff in Hin.
  destruct Hin as [x [Hx _]].
  destruct (event_matches key x) eqn:Hkey; subst e; [reflexivity|].
  congruence.
Qed.

(** C8. Lifecycle: PUT /api/events/:id/publish and .../cancel answer 200
    when a row has the key and 404 when none has, and 404 only then; on
    200 every row with the key has the status [Published], respectively
    [Cancelled], whatever its status was, and the other rows are as they
    were; on 404 the database is as it was. *)
Theorem lifecycle_overwrites_status (d : Database) (key : Server.PathId) :
  (row_exists d key ->
   response (Server.publish key) d
   = {| code := 200; body := SuccessBody "Event published" |}
   /\ after (Server.publish key) d = with_events (with_status Published key) d
   /\ response (Server.cancel key) d
      = {| code := 200; body := SuccessBody "Event cancelled" |}
   /\ after (Server.cancel key) d = with_events (with_status Cancelled key) d)
  /\ (~ row_exists d key ->
      response (Server.publish key) d
      = {| code := 404; body := TextBody "Event not found" |}
      /\ after (Server.publish key) d = d
      /\ response (Server.cancel key) d
         = {| code := 404; body := TextBody "Event not found" |}
      /\ after (Server.cancel key) d = d)
  /\ (code (response (Server.publish key) d) = 404 <-> ~ row_exists d key)
  /\ (code (response (Server.cancel key) d) = 404 <-> ~ row_exists d key)
  /\ (forall e, In e (events (after (Server.publish key) d)) ->
                event_matches key e = true -> status e = Published)
  /\ (forall e, In e (events (after (Server.cancel key) d)) ->
                event_matches key e = true -> status e = Cancelled).
Proof.
  unfold response, after. rewrite publish_run, cancel_run, row_exists_existsb.
  destruct (existsb (event_matches key) (events d)) eqn:Hex; cbn [fst snd store idle code].
  - split; [intros _; repeat split|].
    split; [intro H; exfalso; apply H; reflexivity|].
    split; [split; [discriminate | intro H; exfalso; apply H; reflexivity]|].
    split; [split; [discriminate | intro H; exfalso; apply H; reflexivity]|].
    split; intros e Hin Hm; cbn [events with_events] in Hin;
      eapply with_status_sets; eassumption.
  - split; [discriminate|].
    split; [intros _; repeat split|].
    split; [split; [intros _; discriminate | intros _; reflexivity]|].
    split; [split; [intros _; discriminate | intros _; reflexivity]|].
    split; intros e Hin Hm; exfalso;
      assert (existsb (event_matches key) (events d) = true)
        by (apply existsb_exists; eauto);
      congruence.
Qed.

Lemma lifecycle_overwrites_status_witness :
  (response (Server.publish (Some 999)) Examples.one_event
   = {| code := 404; body := TextBody "Event not found" |}
   /\ after (Server.publish (Some 999)) Examples.one_event = Examples.one_event
   /\ response (Server.cancel (Some 999)) Examples.one_event
      = {| code := 404; body := TextBody "Event not found" |}
   /\ after (Server.cancel (Some 999)) Examples.one_event = Examples.one_event)
  /\ (response (Server.publish (Some 1)) Examples.one_event
      = {| code := 200; body := SuccessBody "Event published" |}
      /\ after (Server.publish (Some 1)) Examples.one_event
         = with_events (with_status Published (Some 1)) Examples.one_event
      /\ response (Server.cancel (Some 1)) Examples.one_event
         = {| code := 200; body := SuccessBody "Event cancelled" |}
      /\ after (Server.cancel (Some 1)) Examples.one_event
         = with_events (with_status Cancelled (Some 1)) Examples.one_event).
Proof.
  split.
  - apply (lifecycle_overwrites_status Examples.one_event (Some 999)).
    intros [e [[<-|[]] Hm]]. discriminate Hm.
  - apply (lifecycle_overwrites_status Examples.one_event (Some 1)).
    exists Examples.meetup. split; [left; reflexivity | reflexivity].
Defined.

End EventStore.

(** ** The query of the events with their counts *)

Section Counts.

Import Sqlite Http Rsvp.

(** The SELECT names a column that [events] does not have. *)
Lemma eventTime_is_no_column :
  existsb (String.eqb "eventTime") events_columns = false
  /\ events_column "eventTime" Examples.meetup = None.
Proof. split; reflexivity. Qed.

(** C6, on the code. GET /api/events-with-rsvp-counts answers 500 in every
    state of the database: the statement does not compile, since it names
    [eventTime], and the handler's [catch] answers. The database is left
    as it was. *)
Theorem listEventsWithCounts_fails (d : Database) :
  serve Attendees.listEventsWithCounts (idle d)
  = ({| code := 500;
        body := ErrorBody "Failed to retrieve event RSVP statistics."
                  (Some "no such column: eventTime") |},
     idle d).
Proof. reflexivity. Qed.

End Counts.

(** ** A run from the empty database *)

Section Scenario.

Import Sqlite Http Rsvp.

(** An event for five attendees is created; a@x.com answers Attending,
    b@x.com answers Maybe, a@x.com changes to Not Attending. The counters
    end at [{Attending:0, NotAttending:1, Maybe:1, Pending:0}] with two
    rows. *)
Example three_submissions :
  let d1 := after (Server.createEvent Examples.new_meetup "2025-08-01 08:00:00")
              Examples.empty in
  let d2 := submit_all
              [{| to_event := Js.integer 1;
                  form := Examples.answer "a@x.com" (Js.Str "Attending");
                  at_time := "2025-08-02 10:00:00" |};
               {| to_event := Js.integer 1;
                  form := Examples.answer "b@x.com" (Js.Str "Maybe");
                  at_time := "2025-08-02 11:00:00" |};
               {| to_event := Js.integer 1;
                  form := Examples.answer "a@x.com" (Js.Str "Not Attending");
                  at_time := "2025-08-02 12:00:00" |}] d1 in
  option_map counters (event_of d2 1) = Some (0, 1, 1, 0)
  /\ List.length (eventAttendees d2) = 2%nat
  /\ map responseStatus (eventAttendees d2) = [NotAttending; Maybe].
Proof. repeat split. Qed.

End Scenario.

(** ** The read endpoints *)

Section Reads.

Import Sqlite Http Rsvp.

Lemma in_insert_by_address (a x : Attendee) (rows : list Attendee) :
  In x (Queries.insert_by_address a rows) <-> x = a \/ In x rows.
Proof.
  induction rows as [|y rows IH]; cbn [Queries.insert_by_address].
  - cbn. intuition congruence.
  - destruct (String.ltb (attendeeEmail a) (attendeeEmail y)); cbn [In].
    + intuition congruence.
    + rewrite IH. intuition congruence.
Qed.

Lemma in_index_order_iff (x : Attendee) (rows : list Attendee) :
  In x (Queries.in_index_order rows) <-> In x rows.
Proof.
  unfold Queries.in_index_order.
  induction rows as [|y rows IH]; cbn [fold_right]; [reflexivity|].
  rewrite in_insert_by_address, IH. cbn [In]. intuition congruence.
Qed.

Lemma filter_insert_by_address (p : Attendee -> bool) (a : Attendee)
    (rows : list Attendee) :
  List.length (filter p (Queries.insert_by_address a rows))
  = List.length (filter p (a :: rows)).
Proof.
  induction rows as [|y rows IH]; cbn [Queries.insert_by_address]; [reflexivity|].
  destruct (String.ltb (attendeeEmail a) (attendeeEmail y)); [reflexivity|].
  cbn [filter] in *. destruct (p y), (p a); cbn [List.length] in *; lia.
Qed.

Lemma filter_in_index_order (p : Attendee -> bool) (rows : list Attendee) :
  List.length (filter p (Queries.in_index_order rows)) = List.length (filter p rows).
Proof.
  unfold Queries.in_index_order.
  induction rows as [|y rows IH]; cbn [fold_right]; [reflexivity|].
  rewrite filter_insert_by_address. cbn [filter].
  destruct (p y); cbn [List.length]; rewrite IH; reflexivity.
Qed.

Lemma length_in_index_order (rows : list Attendee) :
  List.length (Queries.in_index_order rows) = List.length rows.
Proof.
  pose proof (filter_in_index_order (fun _ => true) rows) as H.
  rewrite !forallb_filter_id in H by (apply forallb_forall; reflexivity).
  exact H.
Qed.

Lemma listAttendeesForEvent_run (n : Js.Number) (d : Database) :
  serve (Queries.listAttendeesForEvent n) (idle d)
  = (if Js.isNaN n || Js.le0 n
     then {| code := 400; body := ErrorBody "Invalid Event ID provided." None |}
     else match find (event_matches (Js.as_integer n)) (events d) with
          | None => event_not_found n
          | Some _ =>
              {| code := 200;
                 body := RowsBody
                           (map Queries.attendee_json
                              (Queries.in_index_order
                                 (filter (fun a => key_matches (Js.as_integer n) (eventId a))
                                    (eventAttendees d)))) |}
          end,
     idle d).
Proof.
  unfold Queries.listAttendeesForEvent.
  destruct (Js.isNaN n || Js.le0 n); [reflexivity|].
  unfold serve, try_catch, bind. rewrite select_event_id_run.
  cbn [store idle].
  destruct (find (event_matches (Js.as_integer n)) (events d)); reflexivity.
Qed.

Lemma listEventsForAttendee_run (email : string) (d : Database) :
  serve (Queries.listEventsForAttendee email) (idle d)
  = (if (email =? "")%string
     then {| code := 400; body := ErrorBody "Attendee email is required." None |}
     else {| code := 200;
             body := RowsBody
                       (flat_map
                          (fun a =>
                             if (attendeeEmail a =? email)%string
                             then map (Queries.attendee_event_json a)
                                    (filter (fun e => id e =? eventId a) (events d))
                             else [])
                          (eventAttendees d)) |},
     idle d).
Proof.
  unfold Queries.listEventsForAttendee. cbn [Js.truthy].
  destruct (email =? "")%string; reflexivity.
Qed.

Lemma listEvents_run (d : Database) :
  serve Queries.listEvents (idle d)
  = ({| code := 200; body := RowsBody (map Queries.event_json (events d)) |}, idle d).
Proof. reflexivity. Qed.

(** X1. The five GET routes are reads: whatever the request and whatever
    the database, the connection is after the answer as it was before. *)
Theorem reads_change_nothing (d : Database) :
  (forall eventId, snd (serve (Queries.listAttendeesForEvent eventId) (idle d)) = idle d)
  /\ (forall email, snd (serve (Queries.listEventsForAttendee email) (idle d)) = idle d)
  /\ snd (serve Queries.listEvents (idle d)) = idle d
  /\ (forall eventId, snd (serve (Server.getEvent eventId) (idle d)) = idle d)
  /\ snd (serve Attendees.listEventsWithCounts (idle d)) = idle d.
Proof.
  repeat split; intros.
  - rewrite listAttendeesForEvent_run. reflexivity.
  - rewrite listEventsForAttendee_run. reflexivity.
  - rewrite getEvent_run. reflexivity.
Qed.

End Reads.

(** ** What every reachable database satisfies *)

Section Reachable.

Import Sqlite Http Rsvp.

Lemma ResponseStatus_eqb_eq (a b : ResponseStatus) :
  ResponseStatus_eqb a b = true <-> a = b.
Proof. destruct a, b; simpl; split; congruence. Qed.

Lemma ResponseStatus_eqb_sym (a b : ResponseStatus) :
  ResponseStatus_eqb a b = ResponseStatus_eqb b a.
Proof. destruct a, b; reflexivity. Qed.

Lemma in_bump_counter (s0 : ResponseStatus) (delta : Z) (k : option Z)
    (rows : list Event) (e' : Event) :
  In e' (bump s0 delta k rows) ->
  exists e, In e rows /\ id e' = id e
            /\ forall s, counter s e'
                         = counter s e
                           + (if event_matches k e && ResponseStatus_eqb s s0
                              then delta else 0).
Proof.
  unfold bump. intro H. apply in_map_iff in H. destruct H as [e [He Hin]].
  exists e. split; [exact Hin|]. subst e'.
  destruct (event_matches k e); simpl.
  - split; [apply id_add_counter | intro s; apply counter_add_counter].
  - split; [reflexivity | intro s; lia].
Qed.

Lemma map_id_bump (s : ResponseStatus) (delta : Z) (k : option Z) (rows : list Event) :
  map id (bump s delta k rows) = map id rows.
Proof.
  unfold bump. rewrite map_map. apply map_ext. intro e.
  destruct (event_matches k e); [apply id_add_counter | reflexivity].
Qed.

Lemma in_map_id {rows rows' : list Event} (k : Z) :
  map id rows' = map id rows ->
  (exists e, In e rows /\ id e = k) -> exists e', In e' rows' /\ id e' = k.
Proof.
  intros Hmap [e [Hin Hid]].
  assert (H : In k (map id rows')) by (rewrite Hmap, <- Hid; apply in_map; exact Hin).
  apply in_map_iff in H. destruct H as [e' [He' Hin']]. eauto.
Qed.

(** One row of a list without two rows of a pair is changed; a count over
    the list moves by what the row contributes before and after. *)
Lemma count_after_update (q : Attendee -> bool) (f : Attendee -> Attendee)
    (k : Z) (email : string) (l : list Attendee) (row : Attendee) :
  NoDup (map rsvp_key l) ->
  find (attendee_matches (Some k) (Some email)) l = Some row ->
  Z.of_nat (List.length
              (filter q (map (fun a => if attendee_matches (Some k) (Some email) a
                                       then f a else a) l)))
  = Z.of_nat (List.length (filter q l)) - Z.b2z (q row) + Z.b2z (q (f row)).
Proof.
  induction l as [|a l IH]; cbn [map filter find]; [discriminate|].
  intros Hnodup Hfind. inversion Hnodup as [|x xs Hnotin Hnodup']; subst.
  destruct (attendee_matches (Some k) (Some email) a) eqn:Ha.
  - inversion Hfind; subst a.
    rewrite map_no_match.
    + destruct (q row), (q (f row)); cbn [List.length Z.b2z];
        rewrite ?Nat2Z.inj_succ; lia.
    + destruct (existsb (attendee_matches (Some k) (Some email)) l) eqn:Hex;
        [|reflexivity].
      exfalso. apply existsb_exists in Hex. destruct Hex as [b [Hin Hb]].
      apply Hnotin. apply attendee_matches_key in Ha, Hb.
      rewrite Ha, <- Hb. apply in_map. exact Hin.
  - specialize (IH Hnodup' Hfind).
    destruct (q a); cbn [List.length]; rewrite ?Nat2Z.inj_succ; lia.
Qed.

Lemma consistent_updated (k : Z) (email : string) (new : ResponseStatus)
    (n : Bound) (now : string) (d : Database) (row : Attendee) :
  rsvp_of d k email = Some row ->
  App.consistent d ->
  App.consistent (updated (Some k) email (responseStatus row) new n now d).
Proof.
  intros Hrow [Hcount Hunique Hkeys Hrefs].
  assert (Hk : eventId row = k).
  { apply find_some in Hrow. destruct Hrow as [_ Hm].
    apply attendee_matches_key in Hm. inversion Hm. reflexivity. }
  split.
  - intros e' s Hin. unfold updated in Hin; cbn [events] in Hin.
    apply in_bump_counter in Hin. destruct Hin as [e1 [Hin [Hid1 Hc1]]].
    apply in_bump_counter in Hin. destruct Hin as [e [Hin [Hid Hc]]].
    rewrite Hc1, Hc, (event_matches_id (Some k) e e1 Hid), (Hcount e s Hin).
    unfold App.rsvps_in_status, updated; cbn [eventAttendees].
    rewrite (count_after_update _ (Attendees.set_response new n now) k email
               (eventAttendees d) row Hunique Hrow).
    cbn [Attendees.set_response eventId responseStatus]. rewrite Hid1, Hid, Hk.
    unfold event_matches, key_matches.
    rewrite (Z.eqb_sym (id e) k),
      (ResponseStatus_eqb_sym s new), (ResponseStatus_eqb_sym s (responseStatus row)).
    destruct (k =? id e), (ResponseStatus_eqb new s),
      (ResponseStatus_eqb (responseStatus row) s); simpl; lia.
  - apply unique_rsvp_updated. exact Hunique.
  - unfold updated; cbn [events]. rewrite !map_id_bump. exact Hkeys.
  - intros a Hin. unfold updated in *; cbn [events eventAttendees] in *.
    apply in_map_iff in Hin. destruct Hin as [a0 [Ha Hin]].
    assert (Hsame : eventId a = eventId a0)
      by (subst a; destruct (attendee_matches (Some k) (Some email) a0); reflexivity).
    rewrite Hsame.
    apply (in_map_id (rows := events d)); [rewrite !map_id_bump; reflexivity|].
    apply Hrefs, Hin.
Qed.

Lemma consistent_inserted (k : Z) (email : string) (new : ResponseStatus)
    (n : Bound) (now : string) (d : Database) (ev : Event) :
  rsvp_of d k email = None ->
  event_of d k = Some ev ->
  App.consistent d ->
  App.consistent (inserted k email new n now d).
Proof.
  intros Hnone Hev [Hcount Hunique Hkeys Hrefs].
  split.
  - intros e' s Hin. unfold inserted in Hin; cbn [events] in Hin.
    apply in_bump_counter in Hin. destruct Hin as [e [Hin [Hid Hc]]].
    rewrite Hc, (Hcount e s Hin).
    unfold App.rsvps_in_status, inserted; cbn [eventAttendees].
    rewrite filter_app, length_app. cbn [filter eventId responseStatus].
    rewrite Hid. unfold event_matches, key_matches.
    rewrite (Z.eqb_sym (id e) k), (ResponseStatus_eqb_sym s new).
    destruct (k =? id e), (ResponseStatus_eqb new s); simpl; lia.
  - apply unique_rsvp_inserted; assumption.
  - unfold inserted; cbn [events]. rewrite map_id_bump. exact Hkeys.
  - intros a Hin. unfold inserted in *; cbn [events eventAttendees] in *.
    apply (in_map_id (rows := events d)); [apply map_id_bump|].
    apply in_app_or in Hin. destruct Hin as [Hin|[<-|[]]]; [apply Hrefs, Hin|].
    cbn [eventId]. apply find_some in Hev. destruct Hev as [Hin Hm].
    exists ev. split; [exact Hin|].
    unfold event_matches, key_matches in Hm. apply Z.eqb_eq. exact Hm.
Qed.

Lemma filter_none {A} (p : A -> bool) (l : list A) :
  (forall a, In a l -> p a = false) -> filter p l = [].
Proof.
  induction l as [|x l IH]; simpl; [reflexivity|].
  intro H. rewrite (H x) by (left; reflexivity).
  apply IH. intros a Hin. apply H. right. exact Hin.
Qed.

Lemma consistent_with_new_event (d : Database) (creator name descr : string)
    (targeted : Z) (date starts ends now : string) :
  App.consistent d ->
  App.consistent
    (with_new_event (created_event d creator name descr targeted date starts ends now) d).
Proof.
  intros [Hcount Hunique Hkeys Hrefs].
  assert (Hfresh : forall e, In e (events d) ->
                             id e < next_rowid id (events d) (seq_events d)).
  { intros e Hin. pose proof (max_rowid_bound id (events d) e Hin).
    unfold next_rowid. lia. }
  split.
  - intros e' s Hin. unfold with_new_event in Hin; cbn [events] in Hin.
    unfold App.rsvps_in_status, with_new_event; cbn [eventAttendees].
    apply in_app_or in Hin. destruct Hin as [Hin|[<-|[]]]; [apply Hcount, Hin|].
    replace (filter _ (eventAttendees d)) with (@nil Attendee);
      [destruct s; reflexivity|].
    symmetry. apply filter_none.
    intros a Hin. destruct (Hrefs a Hin) as [e [He Hid]].
    specialize (Hfresh e He). cbn [id created_event].
    destruct (Z.eqb_spec (eventId a) (next_rowid id (events d) (seq_events d)));
      [lia | reflexivity].
  - exact Hunique.
  - unfold with_new_event; cbn [events]. rewrite map_app. cbn [map id created_event].
    apply NoDup_app; [exact Hkeys | repeat constructor; intros [] |].
    intros k Hin [<-|[]]. apply in_map_iff in Hin. destruct Hin as [e [Hid Hin]].
    specialize (Hfresh e Hin). lia.
  - intros a Hin. unfold with_new_event in *; cbn [events eventAttendees] in *.
    destruct (Hrefs a Hin) as [e [He Hid]]. exists e. split; [|exact Hid].
    apply in_or_app. left. exact He.
Qed.

Lemma consistent_with_status (s : EventStatus) (key : Server.PathId) (d : Database) :
  App.consistent d -> App.consistent (with_events (with_status s key) d).
Proof.
  intros [Hcount Hunique Hkeys Hrefs].
  assert (Hids : map id (with_status s key (events d)) = map id (events d)).
  { unfold with_status. rewrite map_map. apply map_ext. intro e.
    destruct (event_matches key e); reflexivity. }
  split.
  - intros e' s' Hin. cbn [with_events events] in Hin. unfold with_status in Hin.
    apply in_map_iff in Hin. destruct Hin as [e [He Hin]].
    specialize (Hcount e s' Hin). subst e'.
    destruct (event_matches key e); [|exact Hcount].
    destruct s'; exact Hcount.
  - exact Hunique.
  - cbn [with_events events]. rewrite Hids. exact Hkeys.
  - intros a Hin. cbn [with_events events eventAttendees] in *.
    apply (in_map_id (rows := events d)); [exact Hids | apply Hrefs, Hin].
Qed.

Lemma consistent_empty : App.consistent Examples.empty.
Proof.
  split; simpl; try (intros; contradiction); constructor.
Qed.

(** Every handler, on an idle connection with a consistent database,
    leaves an idle connection with a consistent database. *)
Lemma handle_consistent (r : App.Request) (d : Database) :
  App.consistent d ->
  exists d', snd (serve (App.handle r) (idle d)) = idle d' /\ App.consistent d'.
Proof.
  intro Hd. destruct r as [body now| |key|key|key|n body now|n|email|];
    cbn [App.handle].
  - destruct (createEvent_rejected_or_valid body now d) as [Hvalid|[error Hrun]].
    + destruct (createEvent_accepts body now d Hvalid)
        as [creator [name [descr [n [targeted [date [starts [ends [_ [_ [_ Hrun]]]]]]]]]]].
      cbv zeta in Hrun. rewrite Hrun. eexists. split; [reflexivity|].
      apply consistent_with_new_event, Hd.
    + rewrite Hrun. exists d. split; [reflexivity | exact Hd].
  - rewrite listEvents_run. exists d. split; [reflexivity | exact Hd].
  - rewrite publish_run. destruct (existsb _ _); eexists; (split; [reflexivity|]);
      [apply consistent_with_status|]; exact Hd.
  - rewrite cancel_run. destruct (existsb _ _); eexists; (split; [reflexivity|]);
      [apply consistent_with_status|]; exact Hd.
  - rewrite getEvent_run. exists d. split; [reflexivity | exact Hd].
  - destruct (submitResponse_outcome n body now d) as [resp [d' [Hrun Hout]]].
    rewrite Hrun. exists d'. split; [reflexivity|].
    inversion Hout; subst; try exact Hd.
    + eapply consistent_inserted; eassumption.
    + apply consistent_updated; assumption.
  - rewrite listAttendeesForEvent_run. exists d. split; [reflexivity | exact Hd].
  - rewrite listEventsForAttendee_run. exists d. split; [reflexivity | exact Hd].
  - rewrite listEventsWithCounts_fails. exists d. split; [reflexivity | exact Hd].
Qed.

Lemma serve_all_consistent (rs : list App.Request) (d : Database) :
  App.consistent d ->
  exists d', App.serve_all rs (idle d) = idle d' /\ App.consistent d'.
Proof.
  revert d. induction rs as [|r rs IH]; intros d Hd; cbn [App.serve_all]; [eauto|].
  destruct (handle_consistent r d Hd) as [d1 [Hrun Hd1]].
  rewrite Hrun. apply IH, Hd1.
Qed.

(** X2. The consistency of the store is an invariant of the server: a
    request on a consistent database leaves a consistent database, so
    every database reachable from the empty one has, for every event and
    status, the counter equal to the number of rows of the event in that
    status, one row per pair at most, one event per key, and no RSVP row
    without its event; and no sequence of requests leaves a transaction
    open. *)
Theorem reachable_consistent :
  (forall r d, App.consistent d -> App.consistent (after (App.handle r) d))
  /\ (forall rs, exists d, App.serve_all rs (idle Examples.empty) = idle d)
  /\ (forall d, App.reachable d ->
       (forall e s, In e (events d) ->
                    counter s e = Z.of_nat (List.length (App.rsvps_in_status d (id e) s)))
       /\ unique_rsvp d
       /\ NoDup (map id (events d))
       /\ (forall a, In a (eventAttendees d) ->
                     exists e, In e (events d) /\ id e = eventId a)).
Proof.
  split; [|split].
  - intros r d Hd. destruct (handle_consistent r d Hd) as [d' [Hrun Hd']].
    unfold after. rewrite Hrun. exact Hd'.
  - intro rs. destruct (serve_all_consistent rs Examples.empty consistent_empty)
      as [d [Hrun _]]. eauto.
  - intros d [rs Hrs].
    destruct (serve_all_consistent rs Examples.empty consistent_empty)
      as [d' [Hrun [H1 H2 H3 H4]]].
    assert (d' = d) by (rewrite Hrun in Hrs; unfold idle in Hrs; congruence).
    subst d'. auto.
Qed.

Lemma status_partition (p : Attendee -> bool) (l : list Attendee) :
  Z.of_nat (List.length (filter p l))
  = Z.of_nat (List.length (filter (fun a => p a && ResponseStatus_eqb (responseStatus a) Attending) l))
    + Z.of_nat (List.length (filter (fun a => p a && ResponseStatus_eqb (responseStatus a) NotAttending) l))
    + Z.of_nat (List.length (filter (fun a => p a && ResponseStatus_eqb (responseStatus a) Maybe) l))
    + Z.of_nat (List.length (filter (fun a => p a && ResponseStatus_eqb (responseStatus a) Pending) l)).
Proof.
  induction l as [|a l IH]; cbn [filter]; [reflexivity|].
  destruct (p a); cbn [andb]; [|exact IH].
  destruct (responseStatus a); cbn [ResponseStatus_eqb List.length];
    rewrite ?Nat2Z.inj_succ; lia.
Qed.

Lemma consistent_count_consistent (d : Database) :
  App.consistent d -> count_consistent d.
Proof.
  intros [Hcount _ _ _] e Hin. unfold counter_sum, rsvp_count, rsvps_of_event.
  rewrite (status_partition (fun a => eventId a =? id e)).
  pose proof (Hcount e Attending Hin) as HA.
  pose proof (Hcount e NotAttending Hin) as HN.
  pose proof (Hcount e Maybe Hin) as HM.
  pose proof (Hcount e Pending Hin) as HP.
  unfold App.rsvps_in_status in *. cbn [counter] in *. lia.
Qed.

(** X3. In a database the server can reach, no counter is negative and
    none exceeds the number of RSVP rows of its event, and the four
    counters of an event add up to that number. *)
Theorem reachable_counters_bounded (d : Database) :
  App.reachable d ->
  forall e, In e (events d) ->
    (forall s, 0 <= counter s e <= rsvp_count d (id e))
    /\ attendingCount e + notAttendingCount e + maybeCount e + pendingCount e
       = rsvp_count d (id e).
Proof.
  intros [rs Hrs] e Hin.
  destruct (serve_all_consistent rs Examples.empty consistent_empty)
    as [d' [Hrun Hd]].
  assert (d' = d) by (rewrite Hrun in Hrs; unfold idle in Hrs; congruence).
  subst d'.
  pose proof (consistent_count_consistent d Hd e Hin) as Hsum.
  unfold counter_sum in Hsum. split; [|exact Hsum].
  destruct Hd as [Hcount _ _ _].
  pose proof (Hcount e Attending Hin) as HA.
  pose proof (Hcount e NotAttending Hin) as HN.
  pose proof (Hcount e Maybe Hin) as HM.
  pose proof (Hcount e Pending Hin) as HP.
  cbn [counter] in *. intro s. destruct s; cbn [counter]; lia.
Qed.

Lemma reachable_counters_bounded_witness :
  let d := submit_all
             [{| to_event := Js.integer 1;
                 form := Examples.answer "a@x.com" (Js.Str "Attending");
                 at_time := "2025-08-02 10:00:00" |}]
             (after (Server.createEvent Examples.new_meetup "2025-08-01 08:00:00")
                Examples.empty) in
  App.reachable d
  /\ forall e, In e (events d) ->
       (forall s, 0 <= counter s e <= rsvp_count d (id e))
       /\ attendingCount e + notAttendingCount e + maybeCount e + pendingCount e
          = rsvp_count d (id e).
Proof.
  cbv zeta.
  assert (H : App.reachable
                (submit_all
                   [{| to_event := Js.integer 1;
                       form := Examples.answer "a@x.com" (Js.Str "Attending");
                       at_time := "2025-08-02 10:00:00" |}]
                   (after (Server.createEvent Examples.new_meetup "2025-08-01 08:00:00")
                      Examples.empty))).
  { exists [App.CreateEvent Examples.new_meetup "2025-08-01 08:00:00";
            App.SubmitResponse (Js.integer 1)
              (Examples.answer "a@x.com" (Js.Str "Attending")) "2025-08-02 10:00:00"].
    reflexivity. }
  split; [exact H|]. exact (reachable_counters_bounded _ H).
Defined.

End Reachable.

(** ** More on the RSVP upsert *)

Section UpsertMore.

Import Sqlite Http Rsvp.

Lemma filter_map_other {A} (p q : A -> bool) (f : A -> A) (l : list A) :
  (forall a, p (f a) = p a) ->
  (forall a, p a = true -> q a = false) ->
  filter p (map (fun a => if q a then f a else a) l) = filter p l.
Proof.
  intros Hf Hpq. induction l as [|a l IH]; simpl; [reflexivity|].
  destruct (q a) eqn:Hq.
  - rewrite Hf. destruct (p a) eqn:Hp; [|exact IH].
    rewrite (Hpq a Hp) in Hq. discriminate.
  - rewrite IH. reflexivity.
Qed.

Lemma other_pair (k k' : Z) (email email' : string) (a : Attendee) :
  Some k <> Some k' \/ Js.Str email <> Js.Str email' ->
  attendee_matches (Some k') (Some email') a = true ->
  attendee_matches (Some k) (Some email) a = false.
Proof.
  intros Hother Ha. apply attendee_matches_key in Ha.
  destruct (attendee_matches (Some k) (Some email) a) eqn:Hb; [|reflexivity].
  apply attendee_matches_key in Hb. rewrite Ha in Hb. inversion Hb; subst.
  destruct Hother as [H|H]; exfalso; apply H; reflexivity.
Qed.

Lemma details_add_counter (s : ResponseStatus) (delta : Z) (e : Event) :
  Frame.details (add_counter s delta e) = Frame.details e.
Proof. destruct s; reflexivity. Qed.

Lemma details_bump (s : ResponseStatus) (delta : Z) (k : option Z) (rows : list Event) :
  map Frame.details (bump s delta k rows) = map Frame.details rows.
Proof.
  unfold bump. rewrite map_map. apply map_ext. intro e.
  destruct (event_matches k e); [apply details_add_counter | reflexivity].
Qed.

Lemma filter_bump_other (s : ResponseStatus) (delta : Z) (k k' : Z) (rows : list Event) :
  k <> k' ->
  filter (event_matches (Some k')) (bump s delta (Some k) rows)
  = filter (event_matches (Some k')) rows.
Proof.
  intro Hk. unfold bump. apply filter_map_other.
  - intro e. apply event_matches_id, id_add_counter.
  - intros e He. unfold event_matches, key_matches in *.
    apply Z.eqb_eq in He. apply Z.eqb_neq. congruence.
Qed.

Lemma outcome_frame (n : Js.Number) (body : Attendees.CreateAttendeeRequestBody)
    (now : string) (d : Database) (r : Response) (d' : Database) :
  Outcome n body now d r d' ->
  (forall k email,
      Js.as_integer n <> Some k \/ Attendees.attendeeEmail body <> Js.Str email ->
      rsvps_of_pair d' k email = rsvps_of_pair d k email)
  /\ (forall k, Js.as_integer n <> Some k ->
                filter (event_matches (Some k)) (events d')
                = filter (event_matches (Some k)) (events d))
  /\ map Frame.details (events d') = map Frame.details (events d)
  /\ (List.length (eventAttendees d) <= List.length (eventAttendees d'))%nat.
Proof.
  intro H.
  inversion H as [error Hv | email0 Hv He0 Hnone Hev | e Hv Hb
                  | k0 email0 s0 b0 ev Hv Hk0 He0 Hs0 Hb Hnone Hev
                  | k0 email0 s0 b0 row0 Hv Hk0 He0 Hs0 Hb Hrow0 ]; subst;
    try (repeat split; intros; reflexivity || apply Nat.le_refl).
  - rewrite Hk0, He0. unfold inserted, rsvps_of_pair; cbn [events eventAttendees].
    split; [|split; [|split]].
    + intros k email Hother. rewrite filter_app. cbn [filter].
      replace (attendee_matches (Some k) (Some email) _) with false;
        [apply app_nil_r|].
      symmetry. unfold attendee_matches, key_matches, text_matches.
      cbn [Sqlite.eventId attendeeEmail].
      destruct (Z.eqb_spec k0 k) as [->|]; [|reflexivity].
      destruct (String.eqb_spec email0 email) as [->|]; [|reflexivity].
      destruct Hother as [Ho|Ho]; exfalso; apply Ho; reflexivity.
    + intros k Hk. apply filter_bump_other. congruence.
    + apply details_bump.
    + rewrite length_app. apply Nat.le_add_r.
  - rewrite Hk0, He0. unfold updated, rsvps_of_pair; cbn [events eventAttendees].
    split; [|split; [|split]].
    + intros k email Hother. apply filter_map_other; [reflexivity|].
      intros a Ha. apply (other_pair k0 k email0 email a); [|exact Ha].
      destruct Hother as [Ho|Ho]; [left | right]; congruence.
    + intros k Hk. rewrite !filter_bump_other by congruence. reflexivity.
    + rewrite !details_bump. reflexivity.
    + rewrite length_map. apply Nat.le_refl.
Qed.

(** X4. A submission touches its own pair and its own event only: the
    rows of every other pair and the rows of every other event are after
    the call what they were before, no event changes in a column other
    than the four counters, and no RSVP row is removed. *)
Theorem submitResponse_frame (d : Database) (eventId : Js.Number)
    (body : Attendees.CreateAttendeeRequestBody) (now : string) :
  let d' := after (Attendees.submitResponse eventId body now) d in
  (forall k email,
      Js.as_integer eventId <> Some k \/ Attendees.attendeeEmail body <> Js.Str email ->
      rsvps_of_pair d' k email = rsvps_of_pair d k email)
  /\ (forall k, Js.as_integer eventId <> Some k ->
                filter (event_matches (Some k)) (events d')
                = filter (event_matches (Some k)) (events d))
  /\ map Frame.details (events d') = map Frame.details (events d)
  /\ (List.length (eventAttendees d) <= List.length (eventAttendees d'))%nat.
Proof.
  exact (outcome_frame _ _ _ _ _ _ (after_submitResponse eventId body now d)).
Qed.

Lemma outcome_update_row (n : Js.Number) (body : Attendees.CreateAttendeeRequestBody)
    (now : string) (d : Database) (r : Response) (d' : Database)
    (k : Z) (email : string) (row : Attendee) :
  Outcome n body now d r d' ->
  well_formed n body = true ->
  Js.as_integer n = Some k ->
  Attendees.attendeeEmail body = Js.Str email ->
  rsvp_of d k email = Some row ->
  exists s b,
    resolved_status body = Some s /\ bound_notes body = inr b
    /\ r = response_updated
    /\ rsvp_of d' k email = Some (Attendees.set_response s b now row).
Proof.
  intros H Hwf Hk He Hrow.
  destruct (well_formed_inv _ _ Hwf) as [Hv [b Hb]].
  inversion H as [error Hv' | email0 _ He0 Hnone _ | e _ Hb'
                  | k0 email0 s0 b0 ev0 _ Hk0 He0 _ _ Hnone _
                  | k0 email0 s0 b0 row0 _ Hk0 He0 Hs0 Hb0 Hrow0 ]; subst.
  - congruence.
  - exfalso. rewrite Hk in Hnone. assert (email0 = email) by congruence.
    subst email0. unfold rsvp_of in Hrow. congruence.
  - congruence.
  - exfalso. assert (k0 = k) by congruence. assert (email0 = email) by congruence.
    subst k0 email0. congruence.
  - assert (k0 = k) by congruence. assert (email0 = email) by congruence.
    subst k0 email0. assert (row0 = row) by congruence. subst row0.
    exists s0, b0. repeat split; try assumption.
    apply rsvp_of_updated. assumption.
Qed.

(** X5. An update rewrites the answer in place: the row of the pair keeps
    its key, its event, its address and its [created_at], takes the time
    of the call as [rsvpDate], and takes the note of the request as the
    TEXT column keeps it: the string of a string, a text and not the
    number for a number, and NULL for a request without a note, which
    erases the note the row had. *)
Theorem update_overwrites_note (d : Database) (eventId : Js.Number)
    (body : Attendees.CreateAttendeeRequestBody) (now : string)
    (k : Z) (email : string) (row : Attendee) :
  well_formed eventId body = true ->
  Js.as_integer eventId = Some k ->
  Attendees.attendeeEmail body = Js.Str email ->
  rsvp_of d k email = Some row ->
  exists row',
    rsvp_of (after (Attendees.submitResponse eventId body now) d) k email = Some row'
    /\ att_id row' = att_id row
    /\ Sqlite.eventId row' = Sqlite.eventId row
    /\ attendeeEmail row' = attendeeEmail row
    /\ att_created_at row' = att_created_at row
    /\ rsvpDate row' = now
    /\ resolved_status body = Some (responseStatus row')
    /\ (Js.truthy (Attendees.notes body) = false -> notes row' = BNull)
    /\ (forall t, Attendees.notes body = Js.Str t -> t <> "" -> notes row' = BText t)
    /\ (forall n, Attendees.notes body = Js.Num n -> Js.truthy (Js.Num n) = true ->
                  exists t, notes row' = BText t).
Proof.
  intros Hwf Hk He Hrow.
  destruct (outcome_rewrites_row _ _ _ _ _ _ k email row
              (after_submitResponse eventId body now d) Hwf Hk He Hrow)
    as [_ [row' [s [Hrow' [Hs [Hid [Hev [Haddr [Hcreated [Hstatus [Hdate Hnote]]]]]]]]]]].
  exists row'. repeat (split; [assumption|]).
  split; [congruence|]. exact Hnote.
Qed.

Lemma update_overwrites_note_witness :
  let noted := {| Attendees.attendeeEmail := Js.Str "b@x.com";
                  Attendees.responseStatus := Js.Str "Maybe";
                  Attendees.notes := Js.Num (Js.integer 5) |} in
  (exists row',
      rsvp_of (after (Attendees.submitResponse (Js.integer 1) noted
                        "2025-08-02 10:00:00") Examples.one_event) 1 "b@x.com"
      = Some row'
      /\ att_id row' = 2
      /\ rsvpDate row' = "2025-08-02 10:00:00"
      /\ responseStatus row' = Maybe
      /\ notes row' = BText "5.0")
  /\ (exists row',
        rsvp_of (after (Attendees.submitResponse (Js.integer 1)
                          (Examples.answer "b@x.com" (Js.Str "Maybe"))
                          "2025-08-03 10:00:00")
                   (after (Attendees.submitResponse (Js.integer 1) noted
                             "2025-08-02 10:00:00") Examples.one_event)) 1 "b@x.com"
        = Some row'
        /\ notes row' = BNull).
Proof.
  cbv zeta. split.
  - destruct (update_overwrites_note Examples.one_event (Js.integer 1)
                {| Attendees.attendeeEmail := Js.Str "b@x.com";
                   Attendees.responseStatus := Js.Str "Maybe";
                   Attendees.notes := Js.Num (Js.integer 5) |}
                "2025-08-02 10:00:00"
                1 "b@x.com" (Examples.rsvp 2 "b@x.com" Pending)
                eq_refl eq_refl eq_refl eq_refl)
      as [row' [Hrow [Hid [_ [_ [_ [Hdate [Hs _]]]]]]]].
    exists row'. repeat (split; [assumption|]).
    split; [cbn in Hs; congruence|].
    vm_compute in Hrow. inversion Hrow. reflexivity.
  - destruct (update_overwrites_note
                (after (Attendees.submitResponse (Js.integer 1)
                          {| Attendees.attendeeEmail := Js.Str "b@x.com";
                             Attendees.responseStatus := Js.Str "Maybe";
                             Attendees.notes := Js.Num (Js.integer 5) |}
                          "2025-08-02 10:00:00") Examples.one_event)
                (Js.integer 1) (Examples.answer "b@x.com" (Js.Str "Maybe"))
                "2025-08-03 10:00:00" 1 "b@x.com"
                {| att_id := 2; Sqlite.eventId := 1; attendeeEmail := "b@x.com";
                   responseStatus := Maybe; rsvpDate := "2025-08-02 10:00:00";
                   notes := BText "5.0";
                   att_created_at := att_created_at (Examples.rsvp 2 "b@x.com" Pending) |}
                eq_refl eq_refl eq_refl eq_refl)
      as [row' [Hrow [_ [_ [_ [_ [_ [_ [Hnote _]]]]]]]]].
    exists row'. split; [exact Hrow|]. apply Hnote. reflexivity.
Defined.

(** X6. On an idle connection the handler never answers 409: its answer
    is 200, 201, 400, 404 or 500; it is 400 exactly when the request fails
    the validation, and 500 only when the note is the boolean [true],
    the one value of a note that cannot be bound. *)
Theorem submitResponse_answers (d : Database) (eventId : Js.Number)
    (body : Attendees.CreateAttendeeRequestBody) (now : string) :
  let r := response (Attendees.submitResponse eventId body now) d in
  code r <> 409
  /\ (code r = 200 \/ code r = 201 \/ code r = 400 \/ code r = 404 \/ code r = 500)
  /\ (code r = 400 <-> passes_validation eventId body = false)
  /\ (code r = 500 -> Attendees.notes body = Js.Boolean true).
Proof.
  cbv zeta.
  pose proof (after_submitResponse eventId body now d) as H.
  remember (response (Attendees.submitResponse eventId body now) d) as r eqn:Hr.
  remember (after (Attendees.submitResponse eventId body now) d) as d' eqn:Hd'.
  clear Hr Hd'.
  assert (Hnote : forall e, bound_notes body = inl e ->
                            Attendees.notes body = Js.Boolean true).
  { unfold bound_notes, Js.or. intros e He.
    destruct (Attendees.notes body) as [| |b|[|neg|q]|s]; cbn in He;
      try discriminate.
    - destruct b; [reflexivity | discriminate].
    - destruct (Qnum q =? 0); discriminate.
    - destruct s; discriminate. }
  inversion H; subst; cbn [code event_not_found bind_failure response_recorded
                                response_updated];
    (split; [discriminate|]);
    (split; [tauto|]);
    (split; [split; intro; congruence || discriminate|]);
    intro; try discriminate.
  eapply Hnote; eassumption.
Qed.

End UpsertMore.

(** ** The format of an address *)

Section AddressFormat.

Import Language.

Lemma append_empty (x y : string) : x ++ y = "" -> x = "" /\ y = "".
Proof. destruct x; simpl; [auto | discriminate]. Qed.

Lemma append_nil_r (x : string) : x ++ "" = x.
Proof. induction x as [|a x IH]; simpl; congruence. Qed.

Lemma append_assoc (x y z : string) : (x ++ y) ++ z = x ++ (y ++ z).
Proof. induction x as [|a x IH]; simpl; congruence. Qed.

Lemma nullable_spec (r : Js.Regex) : Js.nullable r = true <-> Denotes r "".
Proof.
  induction r as [| |p|r IHr s IHs|r IHr s IHs|r IHr]; simpl.
  - split; [discriminate | intro H; inversion H].
  - split; [constructor | reflexivity].
  - split; [discriminate | intro H; inversion H].
  - rewrite andb_true_iff, IHr, IHs. split.
    + intros [Hr Hs]. apply (DCat r s "" ""); assumption.
    + intro H. inversion H as [| |r' s' x y Hx Hy Heq| | | |]; subst.
      match goal with Ha : _ ++ _ = "" |- _ => apply append_empty in Ha; destruct Ha end.
      subst. auto.
  - rewrite orb_true_iff, IHr, IHs. split.
    + intros [H|H]; [apply DAltL | apply DAltR]; exact H.
    + intro H. inversion H; subst; auto.
  - split; [constructor | reflexivity].
Qed.

Lemma star_cons_inv (r : Js.Regex) (a : ascii) (s : string) :
  Denotes (Js.Star r) (String a s) ->
  exists x y, s = x ++ y /\ Denotes r (String a x) /\ Denotes (Js.Star r) y.
Proof.
  intro H. remember (Js.Star r) as r0 eqn:Hr0. remember (String a s) as w eqn:Hw.
  revert Hr0 Hw.
  induction H as [| | | | | |r1 x y Hx _ Hy IHy]; intros Hr0 Hw; try discriminate.
  inversion Hr0; subst r1.
  destruct x as [|b x'].
  - simpl in Hw. apply IHy; [reflexivity | exact Hw].
  - simpl in Hw. inversion Hw; subst. eauto.
Qed.

Lemma deriv_spec (a : ascii) (r : Js.Regex) (s : string) :
  Denotes (Js.deriv a r) s <-> Denotes r (String a s).
Proof.
  revert s. induction r as [| |p|r IHr t IHt|r IHr t IHt|r IHr]; intro s; simpl.
  - split; intro H; inversion H.
  - split; intro H; inversion H.
  - destruct (p a) eqn:Hp; split; intro H.
    + inversion H; subst. constructor. exact Hp.
    + inversion H; subst. constructor.
    + inversion H.
    + inversion H; subst. congruence.
  - assert (Hcat : Denotes (Js.Cat (Js.deriv a r) t) s ->
                   Denotes (Js.Cat r t) (String a s)).
    { intro H. inversion H as [| |r' t' x y Hx Hy| | | |]; subst.
      apply IHr in Hx. apply (DCat r t (String a x) y); assumption. }
    assert (Hinv : Denotes (Js.Cat r t) (String a s) ->
                   Denotes (Js.Cat (Js.deriv a r) t) s
                   \/ (Js.nullable r = true /\ Denotes (Js.deriv a t) s)).
    { intro H. inversion H as [| |r' t' x y Hx Hy Heq| | | |]; subst.
      destruct x as [|b x'].
      - right. simpl in *. subst y. split; [apply nullable_spec, Hx | apply IHt, Hy].
      - left. simpl in *.
        match goal with Ha : String _ _ = String _ _ |- _ => inversion Ha; subst end.
        apply DCat; [apply IHr, Hx | exact Hy]. }
    destruct (Js.nullable r) eqn:Hn; split; intro H.
    + inversion H; subst; [apply Hcat; assumption|].
      apply (DCat r t "" (String a s)); [apply nullable_spec, Hn | apply IHt; assumption].
    + destruct (Hinv H) as [H'|[_ H']]; [apply DAltL | apply DAltR]; exact H'.
    + apply Hcat, H.
    + destruct (Hinv H) as [H'|[Hn' _]]; [exact H' | congruence].
  - split; intro H; inversion H; subst;
      (apply DAltL; apply IHr; assumption) || (apply DAltR; apply IHt; assumption).
  - split; intro H.
    + inversion H as [| |r' t' x y Hx Hy| | | |]; subst.
      apply IHr in Hx. apply (DStarCons r (String a x) y); assumption.
    + apply star_cons_inv in H. destruct H as [x [y [-> [Hx Hy]]]].
      apply DCat; [apply IHr, Hx | exact Hy].
Qed.

Lemma matches_spec (r : Js.Regex) (s : string) :
  Js.matches r s = true <-> Denotes r s.
Proof.
  revert r. induction s as [|a s IH]; intro r; simpl.
  - apply nullable_spec.
  - rewrite IH. apply deriv_spec.
Qed.

Lemma star_class_spec (p : ascii -> bool) (s : string) :
  Denotes (Js.Star (Js.Class p)) s <-> all_chars p s = true.
Proof.
  split.
  - intro H. remember (Js.Star (Js.Class p)) as r eqn:Hr. revert Hr.
    induction H as [| | | | | |r1 x y Hx _ Hy IHy]; intro Hr; try discriminate;
      [reflexivity|].
    inversion Hr; subst r1. inversion Hx; subst. simpl.
    rewrite IHy by reflexivity. rewrite andb_true_r. assumption.
  - induction s as [|a s IH]; simpl; intro H; [constructor|].
    apply andb_prop in H. destruct H as [Ha Hs].
    apply (DStarCons (Js.Class p) (String a "") s); [constructor; exact Ha | auto].
Qed.

Lemma plus_class_spec (p : ascii -> bool) (s : string) :
  Denotes (Js.Plus (Js.Class p)) s <-> s <> "" /\ all_chars p s = true.
Proof.
  unfold Js.Plus. split.
  - intro H. inversion H as [| |r' t' x y Hx Hy| | | |]; subst.
    inversion Hx; subst. apply star_class_spec in Hy. simpl.
    split; [discriminate|]. rewrite Hy, andb_true_r. assumption.
  - intros [Hne H]. destruct s as [|a s]; [congruence|]. simpl in H.
    apply andb_prop in H. destruct H as [Ha Hs].
    apply (DCat (Js.Class p) (Js.Star (Js.Class p)) (String a "") s);
      [constructor; exact Ha | apply star_class_spec, Hs].
Qed.

Lemma class_chr_spec (c : ascii) (s : string) :
  Denotes (Js.Class (Js.chr c)) s <-> s = String c "".
Proof.
  split.
  - intro H. inversion H as [|p a Ha| | | | |]; subst.
    unfold Js.chr in Ha. apply Ascii.eqb_eq in Ha. congruence.
  - intros ->. constructor. unfold Js.chr. apply Ascii.eqb_refl.
Qed.

(** X7. The regular expression of the handler (and of the three forms of
    the front end) accepts exactly the strings [local@domain.tld] where
    each of the three parts is non-empty and holds neither white space
    nor ["@"]: one ["@"], no white space, and after the ["@"] a dot that
    is neither the first nor the last character. *)
Theorem email_format_accepts (s : string) :
  Js.matches Attendees.email_format s = true <-> address s.
Proof.
  rewrite matches_spec. unfold Attendees.email_format, address, word.
  change (fun a : ascii => negb (Js.white_space a || Js.chr "@" a)) with plain.
  cbv zeta. split.
  - intro H.
    inversion H as [| |r1 t1 l x1 Hl H1| | | |]; subst.
    inversion H1 as [| |r2 t2 at' x2 Hat H2| | | |]; subst.
    inversion H2 as [| |r3 t3 dm x3 Hd H3| | | |]; subst.
    inversion H3 as [| |r4 t4 dot t Hdot Ht| | | |]; subst.
    apply class_chr_spec in Hat, Hdot. subst.
    apply plus_class_spec in Hl, Hd, Ht.
    exists l, dm, t. split; [reflexivity | auto].
  - intros [l [d [t [-> [Hl [Hd Ht]]]]]].
    apply DCat; [apply plus_class_spec, Hl|].
    apply (DCat _ _ "@"); [apply class_chr_spec; reflexivity|].
    apply DCat; [apply plus_class_spec, Hd|].
    apply (DCat _ _ "."); [apply class_chr_spec; reflexivity|].
    apply plus_class_spec, Ht.
Qed.

End AddressFormat.

(** ** More on the event store and the lifecycle *)

Section EventStoreMore.

Import Sqlite Http Rsvp.

(** X8. POST /api/create-event accepts a request exactly when the six
    text fields are non-empty strings and [targetedAttendees] is a
    positive integer: then it answers 201, and otherwise it answers 400
    and leaves the database as it was. It never answers 500. *)
Theorem createEvent_accepts_exactly (d : Database)
    (body : Server.CreateEventRequestBody) (now : string) :
  let r := response (Server.createEvent body now) d in
  (code r = 201 <-> valid_event_request body = true)
  /\ (code r = 400 <-> valid_event_request body = false)
  /\ (valid_event_request body = false -> after (Server.createEvent body now) d = d).
Proof.
  cbv zeta. unfold response, after.
  destruct (valid_event_request body) eqn:Hvalid.
  - destruct (createEvent_accepts body now d Hvalid)
      as [creator [name [descr [n [targeted [date [starts [ends [_ [_ [_ Hrun]]]]]]]]]]].
    cbv zeta in Hrun. rewrite Hrun. cbn [fst code].
    repeat split; intros; try reflexivity; discriminate.
  - destruct (createEvent_rejected_or_valid body now d) as [H|[error Hrun]];
      [congruence|].
    rewrite Hrun. cbn [fst snd code store idle].
    repeat split; intros; try reflexivity; discriminate.
Qed.

Lemma max_rowid_nonneg {A} (rowid : A -> Z) (rows : list A) : 0 <= max_rowid rowid rows.
Proof. induction rows as [|x rows IH]; simpl; lia. Qed.

Lemma max_rowid_app {A} (rowid : A -> Z) (rows : list A) (x : A) :
  max_rowid rowid (rows ++ [x]) = Z.max (max_rowid rowid rows) (Z.max (rowid x) 0).
Proof. induction rows as [|y rows IH]; cbn [app max_rowid]; [lia | rewrite IH; lia]. Qed.

(** X9. The keys POST /api/create-event hands out grow: the key of a new
    event is positive, larger than every key in the table and larger than
    the last key handed out, and the next event created gets the next
    integer. *)
Theorem created_keys_increase (d : Database)
    (body1 body2 : Server.CreateEventRequestBody) (now1 now2 : string) :
  valid_event_request body1 = true ->
  valid_event_request body2 = true ->
  exists eventId,
    response (Server.createEvent body1 now1) d
    = {| code := 201; body := CreatedBody "Event created successfully!" eventId 1 |}
    /\ 0 < eventId
    /\ seq_events d < eventId
    /\ (forall e, In e (events d) -> id e < eventId)
    /\ response (Server.createEvent body2 now2) (after (Server.createEvent body1 now1) d)
       = {| code := 201;
            body := CreatedBody "Event created successfully!" (eventId + 1) 1 |}.
Proof.
  intros Hv1 Hv2.
  destruct (createEvent_accepts body1 now1 d Hv1)
    as [c1 [n1 [de1 [m1 [t1 [da1 [s1 [e1 [_ [_ [_ Hrun1]]]]]]]]]]].
  cbv zeta in Hrun1.
  exists (next_rowid id (events d) (seq_events d)).
  unfold response, after. rewrite Hrun1. cbn [fst snd store idle].
  pose proof (max_rowid_nonneg id (events d)) as Hnn.
  split; [reflexivity|]. split; [unfold next_rowid; lia|].
  split; [unfold next_rowid; lia|]. split.
  - intros e Hin. pose proof (max_rowid_bound id (events d) e Hin).
    unfold next_rowid. lia.
  - destruct (createEvent_accepts body2 now2
                (with_new_event (created_event d c1 n1 de1 t1 da1 s1 e1 now1) d) Hv2)
      as [c2 [n2 [de2 [m2 [t2 [da2 [s2 [e2 [_ [_ [_ Hrun2]]]]]]]]]]].
    cbv zeta in Hrun2. rewrite Hrun2. cbn [fst].
    cbn [id created_event with_new_event events seq_events].
    unfold next_rowid at 1. rewrite max_rowid_app. cbn [id created_event].
    replace (Z.max (next_rowid id (events d) (seq_events d))
               (Z.max (max_rowid id (events d))
                  (Z.max (next_rowid id (events d) (seq_events d)) 0)))
      with (next_rowid id (events d) (seq_events d))
      by (unfold next_rowid; lia).
    reflexivity.
Qed.

Lemma created_keys_increase_witness :
  exists eventId,
    response (Server.createEvent Examples.new_meetup "2025-08-01 08:00:00")
      Examples.one_event
    = {| code := 201; body := CreatedBody "Event created successfully!" eventId 1 |}
    /\ 0 < eventId
    /\ seq_events Examples.one_event < eventId
    /\ (forall e, In e (events Examples.one_event) -> id e < eventId)
    /\ response (Server.createEvent Examples.new_meetup "2025-08-01 09:00:00")
         (after (Server.createEvent Examples.new_meetup "2025-08-01 08:00:00")
            Examples.one_event)
       = {| code := 201;
            body := CreatedBody "Event created successfully!" (eventId + 1) 1 |}.
Proof.
  apply (created_keys_increase Examples.one_event Examples.new_meetup Examples.new_meetup
           "2025-08-01 08:00:00" "2025-08-01 09:00:00"); reflexivity.
Defined.

Lemma existsb_with_status (s : EventStatus) (key : Server.PathId) (rows : list Event) :
  existsb (event_matches key) (with_status s key rows) = existsb (event_matches key) rows.
Proof.
  unfold with_status. induction rows as [|e rows IH]; simpl; [reflexivity|].
  rewrite IH. destruct (event_matches key e) eqn:He; [|rewrite He; reflexivity].
  replace (event_matches key (Server.set_status s e)) with (event_matches key e)
    by reflexivity.
  rewrite He. reflexivity.
Qed.

Lemma with_status_twice (s1 s2 : EventStatus) (key : Server.PathId) (rows : list Event) :
  with_status s2 key (with_status s1 key rows) = with_status s2 key rows.
Proof.
  unfold with_status. rewrite map_map. apply map_ext. intro e.
  destruct (event_matches key e) eqn:He.
  - replace (event_matches key (Server.set_status s1 e)) with (event_matches key e)
      by reflexivity.
    rewrite He. reflexivity.
  - rewrite He. reflexivity.
Qed.

Lemma after_status_twice (s1 s2 : EventStatus) (key : Server.PathId) (d : Database) :
  with_events (with_status s2 key) (with_events (with_status s1 key) d)
  = with_events (with_status s2 key) d.
Proof.
  unfold with_events; cbn [events eventAttendees seq_events seq_eventAttendees].
  rewrite with_status_twice. reflexivity.
Qed.

Lemma but_status_with_status (s : EventStatus) (key : Server.PathId) (rows : list Event) :
  map Frame.but_status (with_status s key rows) = map Frame.but_status rows.
Proof.
  unfold with_status. rewrite map_map. apply map_ext. intro e.
  destruct (event_matches key e); reflexivity.
Qed.

(** X10. The lifecycle has no guard: the last request wins. Publishing
    twice is publishing once, a cancel after a publish leaves what the
    cancel alone leaves, and a cancelled event can be published again;
    the second request is answered as the first. Neither request changes
    a column of [events] other than the status, nor any RSVP row. *)
Theorem lifecycle_last_write_wins (d : Database) (key : Server.PathId) :
  after (Server.publish key) (after (Server.publish key) d) = after (Server.publish key) d
  /\ after (Server.cancel key) (after (Server.publish key) d) = after (Server.cancel key) d
  /\ after (Server.publish key) (after (Server.cancel key) d) = after (Server.publish key) d
  /\ response (Server.cancel key) (after (Server.publish key) d)
     = response (Server.cancel key) d
  /\ response (Server.publish key) (after (Server.cancel key) d)
     = response (Server.publish key) d
  /\ map Frame.but_status (events (after (Server.publish key) d))
     = map Frame.but_status (events d)
  /\ map Frame.but_status (events (after (Server.cancel key) d))
     = map Frame.but_status (events d)
  /\ eventAttendees (after (Server.publish key) d) = eventAttendees d
  /\ eventAttendees (after (Server.cancel key) d) = eventAttendees d.
Proof.
  assert (Hstore : forall x, store (idle x) = x) by reflexivity.
  unfold after, response. rewrite !publish_run, !cancel_run.
  destruct (existsb (event_matches key) (events d)) eqn:Hex;
    cbn [fst snd]; rewrite !Hstore.
  - cbn [with_events events].
    rewrite !existsb_with_status, Hex. cbn [fst snd]. rewrite ?Hstore.
    rewrite !after_status_twice. cbn [with_events events eventAttendees].
    rewrite !but_status_with_status. repeat split.
  - rewrite Hex. repeat split.
Qed.

End EventStoreMore.

(** ** The queries on reachable databases *)

Section QueriesReachable.

Import Sqlite Http Rsvp.

Lemma handle_step (r : App.Request) (d : Database) :
  exists d', snd (serve (App.handle r) (idle d)) = idle d' /\ Steps.Step d d'.
Proof.
  destruct r as [body now| |key|key|key|n body now|n|email|]; cbn [App.handle].
  - destruct (createEvent_rejected_or_valid body now d) as [Hvalid|[error Hrun]].
    + destruct (createEvent_accepts body now d Hvalid)
        as [creator [name [descr [n [targeted [date [starts [ends [_ [_ [Hpos Hrun]]]]]]]]]]].
      cbv zeta in Hrun. rewrite Hrun. eexists. split; [reflexivity|].
      apply Steps.EventCreated, Hpos.
    + rewrite Hrun. exists d. split; [reflexivity | constructor].
  - rewrite listEvents_run. exists d. split; [reflexivity | constructor].
  - rewrite publish_run. destruct (existsb _ _); eexists; (split; [reflexivity|]);
      constructor.
  - rewrite cancel_run. destruct (existsb _ _); eexists; (split; [reflexivity|]);
      constructor.
  - rewrite getEvent_run. exists d. split; [reflexivity | constructor].
  - destruct (submitResponse_outcome n body now d) as [resp [d' [Hrun Hout]]].
    rewrite Hrun. exists d'. split; [reflexivity|].
    inversion Hout; subst;
      [ apply Steps.Unchanged | apply Steps.Unchanged | apply Steps.Unchanged
      | eapply Steps.RsvpRecorded; eassumption
      | apply Steps.RsvpUpdated; assumption ].
  - rewrite listAttendeesForEvent_run. exists d. split; [reflexivity | constructor].
  - rewrite listEventsForAttendee_run. exists d. split; [reflexivity | constructor].
  - rewrite listEventsWithCounts_fails. exists d. split; [reflexivity | constructor].
Qed.

(** An invariant of the steps holds in every reachable database. *)
Lemma reachable_ind (P : Database -> Prop) :
  P Examples.empty ->
  (forall d d', P d -> Steps.Step d d' -> P d') ->
  forall d, App.reachable d -> P d.
Proof.
  intros Hempty Hstep d [rs Hrs].
  assert (H : forall rs d0, P d0 -> exists d1, App.serve_all rs (idle d0) = idle d1 /\ P d1).
  { clear d rs Hrs. intro rs. induction rs as [|r rs IH]; intros d0 Hd0;
      cbn [App.serve_all]; [eauto|].
    destruct (handle_step r d0) as [d1 [Hrun Hs]]. rewrite Hrun.
    apply IH. eapply Hstep; eassumption. }
  destruct (H rs Examples.empty Hempty) as [d1 [Hrun Hd1]].
  assert (d1 = d) by (rewrite Hrun in Hrs; unfold idle in Hrs; congruence).
  subst d1. exact Hd1.
Qed.

Lemma reachable_is_consistent (d : Database) : App.reachable d -> App.consistent d.
Proof.
  apply reachable_ind; [apply consistent_empty|].
  intros d0 d' Hd0 Hstep. inversion Hstep; subst.
  - exact Hd0.
  - apply consistent_with_new_event, Hd0.
  - apply consistent_with_status, Hd0.
  - eapply consistent_inserted; eassumption.
  - apply consistent_updated; assumption.
Qed.

Lemma ascending_app (keys : list Z) (k : Z) :
  Steps.ascending keys -> (forall k', In k' keys -> k' < k) ->
  Steps.ascending (keys ++ [k]).
Proof.
  induction keys as [|x keys IH]; cbn [app Steps.ascending].
  - intros _ _. split; [intros k' []|exact I].
  - intros [Hx Hrest] Hlt. split.
    + intros k' Hin. apply in_app_or in Hin. destruct Hin as [Hin|[<-|[]]].
      * apply Hx, Hin.
      * apply Hlt. left. reflexivity.
    + apply IH; [exact Hrest|]. intros k' Hin. apply Hlt. right. exact Hin.
Qed.

(** X11. The events of a reachable database are in increasing order of
    their keys, the keys are positive and none exceeds the last key
    handed out: GET /api/events, which answers 200 with the rows of the
    table in their order, lists the events in the order of their
    creation. *)
Theorem reachable_keys_ascending (d : Database) :
  App.reachable d ->
  Steps.ascending (map id (events d))
  /\ (forall e, In e (events d) -> 0 < id e <= seq_events d)
  /\ response Queries.listEvents d
     = {| code := 200; body := RowsBody (map Queries.event_json (events d)) |}.
Proof.
  intro Hd. split; [|split; [|unfold response; rewrite listEvents_run; reflexivity]];
    revert d Hd.
  - apply reachable_ind; [exact I|].
    intros d d' Hd Hstep. inversion Hstep; subst; cbn [events inserted updated with_events];
      rewrite ?map_id_bump; try exact Hd.
    + unfold with_new_event; cbn [events]. rewrite map_app. cbn [map id created_event].
      apply ascending_app; [exact Hd|].
      intros k' Hin. apply in_map_iff in Hin. destruct Hin as [e [<- Hin]].
      pose proof (max_rowid_bound id (events d) e Hin). unfold next_rowid. lia.
    + replace (map id (with_status s key (events d))) with (map id (events d));
        [exact Hd|].
      unfold with_status. rewrite map_map. apply map_ext. intro e.
      destruct (event_matches key e); reflexivity.
  - apply (reachable_ind (fun d => forall e, In e (events d) -> 0 < id e <= seq_events d));
      [intros e []|].
    intros d d' Hd Hstep e Hin. inversion Hstep; subst.
    + apply Hd, Hin.
    + unfold with_new_event, created_event in *; cbn [events seq_events id] in *.
      pose proof (max_rowid_nonneg id (events d)).
      apply in_app_or in Hin. destruct Hin as [Hin|[<-|[]]].
      * specialize (Hd e Hin). pose proof (max_rowid_bound id (events d) e Hin).
        unfold next_rowid. lia.
      * cbn [id]. unfold next_rowid. lia.
    + cbn [with_events events seq_events] in *. unfold with_status in Hin.
      apply in_map_iff in Hin. destruct Hin as [e0 [He Hin]]. specialize (Hd e0 Hin).
      subst e. destruct (event_matches key e0); exact Hd.
    + unfold inserted in *; cbn [events seq_events] in *.
      apply in_bump in Hin. destruct Hin as [e0 [Hin [Hid _]]].
      rewrite Hid. apply Hd, Hin.
    + unfold updated in *; cbn [events seq_events] in *.
      apply in_bump in Hin. destruct Hin as [e1 [Hin [Hid1 _]]].
      apply in_bump in Hin. destruct Hin as [e0 [Hin [Hid _]]].
      rewrite Hid1, Hid. apply Hd, Hin.
Qed.

Lemma reachable_keys_ascending_witness :
  let d := after (Server.createEvent Examples.new_meetup "2025-08-01 09:00:00")
             (after (Server.createEvent Examples.new_meetup "2025-08-01 08:00:00")
                Examples.empty) in
  Steps.ascending (map id (events d))
  /\ (forall e, In e (events d) -> 0 < id e <= seq_events d)
  /\ response Queries.listEvents d
     = {| code := 200; body := RowsBody (map Queries.event_json (events d)) |}.
Proof.
  cbv zeta. apply reachable_keys_ascending.
  exists [App.CreateEvent Examples.new_meetup "2025-08-01 08:00:00";
          App.CreateEvent Examples.new_meetup "2025-08-01 09:00:00"].
  reflexivity.
Defined.

Lemma find_in {A} (p : A -> bool) (l : list A) (x : A) :
  In x l -> p x = true -> exists y, find p l = Some y.
Proof.
  intros Hin Hp. destruct (find p l) as [y|] eqn:Hfind; [eauto|].
  rewrite (find_none _ _ Hfind x Hin) in Hp. discriminate.
Qed.

Lemma outcome_success_valid (n : Js.Number) (body : Attendees.CreateAttendeeRequestBody)
    (now : string) (d : Database) (r : Response) (d' : Database) :
  Outcome n body now d r d' ->
  code r = 200 \/ code r = 201 ->
  Js.isNaN n || Js.le0 n = false.
Proof.
  intros H Hcode.
  assert (Hv : passes_validation n body = true)
    by (inversion H; subst; simpl in Hcode; try assumption; destruct Hcode; discriminate).
  unfold passes_validation in Hv.
  repeat (apply andb_prop in Hv; destruct Hv as [Hv _]).
  apply negb_true_iff in Hv. exact Hv.
Qed.

Lemma outcome_success_fields (n : Js.Number)
    (body : Attendees.CreateAttendeeRequestBody) (now : string)
    (d : Database) (r : Response) (d' : Database) :
  Outcome n body now d r d' ->
  code r = 200 \/ code r = 201 ->
  exists k email s row,
    Js.as_integer n = Some k
    /\ Attendees.attendeeEmail body = Js.Str email
    /\ resolved_status body = Some s
    /\ rsvp_of d' k email = Some row
    /\ responseStatus row = s
    /\ rsvpDate row = now
    /\ stores_note body (notes row).
Proof.
  intros H Hcode. inversion H; subst; simpl in Hcode;
    try (destruct Hcode; discriminate).
  - exists k, email, s. eexists. repeat (split; [eassumption|]).
    unfold rsvp_of, inserted; simpl.
    match goal with Hnone : rsvp_of d k email = None |- _ =>
      unfold rsvp_of in Hnone; rewrite find_app_none by exact Hnone end.
    unfold attendee_matches, key_matches, text_matches; simpl.
    rewrite Z.eqb_refl, String.eqb_refl. simpl.
    split; [reflexivity|]. split; [reflexivity|]. split; [reflexivity|].
    apply bound_notes_stored. assumption.
  - exists k, email, s, (Attendees.set_response s b now row).
    repeat (split; [eassumption|]).
    split; [apply rsvp_of_updated; assumption|].
    split; [reflexivity|]. split; [reflexivity|].
    apply bound_notes_stored. assumption.
Qed.

Lemma one_row_of_pair (d : Database) (k : Z) (email : string) (a b : Attendee) :
  unique_rsvp d ->
  In a (eventAttendees d) -> In b (eventAttendees d) ->
  eventId a = k -> attendeeEmail a = email ->
  eventId b = k -> attendeeEmail b = email ->
  a = b.
Proof.
  intros Hu Ha Hb Hka Hea Hkb Heb.
  pose proof (unique_rsvp_at_most_one d k email Hu) as Hlen.
  unfold rsvps_of_pair in Hlen.
  assert (Hm : forall x, eventId x = k -> attendeeEmail x = email ->
                         attendee_matches (Some k) (Some email) x = true).
  { intros x Hkx Hex. unfold attendee_matches, key_matches, text_matches.
    rewrite Hkx, Hex, Z.eqb_refl, String.eqb_refl. reflexivity. }
  assert (Hfa : In a (filter (attendee_matches (Some k) (Some email)) (eventAttendees d)))
    by (apply filter_In; auto).
  assert (Hfb : In b (filter (attendee_matches (Some k) (Some email)) (eventAttendees d)))
    by (apply filter_In; auto).
  destruct (filter (attendee_matches (Some k) (Some email)) (eventAttendees d))
    as [|x [|y rest]]; [destruct Hfa | | cbn in Hlen; lia].
  destruct Hfa as [<-|[]]. destruct Hfb as [<-|[]]. reflexivity.
Qed.

(** X12. In a reachable database, after a submission answered 200 or 201,
    GET /api/events/:eventId/attendees for the same event answers 200.
    Its rows hold one row for the address of the submission, and one
    only: that row has the key of the event, the address, the status the
    submission resolved, the time of the submission as [rsvpDate], and
    the note as the TEXT column keeps it (NULL for none, the string of a
    string, a text for a number). The number of the rows is the sum of
    the four counters of the event. *)
Theorem attendee_listed_after_submit (d : Database) (eventId : Js.Number)
    (body : Attendees.CreateAttendeeRequestBody) (now : string) :
  App.reachable d ->
  code (response (Attendees.submitResponse eventId body now) d) = 200
  \/ code (response (Attendees.submitResponse eventId body now) d) = 201 ->
  let d' := after (Attendees.submitResponse eventId body now) d in
  exists k email s e rows row note,
    Js.as_integer eventId = Some k
    /\ Attendees.attendeeEmail body = Js.Str email
    /\ resolved_status body = Some s
    /\ response (Queries.listAttendeesForEvent eventId) d'
       = {| code := 200; body := RowsBody rows |}
    /\ In row rows
    /\ Dashboard.field "eventId" row = Some (BNumber (Js.integer k))
    /\ Dashboard.field "attendeeEmail" row = Some (BText email)
    /\ Dashboard.field "responseStatus" row = Some (BText (status_text s))
    /\ Dashboard.field "rsvpDate" row = Some (BText now)
    /\ Dashboard.field "notes" row = Some note
    /\ stores_note body note
    /\ (forall other, In other rows ->
                      Dashboard.field "attendeeEmail" other = Some (BText email) ->
                      other = row)
    /\ event_of d' k = Some e
    /\ Z.of_nat (List.length rows)
       = attendingCount e + notAttendingCount e + maybeCount e + pendingCount e.
Proof.
  intros Hd Hcode. cbv zeta.
  pose proof (after_submitResponse eventId body now d) as Hout.
  apply reachable_is_consistent in Hd.
  destruct (handle_consistent (App.SubmitResponse eventId body now) d Hd)
    as [d' [Hrun Hd']].
  cbn [App.handle] in Hrun.
  assert (Hafter : after (Attendees.submitResponse eventId body now) d = d')
    by (unfold after; rewrite Hrun; reflexivity).
  rewrite Hafter in *.
  pose proof (outcome_success_valid _ _ _ _ _ _ Hout Hcode) as Hid.
  destruct (outcome_success_fields _ _ _ _ _ _ Hout Hcode)
    as [k [email [s [a [Hk [He [Hs [Hrow [Hstatus [Hdate Hnote]]]]]]]]]].
  pose proof (find_some _ _ Hrow) as [Hin Hm].
  apply attendee_matches_key in Hm. inversion Hm as [[Hka Hea]].
  destruct (App.references d' Hd' a Hin) as [e0 [He0 Hide0]].
  destruct (find_in (event_matches (Some k)) (events d') e0 He0) as [e Hfind].
  { unfold event_matches, key_matches. apply Z.eqb_eq. congruence. }
  exists k, email, s, e. eexists. exists (Queries.attendee_json a), (notes a).
  split; [exact Hk|]. split; [exact He|]. split; [exact Hs|].
  unfold response. rewrite listAttendeesForEvent_run, Hid, Hk, Hfind. cbn [fst].
  split; [reflexivity|].
  split.
  { apply in_map, in_index_order_iff, filter_In. split; [exact Hin|].
    unfold key_matches. apply Z.eqb_eq. exact Hka. }
  split; [cbn; rewrite Hka; reflexivity|].
  split; [cbn; rewrite Hea; reflexivity|].
  split; [cbn; rewrite Hstatus; reflexivity|].
  split; [cbn; rewrite Hdate; reflexivity|].
  split; [reflexivity|]. split; [exact Hnote|].
  split; [|split; [exact Hfind|]].
  - intros other Hother Haddr.
    apply in_map_iff in Hother. destruct Hother as [b [<- Hb]].
    apply in_index_order_iff, filter_In in Hb. destruct Hb as [Hb Hkb].
    unfold key_matches in Hkb. apply Z.eqb_eq in Hkb.
    cbn in Haddr. inversion Haddr as [Heb].
    rewrite (one_row_of_pair d' k email a b (App.pairs_unique d' Hd') Hin Hb
               Hka Hea Hkb Heb).
    reflexivity.
  - rewrite length_map, length_in_index_order.
    pose proof (consistent_count_consistent d' Hd' e (proj1 (find_some _ _ Hfind))) as Hsum.
    unfold counter_sum, rsvp_count, rsvps_of_event in Hsum. rewrite Hsum.
    pose proof (find_some _ _ Hfind) as [_ Hme].
    unfold event_matches, key_matches in Hme. apply Z.eqb_eq in Hme. rewrite Hme.
    reflexivity.
Qed.

Lemma attendee_listed_after_submit_witness :
  let d := after (Server.createEvent Examples.new_meetup "2025-08-01 08:00:00")
             Examples.empty in
  let noted := {| Attendees.attendeeEmail := Js.Str "a@x.com";
                  Attendees.responseStatus := Js.Str "Maybe";
                  Attendees.notes := Js.Num (Js.integer 5) |} in
  let d' := after (Attendees.submitResponse (Js.integer 1) noted
                     "2025-08-02 10:00:00") d in
  exists rows row e,
    response (Queries.listAttendeesForEvent (Js.integer 1)) d'
    = {| code := 200; body := RowsBody rows |}
    /\ In row rows
    /\ Dashboard.field "attendeeEmail" row = Some (BText "a@x.com")
    /\ Dashboard.field "responseStatus" row = Some (BText "Maybe")
    /\ Dashboard.field "notes" row = Some (BText "5.0")
    /\ event_of d' 1 = Some e
    /\ Z.of_nat (List.length rows)
       = attendingCount e + notAttendingCount e + maybeCount e + pendingCount e.
Proof.
  cbv zeta.
  destruct (attendee_listed_after_submit
              (after (Server.createEvent Examples.new_meetup "2025-08-01 08:00:00")
                 Examples.empty)
              (Js.integer 1)
              {| Attendees.attendeeEmail := Js.Str "a@x.com";
                 Attendees.responseStatus := Js.Str "Maybe";
                 Attendees.notes := Js.Num (Js.integer 5) |}
              "2025-08-02 10:00:00")
    as [k [email [s [e [rows [row [note [Hk [Hemail [Hs [Hresp [Hin [_ [Haddr
        [Hstatus [_ [Hnote [_ [_ [He Hlen]]]]]]]]]]]]]]]]]]]].
  - exists [App.CreateEvent Examples.new_meetup "2025-08-01 08:00:00"]. reflexivity.
  - right. reflexivity.
  - inversion Hk; subst k. inversion Hemail; subst email.
    cbn in Hs. inversion Hs; subst s.
    exists rows, row, e. repeat (split; [assumption|]).
    split; [|split; assumption].
    vm_compute in Hresp. inversion Hresp; subst rows.
    destruct Hin as [<-|[]]. reflexivity.
Defined.

Lemma single_event (rows : list Event) (e : Event) :
  NoDup (map id rows) -> In e rows ->
  filter (fun x => id x =? id e) rows = [e].
Proof.
  induction rows as [|x rows IH]; cbn [map filter]; [intros _ []|].
  intros Hnodup Hin. inversion Hnodup as [|k ks Hnotin Hnodup']; subst.
  destruct Hin as [->|Hin].
  - rewrite Z.eqb_refl. f_equal. apply filter_none.
    intros y Hy. apply Z.eqb_neq. intro Heq. apply Hnotin. rewrite <- Heq.
    apply in_map. exact Hy.
  - destruct (Z.eqb_spec (id x) (id e)) as [Heq|_]; [|apply IH; assumption].
    exfalso. apply Hnotin. rewrite Heq. apply in_map. exact Hin.
Qed.

Lemma unique_events_of_address (email : string) (rows : list Attendee) :
  NoDup (map rsvp_key rows) ->
  NoDup (map eventId (filter (fun a => (attendeeEmail a =? email)%string) rows)).
Proof.
  induction rows as [|a rows IH]; cbn [map filter]; [constructor|].
  intro Hnodup. inversion Hnodup as [|k ks Hnotin Hnodup']; subst.
  destruct (String.eqb_spec (attendeeEmail a) email) as [Heq|_]; [|apply IH; assumption].
  cbn [map]. constructor; [|apply IH; assumption].
  intro Hin. apply in_map_iff in Hin. destruct Hin as [b [Hid Hb]].
  apply filter_In in Hb. destruct Hb as [Hb Hemail]. apply String.eqb_eq in Hemail.
  apply Hnotin. apply in_map_iff. exists b. split; [|exact Hb].
  unfold rsvp_key. congruence.
Qed.

(** X13. In a reachable database GET /api/attendee/:email/events answers
    200 for every non-empty address, with one row for every RSVP row of
    the address and no event twice: every answer of the attendee is
    listed with its event, and an address without an answer gets the
    empty list, not a 404. *)
Theorem events_of_attendee (d : Database) (email : string) :
  App.reachable d ->
  email <> "" ->
  exists rows,
    response (Queries.listEventsForAttendee email) d
    = {| code := 200; body := RowsBody rows |}
    /\ List.length rows
       = List.length (filter (fun a => (attendeeEmail a =? email)%string) (eventAttendees d))
    /\ (forall a, In a (eventAttendees d) -> attendeeEmail a = email ->
                  exists e, event_of d (eventId a) = Some e
                            /\ In (Queries.attendee_event_json a e) rows)
    /\ NoDup (map eventId
                (filter (fun a => (attendeeEmail a =? email)%string) (eventAttendees d)))
    /\ ((forall a, In a (eventAttendees d) -> attendeeEmail a <> email) -> rows = []).
Proof.
  intros Hd Hemail. apply reachable_is_consistent in Hd.
  destruct Hd as [_ Hunique Hkeys Hrefs].
  unfold response. rewrite listEventsForAttendee_run.
  apply String.eqb_neq in Hemail. rewrite Hemail. cbn [fst].
  eexists. split; [reflexivity|].
  assert (Hone : forall a, In a (eventAttendees d) ->
                           exists e, In e (events d) /\ id e = eventId a
                                     /\ filter (fun x => id x =? eventId a) (events d) = [e]).
  { intros a Hin. destruct (Hrefs a Hin) as [e [He Hid]]. exists e.
    split; [exact He|]. split; [exact Hid|]. rewrite <- Hid.
    apply single_event; assumption. }
  split; [|split; [|split; [apply unique_events_of_address, Hunique|]]].
  - clear Hrefs Hunique. induction (eventAttendees d) as [|a rows IH];
      cbn [flat_map filter]; [reflexivity|].
    rewrite length_app, IH by (intros b Hb; apply Hone; right; exact Hb).
    destruct (attendeeEmail a =? email)%string; [|reflexivity].
    destruct (Hone a (or_introl eq_refl)) as [e [_ [_ Hf]]]. rewrite Hf. reflexivity.
  - intros a Hin Ha. destruct (Hone a Hin) as [e [He [Hid Hf]]].
    destruct (find_in (event_matches (Some (eventId a))) (events d) e He) as [e' He'].
    { unfold event_matches, key_matches. apply Z.eqb_eq. exact Hid. }
    assert (e' = e).
    { pose proof (find_some _ _ He') as [Hin' Hm'].
      assert (Hf' : In e' (filter (fun x => id x =? eventId a) (events d)))
        by (apply filter_In; split; assumption).
      rewrite Hf in Hf'. destruct Hf' as [<-|[]]. reflexivity. }
    subst e'. exists e. split; [exact He'|].
    apply in_flat_map. exists a. split; [exact Hin|].
    apply String.eqb_eq in Ha. rewrite Ha, Hf. left. reflexivity.
  - intro Hnone. clear Hone Hrefs Hunique.
    induction (eventAttendees d) as [|a rows IH]; cbn [flat_map]; [reflexivity|].
    rewrite IH by (intros b Hb; apply Hnone; right; exact Hb).
    assert (Ha : attendeeEmail a <> email) by (apply Hnone; left; reflexivity).
    apply String.eqb_neq in Ha. rewrite Ha. reflexivity.
Qed.

Lemma events_of_attendee_witness :
  let d := after (Attendees.submitResponse (Js.integer 1)
                    (Examples.answer "a@x.com" (Js.Str "Maybe")) "2025-08-02 10:00:00")
             (after (Server.createEvent Examples.new_meetup "2025-08-01 08:00:00")
                Examples.empty) in
  exists rows,
    response (Queries.listEventsForAttendee "a@x.com") d
    = {| code := 200; body := RowsBody rows |}
    /\ List.length rows = 1%nat.
Proof.
  cbv zeta.
  destruct (events_of_attendee
              (after (Attendees.submitResponse (Js.integer 1)
                        (Examples.answer "a@x.com" (Js.Str "Maybe"))
                        "2025-08-02 10:00:00")
                 (after (Server.createEvent Examples.new_meetup "2025-08-01 08:00:00")
                    Examples.empty))
              "a@x.com") as [rows [Hresp [Hlen _]]].
  - exists [App.CreateEvent Examples.new_meetup "2025-08-01 08:00:00";
            App.SubmitResponse (Js.integer 1)
              (Examples.answer "a@x.com" (Js.Str "Maybe")) "2025-08-02 10:00:00"].
    reflexivity.
  - discriminate.
  - exists rows. split; [exact Hresp | exact Hlen].
Defined.

End QueriesReachable.

(** ** The dashboard *)

Section DashboardCounts.

Import Sqlite Http Rsvp.

Lemma forEach_rows (rows : list Attendee) (a n p m : Z) :
  Dashboard.forEach
    [("Attending", a); ("Not Attending", n); ("Pending", p); ("Maybe", m)]
    (map Queries.attendee_json rows)
  = Some [("Attending", a + Dashboard.in_status Attending rows);
          ("Not Attending", n + Dashboard.in_status NotAttending rows);
          ("Pending", p + Dashboard.in_status Pending rows);
          ("Maybe", m + Dashboard.in_status Maybe rows)].
Proof.
  revert a n p m. unfold Dashboard.in_status.
  induction rows as [|x rows IH]; intros a n p m.
  - cbn. rewrite !Z.add_0_r. reflexivity.
  - cbn [map Dashboard.forEach].
    unfold Dashboard.count, Queries.attendee_json.
    cbn [Dashboard.field find fst snd String.eqb Ascii.eqb Bool.eqb option_map
         Dashboard.property_key].
    cbn [filter].
    destruct (responseStatus x); cbn [status_text ResponseStatus_eqb];
      cbn [Dashboard.get Dashboard.set find fst snd String.eqb Ascii.eqb Bool.eqb
           option_map];
      rewrite IH; cbn [List.length]; rewrite Nat2Z.inj_succ;
      f_equal; repeat (apply f_equal2; [apply f_equal; lia|]); reflexivity.
Qed.

Lemma filter_both {A} (p q : A -> bool) (l : list A) :
  filter q (filter p l) = filter (fun x => p x && q x) l.
Proof.
  induction l as [|x l IH]; cbn [filter]; [reflexivity|].
  destruct (p x); cbn [filter andb]; [destruct (q x)|]; rewrite IH; reflexivity.
Qed.

Lemma listed_rows (d : Database) (eventId : Js.Number) (rows : list Dashboard.Row) :
  App.reachable d ->
  response (Queries.listAttendeesForEvent eventId) d
  = {| code := 200; body := RowsBody rows |} ->
  exists k e,
    Js.as_integer eventId = Some k
    /\ event_of d k = Some e
    /\ rows = map Queries.attendee_json
                (Queries.in_index_order
                   (filter (fun a => Sqlite.eventId a =? k) (eventAttendees d)))
    /\ forall s, counter s e
                 = Dashboard.in_status s
                     (Queries.in_index_order
                        (filter (fun a => Sqlite.eventId a =? k) (eventAttendees d))).
Proof.
  intros Hd Hresp. apply reachable_is_consistent in Hd.
  unfold response in Hresp. rewrite listAttendeesForEvent_run in Hresp.
  cbn [fst] in Hresp.
  destruct (Js.isNaN eventId || Js.le0 eventId); [discriminate|].
  destruct (find (event_matches (Js.as_integer eventId)) (events d)) as [e|] eqn:Hfind;
    [|discriminate].
  pose proof (find_some _ _ Hfind) as [Hin Hm].
  unfold event_matches, key_matches in Hm.
  destruct (Js.as_integer eventId) as [k|] eqn:Hk; [|discriminate].
  apply Z.eqb_eq in Hm.
  exists k, e. split; [reflexivity|]. split; [exact Hfind|].
  split; [inversion Hresp; reflexivity|].
  intro s. rewrite (App.counters_exact d Hd e s Hin). unfold Dashboard.in_status.
  rewrite filter_in_index_order, filter_both, Hm. reflexivity.
Qed.

(** X14. The tally the dashboard makes of the rows of
    GET /api/events/:eventId/attendees is, in a reachable database, the
    four stored counters of the event: the object keeps its four initial
    keys, each with the value of the counter column of its status, and
    gets no other key. *)
Theorem dashboard_tally_is_counters (d : Database) (eventId : Js.Number)
    (rows : list Dashboard.Row) :
  App.reachable d ->
  response (Queries.listAttendeesForEvent eventId) d
  = {| code := 200; body := RowsBody rows |} ->
  exists k e counts,
    Js.as_integer eventId = Some k
    /\ event_of d k = Some e
    /\ Dashboard.responseCounts rows = Some counts
    /\ (forall s, Dashboard.get counts (status_text s) = Some (counter s e))
    /\ (forall key, Dashboard.get counts key <> None -> exists s, key = status_text s).
Proof.
  intros Hd Hresp.
  destruct (listed_rows d eventId rows Hd Hresp) as [k [e [Hk [He [-> Hcount]]]]].
  exists k, e. eexists. split; [exact Hk|]. split; [exact He|].
  unfold Dashboard.responseCounts, Dashboard.initial. rewrite forEach_rows.
  split; [reflexivity|]. split.
  - intro s. rewrite Hcount. destruct s; reflexivity.
  - intros key Hget. unfold Dashboard.get in Hget. cbn [find fst] in Hget.
    destruct (String.eqb_spec "Attending" key) as [Heq|_];
      [exists Attending; symmetry; exact Heq|].
    destruct (String.eqb_spec "Not Attending" key) as [Heq|_];
      [exists NotAttending; symmetry; exact Heq|].
    destruct (String.eqb_spec "Pending" key) as [Heq|_];
      [exists Pending; symmetry; exact Heq|].
    destruct (String.eqb_spec "Maybe" key) as [Heq|_];
      [exists Maybe; symmetry; exact Heq|].
    exfalso. apply Hget. reflexivity.
Qed.

Lemma dashboard_tally_is_counters_witness :
  let d := after (Attendees.submitResponse (Js.integer 1)
                    (Examples.answer "a@x.com" (Js.Str "Maybe")) "2025-08-02 10:00:00")
             (after (Server.createEvent Examples.new_meetup "2025-08-01 08:00:00")
                Examples.empty) in
  exists counts,
    Dashboard.responseCounts
      (map Queries.attendee_json (filter (fun a => Sqlite.eventId a =? 1) (eventAttendees d)))
    = Some counts
    /\ Dashboard.get counts "Maybe" = Some 1.
Proof.
  cbv zeta.
  destruct (dashboard_tally_is_counters
              (after (Attendees.submitResponse (Js.integer 1)
                        (Examples.answer "a@x.com" (Js.Str "Maybe"))
                        "2025-08-02 10:00:00")
                 (after (Server.createEvent Examples.new_meetup "2025-08-01 08:00:00")
                    Examples.empty))
              (Js.integer 1)
              (map Queries.attendee_json
                 (filter (fun a => Sqlite.eventId a =? 1)
                    (eventAttendees
                       (after (Attendees.submitResponse (Js.integer 1)
                                 (Examples.answer "a@x.com" (Js.Str "Maybe"))
                                 "2025-08-02 10:00:00")
                          (after (Server.createEvent Examples.new_meetup
                                    "2025-08-01 08:00:00")
                             Examples.empty))))))
    as [k [e [counts [Hk [He [Hcounts [Hget _]]]]]]].
  - exists [App.CreateEvent Examples.new_meetup "2025-08-01 08:00:00";
            App.SubmitResponse (Js.integer 1)
              (Examples.answer "a@x.com" (Js.Str "Maybe")) "2025-08-02 10:00:00"].
    reflexivity.
  - reflexivity.
  - exists counts. split; [exact Hcounts|].
    change "Maybe" with (status_text Maybe). rewrite (Hget Maybe).
    inversion Hk; subst k. vm_compute in He. inversion He. reflexivity.
Defined.

Lemma filtered_rows (s : ResponseStatus) (rows : list Attendee) :
  Dashboard.filteredParticipants (status_text s)
    (Dashboard.participants (map Queries.attendee_json rows))
  = Dashboard.participants
      (map Queries.attendee_json
         (filter (fun a => ResponseStatus_eqb (responseStatus a) s) rows)).
Proof.
  unfold Dashboard.filteredParticipants.
  replace (String.eqb (status_text s) "all") with false by (destruct s; reflexivity).
  unfold Dashboard.participants.
  induction rows as [|x rows IH]; [reflexivity|].
  cbn [map filter]. rewrite IH.
  unfold Dashboard.status_is at 1. cbn [Dashboard.responseStatus].
  unfold Queries.attendee_json at 1.
  cbn [Dashboard.field find fst snd String.eqb Ascii.eqb Bool.eqb option_map].
  destruct (responseStatus x), s; reflexivity.
Qed.

(** X15. In a reachable database the participants the dashboard shows
    under the filter of a status are as many as the counter column of
    that status says, and under the filter [all] as many as the four
    counters together. *)
Theorem dashboard_filter_is_counter (d : Database) (eventId : Js.Number)
    (rows : list Dashboard.Row) :
  App.reachable d ->
  response (Queries.listAttendeesForEvent eventId) d
  = {| code := 200; body := RowsBody rows |} ->
  exists k e,
    Js.as_integer eventId = Some k
    /\ event_of d k = Some e
    /\ (forall s, Z.of_nat (List.length (Dashboard.filteredParticipants (status_text s)
                                          (Dashboard.participants rows)))
                  = counter s e)
    /\ Z.of_nat (List.length (Dashboard.filteredParticipants "all"
                                (Dashboard.participants rows)))
       = attendingCount e + notAttendingCount e + maybeCount e + pendingCount e.
Proof.
  intros Hd Hresp.
  destruct (listed_rows d eventId rows Hd Hresp) as [k [e [Hk [He [-> Hcount]]]]].
  exists k, e. split; [exact Hk|]. split; [exact He|]. split.
  - intro s. rewrite filtered_rows, Hcount. unfold Dashboard.participants, Dashboard.in_status.
    rewrite !length_map. reflexivity.
  - unfold Dashboard.filteredParticipants. cbn [String.eqb Ascii.eqb Bool.eqb].
    unfold Dashboard.participants. rewrite !length_map, length_in_index_order.
    apply reachable_is_consistent in Hd.
    pose proof (find_some _ _ He) as [Hin Hm].
    pose proof (consistent_count_consistent d Hd e Hin) as Hsum.
    unfold counter_sum, rsvp_count, rsvps_of_event in Hsum. rewrite Hsum.
    unfold event_matches, key_matches in Hm. apply Z.eqb_eq in Hm. rewrite Hm.
    reflexivity.
Qed.

Lemma dashboard_filter_is_counter_witness :
  let d := after (Attendees.submitResponse (Js.integer 1)
                    (Examples.answer "a@x.com" (Js.Str "Maybe")) "2025-08-02 10:00:00")
             (after (Server.createEvent Examples.new_meetup "2025-08-01 08:00:00")
                Examples.empty) in
  exists e,
    event_of d 1 = Some e
    /\ Z.of_nat (List.length
                   (Dashboard.filteredParticipants "Maybe"
                      (Dashboard.participants
                         (map Queries.attendee_json
                            (filter (fun a => Sqlite.eventId a =? 1) (eventAttendees d))))))
       = maybeCount e.
Proof.
  cbv zeta.
  destruct (dashboard_filter_is_counter
              (after (Attendees.submitResponse (Js.integer 1)
                        (Examples.answer "a@x.com" (Js.Str "Maybe"))
                        "2025-08-02 10:00:00")
                 (after (Server.createEvent Examples.new_meetup "2025-08-01 08:00:00")
                    Examples.empty))
              (Js.integer 1)
              (map Queries.attendee_json
                 (filter (fun a => Sqlite.eventId a =? 1)
                    (eventAttendees
                       (after (Attendees.submitResponse (Js.integer 1)
                                 (Examples.answer "a@x.com" (Js.Str "Maybe"))
                                 "2025-08-02 10:00:00")
                          (after (Server.createEvent Examples.new_meetup
                                    "2025-08-01 08:00:00")
                             Examples.empty))))))
    as [k [e [Hk [He [Hfilter _]]]]].
  - exists [App.CreateEvent Examples.new_meetup "2025-08-01 08:00:00";
            App.SubmitResponse (Js.integer 1)
              (Examples.answer "a@x.com" (Js.Str "Maybe")) "2025-08-02 10:00:00"].
    reflexivity.
  - reflexivity.
  - inversion Hk; subst k. exists e. split; [exact He|]. exact (Hfilter Maybe).
Defined.

End DashboardCounts.

(** ** The schema script *)

Section SchemaScript.

Import Migration.

Lemma same_column_refl (a : string) : same_column a a = true.
Proof. apply String.eqb_refl. Qed.

Lemma exact_has_column (name : string) (cols : list string) :
  column_info_some name cols = true -> has_column name cols = true.
Proof.
  unfold column_info_some, has_column. rewrite !existsb_exists.
  intros [c [Hin Hc]]. apply String.eqb_eq in Hc. subst c.
  exists name. split; [exact Hin | apply same_column_refl].
Qed.

Lemma addColumn_cases (name : string) (cols : list string) :
  (addColumn name cols = cols /\ has_column name cols = true)
  \/ (addColumn name cols = (cols ++ [name])%list /\ has_column name cols = false).
Proof.
  unfold addColumn, add_column.
  destruct (column_info_some name cols) eqn:Hexact; cbn [negb].
  - left. split; [reflexivity | apply exact_has_column, Hexact].
  - destruct (has_column name cols); [left | right]; split; reflexivity.
Qed.

Lemma has_column_app (name : string) (cols more : list string) :
  has_column name (cols ++ more) = has_column name cols || has_column name more.
Proof. apply existsb_app. Qed.

Lemma fold_addColumn_keeps (names cols : list string) (c : string) :
  In c cols -> In c (fold_left (fun cols n => addColumn n cols) names cols).
Proof.
  revert cols. induction names as [|n names IH]; intros cols Hin; [exact Hin|].
  cbn [fold_left]. apply IH.
  destruct (addColumn_cases n cols) as [[-> _]|[-> _]]; [exact Hin|].
  apply in_or_app. left. exact Hin.
Qed.

Lemma fold_addColumn_has (names cols : list string) (c : string) :
  has_column c cols = true ->
  has_column c (fold_left (fun cols n => addColumn n cols) names cols) = true.
Proof.
  revert cols. induction names as [|n names IH]; intros cols Hc; [exact Hc|].
  cbn [fold_left]. apply IH.
  destruct (addColumn_cases n cols) as [[-> _]|[-> _]]; [exact Hc|].
  rewrite has_column_app, Hc. reflexivity.
Qed.

Lemma fold_addColumn_adds (names cols : list string) (c : string) :
  In c names ->
  has_column c (fold_left (fun cols n => addColumn n cols) names cols) = true.
Proof.
  revert cols. induction names as [|n names IH]; intros cols [].
  - subst n. cbn [fold_left]. apply fold_addColumn_has.
    destruct (addColumn_cases c cols) as [[-> H]|[-> _]]; [exact H|].
    rewrite has_column_app. cbn [has_column existsb]. rewrite same_column_refl.
    rewrite orb_true_r. reflexivity.
  - cbn [fold_left]. apply IH. assumption.
Qed.

Lemma fold_addColumn_origin (names cols : list string) (c : string) :
  In c (fold_left (fun cols n => addColumn n cols) names cols) ->
  In c cols \/ In c names.
Proof.
  revert cols. induction names as [|n names IH]; intros cols Hin; [left; exact Hin|].
  cbn [fold_left] in Hin. destruct (IH _ Hin) as [H|H]; [|right; right; exact H].
  destruct (addColumn_cases n cols) as [[Heq _]|[Heq _]]; rewrite Heq in H;
    [left; exact H|].
  apply in_app_or in H. destruct H as [H|[H|[]]]; [left; exact H|].
  right. left. exact H.
Qed.

Lemma fold_addColumn_settled (names cols : list string) :
  (forall n, In n names -> has_column n cols = true) ->
  fold_left (fun cols n => addColumn n cols) names cols = cols.
Proof.
  induction names as [|n names IH]; intro Hall; [reflexivity|].
  cbn [fold_left].
  destruct (addColumn_cases n cols) as [[-> _]|[_ Hno]].
  - apply IH. intros m Hm. apply Hall. right. exact Hm.
  - rewrite Hall in Hno by (left; reflexivity). discriminate.
Qed.

Lemma renamed_away (cols : list string) :
  column_info_some "eventTime"
    (map (fun c => if same_column c "eventTime" then "eventStartTime" else c) cols)
  = false.
Proof.
  unfold column_info_some. induction cols as [|c cols IH]; [reflexivity|].
  cbn [map existsb]. rewrite IH, orb_false_r.
  destruct (same_column c "eventTime") eqn:Hc; [reflexivity|].
  destruct (String.eqb_spec c "eventTime") as [->|_]; [|reflexivity].
  rewrite same_column_refl in Hc. discriminate.
Qed.

Lemma rename_eventTime_cases (cols : list string) :
  (rename_eventTime cols = cols
   /\ (column_info_some "eventTime" cols = true ->
       has_column "eventStartTime" cols = true))
  \/ (rename_eventTime cols
        = map (fun c => if same_column c "eventTime" then "eventStartTime" else c) cols
      /\ column_info_some "eventTime" cols = true
      /\ has_column "eventStartTime" cols = false).
Proof.
  unfold rename_eventTime, rename_column.
  destruct (column_info_some "eventTime" cols) eqn:Hold; cbn [andb];
    [|left; split; [reflexivity | discriminate]].
  destruct (column_info_some "eventStartTime" cols) eqn:Hnew; cbn [negb].
  - left. split; [reflexivity | intros _; apply exact_has_column, Hnew].
  - rewrite (exact_has_column _ _ Hold). cbn [negb].
    destruct (has_column "eventStartTime" cols) eqn:Hhas.
    + left. split; [reflexivity | intros _; reflexivity].
    + right. repeat split; reflexivity.
Qed.

Lemma rename_eventTime_settled (cols : list string) :
  (column_info_some "eventTime" cols = true -> has_column "eventStartTime" cols = true) ->
  rename_eventTime cols = cols.
Proof.
  intro H. destruct (rename_eventTime_cases cols) as [[Heq _]|[_ [Hold Hnew]]];
    [exact Heq|].
  rewrite (H Hold) in Hnew. discriminate.
Qed.

(** X16. Whatever columns the table [events] had, the schema script
    leaves it with each of the seven columns it adds, under a name SQLite
    takes for it, and drops no column: a column it found is still there,
    but for [eventTime], which is there under the name [eventStartTime]. *)
Theorem script_completes_schema (table : option (list string)) :
  (forall name, In name added_columns ->
                has_column name (init_and_alter table) = true)
  /\ (forall c, In c (create_table_if_not_exists table) ->
                In c (init_and_alter table)
                \/ (same_column c "eventTime" = true
                    /\ In "eventStartTime" (init_and_alter table))).
Proof.
  unfold init_and_alter. split.
  - intros name Hname. apply fold_addColumn_adds. exact Hname.
  - intros c Hc.
    destruct (rename_eventTime_cases (create_table_if_not_exists table))
      as [[-> _]|[-> _]].
    + left. apply fold_addColumn_keeps. exact Hc.
    + destruct (same_column c "eventTime") eqn:Hsame.
      * right. split; [reflexivity|]. apply fold_addColumn_keeps.
        apply in_map_iff. exists c. rewrite Hsame. split; [reflexivity | exact Hc].
      * left. apply fold_addColumn_keeps.
        apply in_map_iff. exists c. rewrite Hsame. split; [reflexivity | exact Hc].
Qed.

(** X17. The schema script is idempotent: run on the table it left, it
    changes nothing. *)
Theorem script_idempotent (table : option (list string)) :
  init_and_alter (Some (init_and_alter table)) = init_and_alter table.
Proof.
  unfold init_and_alter at 1. cbn [create_table_if_not_exists].
  rewrite rename_eventTime_settled.
  - apply fold_addColumn_settled. intros n Hn.
    unfold init_and_alter. apply fold_addColumn_adds. exact Hn.
  - unfold init_and_alter. intro Hold. apply fold_addColumn_has.
    unfold column_info_some in Hold. apply existsb_exists in Hold.
    destruct Hold as [c [Hin Hc]]. apply String.eqb_eq in Hc. subst c.
    apply fold_addColumn_origin in Hin.
    destruct Hin as [Hin|Hin];
      [|cbn in Hin; repeat (destruct Hin as [Hin|Hin]; [discriminate|]); destruct Hin].
    destruct (rename_eventTime_cases (create_table_if_not_exists table))
      as [[Heq Hnew]|[Heq _]]; rewrite Heq in *.
    + apply Hnew. unfold column_info_some. apply existsb_exists.
      exists "eventTime". split; [exact Hin | reflexivity].
    + exfalso.
      pose proof (renamed_away (create_table_if_not_exists table)) as Haway.
      unfold column_info_some in Haway.
      assert (Hyes : existsb (fun col => String.eqb col "eventTime")
                       (map (fun c => if same_column c "eventTime"
                                      then "eventStartTime" else c)
                          (create_table_if_not_exists table)) = true)
        by (apply existsb_exists; exists "eventTime"; split; [exact Hin | reflexivity]).
      rewrite Haway in Hyes. discriminate.
Qed.

(** X18. After the schema script the table has a column [eventTime], the
    one the RSVP statistics query names, only if the table was there
    before with both [eventTime] and a column SQLite takes for
    [eventStartTime]; a table the script creates has none. *)
Theorem eventTime_survives_only_beside_eventStartTime (table : option (list string)) :
  In "eventTime" (init_and_alter table) ->
  exists cols, table = Some cols
               /\ In "eventTime" cols
               /\ has_column "eventStartTime" cols = true.
Proof.
  unfold init_and_alter. intro Hin. apply fold_addColumn_origin in Hin.
  destruct Hin as [Hin|Hin];
    [|cbn in Hin; repeat (destruct Hin as [Hin|Hin]; [discriminate|]); destruct Hin].
  destruct (rename_eventTime_cases (create_table_if_not_exists table))
    as [[Heq Hnew]|[Heq _]]; rewrite Heq in Hin.
  - destruct table as [cols|].
    + exists cols. split; [reflexivity|]. split; [exact Hin|].
      apply Hnew. unfold column_info_some. apply existsb_exists.
      exists "eventTime". split; [exact Hin | reflexivity].
    + exfalso. cbn in Hin.
      repeat (destruct Hin as [Hin|Hin]; [discriminate|]). destruct Hin.
  - exfalso.
    pose proof (renamed_away (create_table_if_not_exists table)) as Haway.
    unfold column_info_some in Haway.
    assert (Hyes : existsb (fun col => String.eqb col "eventTime")
                     (map (fun c => if same_column c "eventTime"
                                    then "eventStartTime" else c)
                        (create_table_if_not_exists table)) = true)
      by (apply existsb_exists; exists "eventTime"; split; [exact Hin | reflexivity]).
    rewrite Haway in Hyes. discriminate.
Qed.

Lemma eventTime_survives_only_beside_eventStartTime_witness :
  In "eventTime" (init_and_alter (Some ["id"; "eventTime"; "eventStartTime"]))
  /\ exists cols, Some ["id"; "eventTime"; "eventStartTime"] = Some cols
                  /\ In "eventTime" cols
                  /\ has_column "eventStartTime" cols = true.
Proof.
  assert (H : In "eventTime" (init_and_alter (Some ["id"; "eventTime"; "eventStartTime"])))
    by (vm_compute; right; left; reflexivity).
  split; [exact H|].
  exact (eventTime_survives_only_beside_eventStartTime
           (Some ["id"; "eventTime"; "eventStartTime"]) H).
Defined.

End SchemaScript.

(** ** The RSVP forms against the handler *)

Section InviteForms.

Import Sqlite Http Rsvp.

Lemma outcome_success_note (n : Js.Number)
    (body : Attendees.CreateAttendeeRequestBody) (now : string)
    (d : Database) (r : Response) (d' : Database) :
  Outcome n body now d r d' ->
  code r = 200 \/ code r = 201 ->
  exists k email s b row,
    Js.as_integer n = Some k
    /\ Attendees.attendeeEmail body = Js.Str email
    /\ resolved_status body = Some s
    /\ bound_notes body = inr b
    /\ rsvp_of d' k email = Some row
    /\ responseStatus row = s
    /\ notes row = text_affinity b.
Proof.
  intros H Hcode. inversion H; subst; simpl in Hcode;
    try (destruct Hcode; discriminate).
  - exists k, email, s, b. eexists. repeat (split; [eassumption|]).
    unfold rsvp_of, inserted; simpl.
    match goal with Hnone : rsvp_of d k email = None |- _ =>
      unfold rsvp_of in Hnone; rewrite find_app_none by exact Hnone end.
    unfold attendee_matches, key_matches, text_matches; simpl.
    rewrite Z.eqb_refl, String.eqb_refl. simpl. repeat split; reflexivity.
  - exists k, email, s, b, (Attendees.set_response s b now row).
    repeat (split; [eassumption|]).
    split; [apply rsvp_of_updated; assumption|]. split; reflexivity.
Qed.

Lemma outcome_valid_codes (n : Js.Number)
    (body : Attendees.CreateAttendeeRequestBody) (now : string)
    (d : Database) (r : Response) (d' : Database) (b : Bound) :
  Outcome n body now d r d' ->
  passes_validation n body = true ->
  bound_notes body = inr b ->
  code r = 200 \/ code r = 201 \/ code r = 404.
Proof.
  intros H Hv Hb. inversion H; subst; cbn; try tauto; congruence.
Qed.

Lemma outcome_404_unchanged (n : Js.Number)
    (body : Attendees.CreateAttendeeRequestBody) (now : string)
    (d : Database) (r : Response) (d' : Database) :
  Outcome n body now d r d' -> code r = 404 -> d' = d.
Proof.
  intros H Hcode. inversion H; subst; try reflexivity; discriminate Hcode.
Qed.

Lemma invite_body (email : string) (status : Invite.Status)
    (body : Attendees.CreateAttendeeRequestBody) (n : Js.Number) :
  Invite.handleSendInvite email status = Some body ->
  Js.isNaN n || Js.le0 n = false ->
  passes_validation n body = true
  /\ Attendees.attendeeEmail body = Js.Str email
  /\ resolved_status body = Some (Invite.stored status)
  /\ bound_notes body = inr BNull.
Proof.
  unfold Invite.handleSendInvite. intros Hbody Hn.
  destruct (negb (Js.truthy (Js.Str (Invite.trim email)))); [discriminate|].
  destruct (Js.matches Attendees.email_format email) eqn:Hmatch; [|discriminate].
  cbn [negb] in Hbody. inversion Hbody; subst body; clear Hbody.
  assert (Hne : (email =? "")%string = false).
  { destruct email; [discriminate Hmatch | reflexivity]. }
  unfold passes_validation, resolved_status, finalResponseStatus, bound_notes.
  cbn [Attendees.attendeeEmail Attendees.responseStatus Attendees.notes
       Js.truthy Js.test_with_at].
  rewrite Hn, Hne, Hmatch.
  split; [destruct status; reflexivity|]. split; [reflexivity|].
  split; [destruct status; reflexivity | reflexivity].
Qed.

(** X19. A request the RSVP forms of the client send is never refused by
    the validation of the handler and never fails in the transaction:
    with an event id that passed the first check the answer is 200, 201
    or 404. When it is 200 or 201 the row of the pair holds the status
    of the button and no note: the forms send none, so an answer given
    again through them erases the note of the row. *)
Theorem invite_is_accepted (email : string) (status : Invite.Status)
    (body : Attendees.CreateAttendeeRequestBody) (eventId : Js.Number)
    (now : string) (d : Database) :
  Invite.handleSendInvite email status = Some body ->
  Js.isNaN eventId || Js.le0 eventId = false ->
  let r := response (Attendees.submitResponse eventId body now) d in
  let d' := after (Attendees.submitResponse eventId body now) d in
  (code r = 200 \/ code r = 201 \/ code r = 404)
  /\ (code r = 404 -> d' = d)
  /\ (code r = 200 \/ code r = 201 ->
      exists k row, Js.as_integer eventId = Some k
                    /\ rsvp_of d' k email = Some row
                    /\ responseStatus row = Invite.stored status
                    /\ notes row = BNull).
Proof.
  intros Hbody Hn. cbv zeta.
  destruct (invite_body email status body eventId Hbody Hn) as [Hv [He [Hs Hb]]].
  pose proof (after_submitResponse eventId body now d) as H.
  split; [|split].
  - exact (outcome_valid_codes _ _ _ _ _ _ _ H Hv Hb).
  - exact (outcome_404_unchanged _ _ _ _ _ _ H).
  - intro Hcode.
    destruct (outcome_success_note _ _ _ _ _ _ H Hcode)
      as [k [email0 [s [b [row [Hk [He0 [Hs0 [Hb0 [Hrow [Hstatus Hnotes]]]]]]]]]]].
    exists k, row. split; [exact Hk|].
    assert (email0 = email) by congruence. subst email0.
    split; [exact Hrow|]. split; [congruence|].
    assert (b = BNull) by congruence. subst b. exact Hnotes.
Qed.

Lemma invite_is_accepted_witness :
  let d := after (Server.createEvent Examples.new_meetup "2025-08-01 08:00:00")
             Examples.empty in
  let body := {| Attendees.attendeeEmail := Js.Str "a@x.com";
                 Attendees.responseStatus := Js.Str "Maybe";
                 Attendees.notes := Js.Undefined |} in
  let r := response (Attendees.submitResponse (Js.integer 1) body "2025-08-02 10:00:00") d in
  Invite.handleSendInvite "a@x.com" Invite.Maybe = Some body
  /\ (code r = 200 \/ code r = 201 \/ code r = 404).
Proof.
  cbv zeta. split; [reflexivity|].
  exact (proj1 (invite_is_accepted "a@x.com" Invite.Maybe
                  {| Attendees.attendeeEmail := Js.Str "a@x.com";
                     Attendees.responseStatus := Js.Str "Maybe";
                     Attendees.notes := Js.Undefined |}
                  (Js.integer 1) "2025-08-02 10:00:00"
                  (after (Server.createEvent Examples.new_meetup "2025-08-01 08:00:00")
                     Examples.empty)
                  eq_refl eq_refl)).
Defined.

End InviteForms.
